(** * dataquality: logit masking, enum schemas, the text-classification
      model logger and the end of a run, embedded from the Python sources.

    - [dataquality/utils/spacy_integration.py]
        [convert_spacy_ner_logits_to_valid_logits],
        [convert_spacy_ents_for_doc_to_predictions]
    - [dataquality/schemas/ner.py] [NERErrorType], [TaggingSchema], [NERColumns]
    - [dataquality/loggers/model_logger/text_classification.py]
        [GalileoModelLoggerAttributes], [TextClassificationModelLogger]
    - [dataquality/core/finish.py]
        [finish], [wait_for_run], [get_run_status], [_reset_run]

    numpy arrays are mutable objects: they live in a store ([heap]) and are
    passed by reference ([loc]).  Logits are IEEE binary64 numbers
    ([PrimFloat.float]).  Python exceptions are values of [exn].  Code that
    changes an object and may raise halfway is a [prog] on the state of that
    object; what [finish] calls outside its module is answered by a
    parameter, and every such call is recorded.

    The token probability extractor, the batched generation driver and the
    tagging scheme codec have no code under [src/]; what the development
    says about them rests on definitions taken from the specification, each
    marked as such. *)

From Stdlib Require Import ZArith Floats Bool.
From stdpp Require Import base option list gmap strings.

Local Open Scope Z_scope.
Local Open Scope nat_scope.

(** ** Python exceptions and fallible results *)

Inductive exn : Type :=
  | IndexError
  | ValueError
  | KeyError
  | AttributeError
  | AssertionError
  | TypeError
  | DanglingReference            (* a [loc] outside the store; Python never builds one *)
  (* the error taxonomy of the specification; no code under [src/] raises these *)
  | InvalidInputError
  | InvalidPredictionError
  | ShapeMismatchError
  | UnsupportedSchemeError
  | GenerationBatchError (lo hi : nat).

Inductive result (A : Type) : Type :=
  | Ok (a : A)
  | Raise (e : exn).
Arguments Ok {A} a.
Arguments Raise {A} e.

Definition rbind {A B} (r : result A) (k : A → result B) : result B :=
  match r with
  | Ok a => k a
  | Raise e => Raise e
  end.

Definition rmap {A B} (f : A → B) (r : result A) : result B :=
  rbind r (λ a, Ok (f a)).

Definition is_ok {A} (r : result A) : bool :=
  match r with Ok _ => true | Raise _ => false end.

(** [result] with stdpp's monad notation [x ← c; k]. *)
#[global] Instance result_ret : MRet result := λ A a, Ok a.
#[global] Instance result_bind : MBind result := λ A B k r, rbind r k.
#[global] Instance result_fmap : FMap result := λ A B f r, rmap f r.

(** ** numpy primitives used by the masking code *)

Module Np.

(** The order numpy sorts floating point keys by: [a < b], with every NaN
    after every number ([a < b || (b != b && a == a)]). *)
Definition less (a b : float) : bool :=
  (PrimFloat.ltb a b) || (negb (is_nan a) && is_nan b).

(** Two keys neither of which sorts before the other. *)
Definition tied (a b : float) : bool :=
  negb (less a b) && negb (less b a).

(** [v[i]] for an index known to the caller to be in range. *)
Definition item (v : list float) (i : nat) : float := nth i v nan.

(** What [np.argsort(v)] promises about its result [idx], whatever the
    sorting algorithm: [idx] holds each index of [v] once ... *)
Definition is_arange_perm (n : nat) (idx : list nat) : bool :=
  (length idx =? n) && forallb (λ i, existsb (Nat.eqb i) idx) (seq 0 n).

(** ... and reading [v] through [idx] gives keys in ascending order. *)
Fixpoint ascending (v : list float) (idx : list nat) : bool :=
  match idx with
  | [] => true
  | i :: rest =>
      forallb (λ j, negb (less (item v j) (item v i))) rest && ascending v rest
  end.

Definition argsort_ok (v : list float) (idx : list nat) : bool :=
  is_arange_perm (length v) idx && ascending v idx.

(** A sort that also keeps equal keys in index order (numpy's
    [kind='stable'], and its default on short arrays). *)
Fixpoint ties_by_index (v : list float) (idx : list nat) : bool :=
  match idx with
  | [] => true
  | i :: rest =>
      forallb (λ j, negb (tied (item v i) (item v j)) || (i <? j)) rest
      && ties_by_index v rest
  end.

(** [np.flip] of a 1-D array. *)
Definition flip {A} (l : list A) : list A := reverse l.

(** [np.where(idx == pred)[0][0]]: the first position holding [pred];
    indexing the empty result of [np.where] raises [IndexError]. *)
Fixpoint where_first (idx : list nat) (pred : Z) : result nat :=
  match idx with
  | [] => Raise IndexError
  | i :: rest =>
      if (Z.of_nat i =? pred)%Z then Ok 0
      else S <$> where_first rest pred
  end.

(** [np.ones(shape, bool)] for a 1-D shape. *)
Definition ones (n : nat) : list bool := replicate n true.

(** [mask[indices] = False]: every index is written; one outside the
    array raises [IndexError]. *)
Fixpoint clear_at (mask : list bool) (indices : list nat) : result (list bool) :=
  match indices with
  | [] => Ok mask
  | i :: rest =>
      if i <? length mask then clear_at (<[i := false]> mask) rest
      else Raise IndexError
  end.

(** [v[mask] = 0] for a boolean mask of [v]'s shape. *)
Definition zero_where (mask : list bool) (v : list float) : list float :=
  zip_with (λ (m : bool) x, if m then zero else x) mask v.

(** A stable insertion sort of the indices: the reference instance of
    [np.argsort] on which examples are run. *)
Fixpoint insert_index (v : list float) (i : nat) (sorted : list nat) : list nat :=
  match sorted with
  | [] => [i]
  | j :: rest =>
      if less (item v i) (item v j) then i :: j :: rest
      else j :: insert_index v i rest
  end.

Definition argsort (v : list float) : list nat :=
  foldl (λ acc i, insert_index v i acc) [] (seq 0 (length v)).

(** A sort of numpy's default [kind='quicksort'], after [aquicksort] of
    numpy's npysort: while a range has more than [SMALL_QUICKSORT] entries it
    is split around the median of its first, middle and last key; short
    ranges are finished by insertion.  It is not stable.  [tosort] is the
    index array being permuted. *)
Definition SMALL_QUICKSORT : nat := 16.

Definition get (tosort : list nat) (i : nat) : nat := nth i tosort 0.

Definition swap (tosort : list nat) (i j : nat) : list nat :=
  <[i := get tosort j]> (<[j := get tosort i]> tosort).

(** Swap the entries at [a] and [b] when the key of the first is less. *)
Definition swap_if_less (v : list float) (tosort : list nat) (a b : nat) : list nat :=
  if less (item v (get tosort a)) (item v (get tosort b)) then swap tosort a b
  else tosort.

(** [do ++pi; while (key at pi < vp)] *)
Fixpoint scan_up (v : list float) (tosort : list nat) (vp : float)
    (pi fuel : nat) : nat :=
  match fuel with
  | 0 => S pi
  | S fuel' =>
      if less (item v (get tosort (S pi))) vp then scan_up v tosort vp (S pi) fuel'
      else S pi
  end.

(** [do --pj; while (vp < key at pj)] *)
Fixpoint scan_down (v : list float) (tosort : list nat) (vp : float)
    (pj fuel : nat) : nat :=
  match fuel with
  | 0 => pred pj
  | S fuel' =>
      if less vp (item v (get tosort (pred pj))) then scan_down v tosort vp (pred pj) fuel'
      else pred pj
  end.

(** The [for (;;)] loop of the partition; returns the array and [pi]. *)
Fixpoint partition_loop (v : list float) (vp : float) (fuel : nat)
    (tosort : list nat) (pi pj : nat) : list nat * nat :=
  let pi' := scan_up v tosort vp pi (length tosort) in
  let pj' := scan_down v tosort vp pj (length tosort) in
  match fuel with
  | 0 => (tosort, pi')
  | S fuel' =>
      if pj' <=? pi' then (tosort, pi')
      else partition_loop v vp fuel' (swap tosort pi' pj') pi' pj'
  end.

(** The insertion loop on [tosort[pl..pr]]: each entry moves left past
    the entries whose key is greater. *)
Fixpoint insert_from_right (v : list float) (vi : nat) (rev_sorted : list nat) : list nat :=
  match rev_sorted with
  | [] => [vi]
  | k :: rest =>
      if less (item v vi) (item v k) then k :: insert_from_right v vi rest
      else vi :: k :: rest
  end.

Definition insertion_range (v : list float) (tosort : list nat) (pl pr : nat) : list nat :=
  let segment := take (S pr - pl) (drop pl tosort) in
  let sorted := reverse (foldl (λ acc vi, insert_from_right v vi acc) [] segment) in
  take pl tosort ++ sorted ++ drop (S pr) tosort.

(** [depth] is numpy's [cdepth]; a range that uses it up is finished by
    numpy with a heap sort, here with the insertion loop. *)
Fixpoint sort_range (depth : nat) (v : list float) (tosort : list nat)
    (pl pr : nat) : list nat :=
  match depth with
  | 0 => insertion_range v tosort pl pr
  | S depth' =>
      if SMALL_QUICKSORT <? pr - pl then
        let pm := pl + (pr - pl) / 2 in
        let t := swap_if_less v tosort pm pl in
        let t := swap_if_less v t pr pm in
        let t := swap_if_less v t pm pl in
        let vp := item v (get t pm) in
        let t := swap t pm (pr - 1) in
        let '(t, pi) := partition_loop v vp (length t) t pl (pr - 1) in
        let t := swap t pi (pr - 1) in
        let t := sort_range depth' v t pl (pi - 1) in
        sort_range depth' v t (pi + 1) pr
      else insertion_range v tosort pl pr
  end.

Definition argsort_quicksort (v : list float) : list nat :=
  let n := length v in
  sort_range (2 * Nat.log2 n) v (seq 0 n) 0 (n - 1).

End Np.

(** [Np.less] read on the IEEE data of its arguments, and the rank that
    orders them: negative numbers, zeros, positive numbers, NaN last. *)
Definition sf_less (x y : spec_float) : bool :=
  SFltb x y || (SFeqb x x && negb (SFeqb y y)).

Definition sf_rank (x : spec_float) : Z * Z * Z :=
  match x with
  | S754_nan => (3, 0, 0)
  | S754_infinity false => (2, 0, 0)
  | S754_infinity true => (-2, 0, 0)
  | S754_zero _ => (0, 0, 0)
  | S754_finite false m e => (1, e, Z.pos m)
  | S754_finite true m e => (-1, - e, Z.neg m)
  end%Z.

Definition lex_lt (a b : Z * Z * Z) : Prop :=
  (a.1.1 < b.1.1 ∨ (a.1.1 = b.1.1 ∧ (a.1.2 < b.1.2 ∨ (a.1.2 = b.1.2 ∧ a.2 < b.2))))%Z.

(** ** The store of numpy arrays *)

Record ndarray : Type := NDArray { shape : list nat; data : list float }.

(** A 1-D array holding [xs]. *)
Definition vector (xs : list float) : ndarray :=
  {| shape := [length xs]; data := xs |}.

Definition loc := positive.
Abbreviation heap := (gmap loc ndarray).

(** ** [convert_spacy_ner_logits_to_valid_logits] *)

Section LogitMasking.

(** [np.argsort] with its default [kind]: numpy leaves the order of equal
    keys to the algorithm, so the sort is a parameter. *)
Variable argsort : list float → list nat.

(** The descending ordering the code works with
    ([argsorted_sample_logits]). *)
Definition order (v : list float) : list nat := Np.flip (argsort v).

(** Lines 39-52 on the contents of the array: the new contents of
    [logits]. *)
Definition valid_logits (logits : list float) (pred : Z) : result (list float) :=
  (* Sort in descending order *)
  let argsorted_sample_logits := Np.flip (argsort logits) in
  k ← Np.where_first argsorted_sample_logits pred;
  let valid_logit_indices := drop k argsorted_sample_logits in
  (* non valid_logit_indices should be set to 0 *)
  zero_out_mask ← Np.clear_at (Np.ones (length logits)) valid_logit_indices;
  Ok (Np.zero_where zero_out_mask logits).

(** The function itself: [logits] is a reference; the array it names is
    overwritten and the same reference is returned.  The store is part of
    the outcome also when an exception is raised. *)
Definition convert_spacy_ner_logits_to_valid_logits
    (logits : loc) (pred : Z) (h : heap) : result loc * heap :=
  match h !! logits with
  | None => (Raise DanglingReference, h)
  | Some a =>
      if length (shape a) =? 1 then          (* assert len(logits.shape) == 1 *)
        match valid_logits (data a) pred with
        | Raise e => (Raise e, h)
        | Ok d => (Ok logits, <[logits := {| shape := shape a; data := d |}]> h)
        end
      else (Raise AssertionError, h)
  end.

End LogitMasking.

(** No other entry of [v] ties with the predicted one. *)
Definition prediction_untied (v : list float) (pred : Z) : bool :=
  forallb (λ i, (Z.of_nat i =? pred)%Z
                || negb (Np.tied (Np.item v i) (Np.item v (Z.to_nat pred))))
          (seq 0 (length v)).

(** Scenario E of the specification, and a constant vector long enough for
    the quicksort to partition it. *)
Definition scenario_E : list float := [5.0; 3.0; 4.0]%float.
Definition scenario_E_masked : list float := [0.0; 3.0; 4.0]%float.
Definition ones18 : list float := replicate 18 1.0%float.


(** ** Python [Enum] classes with string values *)

Section PyEnum.

Context {T : Type}.
(** The members in definition order, and each member's [.value]. *)
Variable members : list T.
Variable value : T → string.

(** [Cls(s)]: the member whose value is [s]; [ValueError] when there is
    none. *)
Definition enum_by_value (s : string) : result T :=
  match find (λ m, String.eqb (value m) s) members with
  | Some m => Ok m
  | None => Raise ValueError
  end.

(** [list(map(lambda x: x.value, Cls))] *)
Definition enum_values : list string := map value members.

(** The [@unique] decorator: the class is rejected with [ValueError] when
    two members share a value. *)
Definition unique : result (list T) :=
  if bool_decide (NoDup enum_values) then Ok members else Raise ValueError.

End PyEnum.

(** [dataquality/schemas/ner.py] *)

Module NERErrorType.
Inductive t : Type :=
  | wrong_tag
  | missed_label
  | span_shift
  | ghost_span
  | none.   (* Indicating that there is no error for this span (correct pred) *)

Definition value (e : t) : string :=
  match e with
  | wrong_tag => "wrong_tag"
  | missed_label => "missed_label"
  | span_shift => "span_shift"
  | ghost_span => "ghost_span"
  | none => "None"
  end.

Definition members : list t := [wrong_tag; missed_label; span_shift; ghost_span; none].

Definition by_value : string → result t := enum_by_value members value.

(** The member that marks a span as a correct prediction. *)
Definition is_error (e : t) : bool :=
  match e with none => false | _ => true end.
End NERErrorType.

Module TaggingSchema.
Inductive t : Type :=
  | BIO
  | BILOU
  | BIOES.
  (* IOB2, IOB and BILOES are commented out in the source *)

Definition value (e : t) : string :=
  match e with
  | BIO => "BIO"
  | BILOU => "BILOU"
  | BIOES => "BIOES"
  end.

Definition members : list t := [BIO; BILOU; BIOES].

Definition by_value : string → result t := enum_by_value members value.
End TaggingSchema.

Module NERColumns.
Inductive t : Type :=
  | id | sample_id | split | epoch | is_gold | is_pred | span_start | span_end
  | gold | pred | data_error_potential | galileo_error_type | emb.

Definition value (c : t) : string :=
  match c with
  | id => "id" | sample_id => "sample_id" | split => "split" | epoch => "epoch"
  | is_gold => "is_gold" | is_pred => "is_pred"
  | span_start => "span_start" | span_end => "span_end"
  | gold => "gold" | pred => "pred"
  | data_error_potential => "data_error_potential"
  | galileo_error_type => "galileo_error_type" | emb => "emb"
  end.

Definition members : list t :=
  [id; sample_id; split; epoch; is_gold; is_pred; span_start; span_end;
   gold; pred; data_error_potential; galileo_error_type; emb].
End NERColumns.

Module SpanErrorRecord.
(** Modelled from the spec: the Span Error Record (section 3), built by code
    that is not in [src/]: one row of the span table whose columns
    [NERColumns] names.  The gold and the predicted label may be absent; the
    error type is a member of [NERErrorType]. *)
Record t : Type := {
  id : Z;
  sample_id : Z;
  split : string;
  epoch : Z;
  is_gold : bool;
  is_pred : bool;
  span_start : nat;
  span_end : nat;
  gold : option string;
  pred : option string;
  data_error_potential : float;
  galileo_error_type : NERErrorType.t;
  emb : list float;
}.
End SpanErrorRecord.

(** ** [dataquality/loggers/model_logger/text_classification.py] *)

Module GalileoModelLoggerAttributes.
Inductive t : Type :=
  | embs | probs | logits | ids
  | split   (* mixin restriction on str (due to "str".split(...)) *)
  | epoch | inference_name.

Definition value (a : t) : string :=
  match a with
  | embs => "embs" | probs => "probs" | logits => "logits" | ids => "ids"
  | split => "split" | epoch => "epoch" | inference_name => "inference_name"
  end.

Definition members : list t := [embs; probs; logits; ids; split; epoch; inference_name].

Definition get_valid : list string := enum_values members value.
End GalileoModelLoggerAttributes.

(** The Python values a logger attribute or a cell of the data dict holds. *)
Inductive pyval : Type :=
  | PyNone
  | PyInt (n : Z)
  | PyStr (s : string)
  | PyInts (ns : list Z)                (* a sequence of ids *)
  | PyVec (xs : list float)             (* one row: a 1-D array *)
  | PyMat (rows : list (list float)).   (* a sequence of rows *)

(** [np.argmax] of a 1-D array: the first maximum, a NaN counting as the
    maximum; [ValueError] on an empty array. *)
Fixpoint argmax_from (mp : float) (max_ind i : nat) (ip : list float) : nat :=
  match ip with
  | [] => max_ind
  | x :: rest =>
      if is_nan mp then max_ind
      else if negb (PrimFloat.leb x mp) then argmax_from x i (S i) rest
      else argmax_from mp max_ind (S i) rest
  end.

Definition np_argmax (ip : list float) : result nat :=
  match ip with
  | [] => Raise ValueError
  | x :: rest => Ok (argmax_from x 0 1 rest)
  end.

Module TextClassificationModelLogger.
Section TextClassificationModelLogger.

(** An instance is its attribute dictionary. *)
Abbreviation instance := (gmap string pyval).

(** Parts of the repository the class uses and [src/] does not hold:
    [__setattr__] of the base class [BaseGalileoModelLogger], the [Split]
    enum ([Split[name].value] and the value of [Split.inference]) and
    [__data_schema_version__]. *)
Variable base_setattr : string → pyval → instance → result instance.
Variable Split_by_name : string → option string.
Variable Split_inference : string.
Variable data_schema_version : Z.

Definition get_valid_attributes : list string :=
  GalileoModelLoggerAttributes.get_valid.

(** [self.key = value].  [Raise] leaves the instance as it was. *)
Definition __setattr__ (key : string) (value : pyval) (self : instance)
    : result instance :=
  if bool_decide (key ∉ get_valid_attributes) then Raise AttributeError
  else base_setattr key value self.

(** A run of assignments [self.k1 = v1; self.k2 = v2; ...], as [__init__]
    or any later code performs. *)
Fixpoint assign_all (assignments : list (string * pyval)) (self : instance)
    : result instance :=
  match assignments with
  | [] => Ok self
  | (key, value) :: rest => self' ← __setattr__ key value self; assign_all rest self'
  end.

Definition getattr (self : instance) (name : string) : result pyval :=
  match self !! name with
  | Some v => Ok v
  | None => Raise AttributeError
  end.

Definition as_ints (v : pyval) : result (list Z) :=
  match v with PyInts ns => Ok ns | _ => Raise TypeError end.
Definition as_rows (v : pyval) : result (list (list float)) :=
  match v with PyMat rows => Ok rows | _ => Raise TypeError end.
Definition as_str (v : pyval) : result string :=
  match v with PyStr s => Ok s | _ => Raise TypeError end.

(** [zip(self.ids, self.probs, self.embs)] *)
Fixpoint zip3 {A B C} (l1 : list A) (l2 : list B) (l3 : list C) : list (A * B * C) :=
  match l1, l2, l3 with
  | a :: l1', b :: l2', c :: l3' => (a, b, c) :: zip3 l1' l2' l3'
  | _, _, _ => []
  end.

(** The [record] dict of one row, keys in insertion order. *)
Definition make_record (self : instance) (record_id : Z) (prob emb : list float)
    : result (list (string * pyval)) :=
  (* Handle binary classification by making it 2-class classification *)
  let p := match prob with
           | [prob0] => [prob0; PrimFloat.sub 1 prob0]
           | _ => prob
           end in
  epoch ← getattr self "epoch";
  split ← getattr self "split" ≫= as_str;
  split_value ← match Split_by_name split with
                | Some v => Ok v
                | None => Raise KeyError
                end;
  pred ← np_argmax prob;
  let record := [("id", PyInt record_id); ("epoch", epoch);
                 ("split", PyStr split_value); ("emb", PyVec emb);
                 ("prob", PyVec p); ("pred", PyInt (Z.of_nat pred));
                 ("data_schema_version", PyInt data_schema_version)]%string in
  if String.eqb split Split_inference then
    inference_name ← getattr self "inference_name";
    Ok (record ++ [("inference_name"%string, inference_name)])
  else Ok record.

(** [for k in record.keys(): data[k].append(record[k])] on a
    [defaultdict(list)]. *)
Definition append_record (data : gmap string (list pyval))
    (record : list (string * pyval)) : gmap string (list pyval) :=
  foldl (λ d kv, <[kv.1 := default [] (d !! kv.1) ++ [kv.2]]> d) data record.

Fixpoint add_rows (self : instance) (rows : list (Z * list float * list float))
    (data : gmap string (list pyval)) : result (gmap string (list pyval)) :=
  match rows with
  | [] => Ok data
  | (record_id, prob, emb) :: rest =>
      record ← make_record self record_id prob emb;
      add_rows self rest (append_record data record)
  end.

Definition _get_data_dict (self : instance) : result (gmap string (list pyval)) :=
  ids ← getattr self "ids" ≫= as_ints;
  probs ← getattr self "probs" ≫= as_rows;
  embs ← getattr self "embs" ≫= as_rows;
  add_rows self (zip3 ids probs embs) ∅.

End TextClassificationModelLogger.
End TextClassificationModelLogger.

(** The [prob] cell of a row: a single probability becomes two classes. *)
Definition prob_cell (prob : list float) : pyval :=
  PyVec match prob with
        | [prob0] => [prob0; PrimFloat.sub 1 prob0]
        | _ => prob
        end.

(** The list a data dict holds under a key ([[]] when it has none). *)
Definition column (data : gmap string (list pyval)) (k : string) : list pyval :=
  default [] (data !! k).

(** ** Components known from the specification only *)

(** Modelled from the spec: the scheme check of the Tagging Scheme Codec
    (4.5), whose code is not in [src/]: a scheme value is accepted when it is
    the value of a [TaggingSchema] member, any other is refused with
    [UnsupportedSchemeError]. *)
Definition codec_scheme (scheme : string) : result TaggingSchema.t :=
  match TaggingSchema.by_value scheme with
  | Ok t => Ok t
  | Raise _ => Raise UnsupportedSchemeError
  end.

(** [f] on every element, stopping at the first failure. *)
Fixpoint mapM_result {A B} (f : A → result B) (l : list A) : result (list B) :=
  match l with
  | [] => Ok []
  | a :: rest => b ← f a; bs ← mapM_result f rest; Ok (b :: bs)
  end.

(** Modelled from the spec: the tokenizer's [padding_side] (section 6). *)
Inductive padding_side : Type := PadLeft | PadRight.

Section TokenProbabilityExtractor.

(** The exponential and the logarithm on binary64, the decode capability
    (section 6), the expected vocabulary size and the constant K. *)
Variable fexp fln : float → float.
Variable decode : nat → string.
Variable vocab_size : nat.
Variable TOP_K : nat.

(** Modelled from the spec: the row maximum of [log_softmax] (4.1). *)
Definition fmax (a b : float) : float := if PrimFloat.ltb a b then b else a.

(** Modelled from the spec: [log_softmax] of the Numeric Utilities (4.1),
    whose code is not in [src/]: stable (the row maximum is subtracted
    before exponentiating), [InvalidInputError] on empty input. *)
Definition log_softmax (logits : list float) : result (list float) :=
  match logits with
  | [] => Raise InvalidInputError
  | x :: rest =>
      let m := foldl fmax x rest in
      let total := foldl (λ acc y, PrimFloat.add acc (fexp (PrimFloat.sub y m))) zero logits in
      Ok (map (λ y, PrimFloat.sub (PrimFloat.sub y m) (fln total)) logits)
  end.

(** Modelled from the spec: the ranking behind [top_k] (4.1): a candidate
    goes before the first one of smaller value, so after those it ties with. *)
Fixpoint insert_candidate (c : nat * float) (ranked : list (nat * float))
    : list (nat * float) :=
  match ranked with
  | [] => [c]
  | d :: rest =>
      if PrimFloat.ltb d.2 c.2 then c :: d :: rest
      else d :: insert_candidate c rest
  end.

(** Modelled from the spec: [top_k] of the Numeric Utilities (4.1), whose
    code is not in [src/]: the [k] largest values with their indices, ties
    going to the lower index, all entries when there are fewer than [k]. *)
Definition top_k (log_probs : list float) (k : nat) : list (nat * float) :=
  take k (foldl (λ ranked c, insert_candidate c ranked) []
                (zip (seq 0 (length log_probs)) log_probs)).

(** Modelled from the spec: the positions of a row that hold tokens (4.3):
    the first [n] under right padding, the last [n] under left padding. *)
Definition remove_padding {A} (side : padding_side) (n : nat) (row : list A) : list A :=
  match side with
  | PadRight => take n row
  | PadLeft => drop (length row - n) row
  end.

(** Modelled from the spec: one position of the extractor (4.3): the
    log-probability of the true token and the top-K candidates in string
    form; [ShapeMismatchError] on a wrong vocabulary size or token id. *)
Definition token_logprob (logits : list float) (token : nat)
    : result (float * list (string * float)) :=
  if negb (length logits =? vocab_size) then Raise ShapeMismatchError
  else if negb (token <? vocab_size) then Raise ShapeMismatchError
  else
    log_probs ← log_softmax logits;
    Ok (nth token log_probs nan,
        map (λ c, (decode c.1, c.2)) (top_k log_probs TOP_K)).

(** Modelled from the spec: the Token Probability Extractor (4.3) on one
    row, whose code is not in [src/].  The true length is the length of the
    row's token ids; a row with fewer positions than that, which the
    specification leaves open, is refused. *)
Definition extract_row (side : padding_side) (logits : list (list float))
    (token_ids : list nat) : result (list float * list (list (string * float))) :=
  let true_length := length token_ids in
  if length logits <? true_length then Raise ShapeMismatchError
  else
    per_token ← mapM_result (λ lt, token_logprob lt.1 lt.2)
                   (zip (remove_padding side true_length logits) token_ids);
    Ok (map fst per_token, map snd per_token).

End TokenProbabilityExtractor.

Section BatchedGenerationDriver.

(** Input rows, result rows, and the generation capability with whatever
    state it keeps between calls. *)
Context {Row Out G : Type}.
Variable generate_on_batch : G → list Row → result (list Out) * G.
Variable GENERATION_BATCH_SIZE : nat.

(** Modelled from the spec: the contiguous batches of the driver (4.4), the
    slices [rows[k*B : (k+1)*B]]. *)
Definition batches (rows : list Row) : list (list Row) :=
  let n := length rows in
  let num_batches := (n + GENERATION_BATCH_SIZE - 1) / GENERATION_BATCH_SIZE in
  map (λ k, take GENERATION_BATCH_SIZE (drop (k * GENERATION_BATCH_SIZE) rows))
      (seq 0 num_batches).

(** Modelled from the spec: the driver's loop (4.4).  The batches are
    generated one after the other, each on the state the previous one left;
    a failing batch aborts the call with [GenerationBatchError] and its row
    range, and what earlier batches produced is dropped. *)
Fixpoint run_batches (g : G) (start : nat) (bs : list (list Row))
    : result (list Out) * G :=
  match bs with
  | [] => (Ok [], g)
  | b :: rest =>
      match generate_on_batch g b with
      | (Raise _, g') => (Raise (GenerationBatchError start (start + length b)), g')
      | (Ok out, g') =>
          match run_batches g' (start + length b) rest with
          | (Ok outs, g'') => (Ok (out ++ outs), g'')
          | (Raise e, g'') => (Raise e, g'')
          end
      end
  end.

(** Modelled from the spec: the batching of the Batched Generation Driver
    (4.4), whose code ([add_generated_output_to_df]) is not in [src/]. *)
Definition add_generated_output (g : G) (rows : list Row) : result (list Out) * G :=
  run_batches g 0 (batches rows).

End BatchedGenerationDriver.

(** ** [convert_spacy_ents_for_doc_to_predictions] *)

(** [labels.index(x)]: the first position of [x]; [ValueError] when [x] is
    not in the list. *)
Fixpoint list_index (labels : list string) (x : string) : result nat :=
  match labels with
  | [] => Raise ValueError
  | y :: rest => if String.eqb y x then Ok 0 else S <$> list_index rest x
  end.

(** An entity of a spaCy [Doc]. *)
Record Ent : Type := { start_char : nat; end_char : nat; label_ : string }.

Section SpacyEnts.

(** spaCy's [Doc], its [ents], and [spacy.training.offsets_to_biluo_tags]. *)
Context {Doc : Type}.
Variable ents : Doc → list Ent.
Variable offsets_to_biluo_tags : Doc → list (nat * nat * string) → result (list string).

Definition convert_spacy_ents_for_doc_to_predictions
    (docs : list Doc) (labels : list string) : result (list (list nat)) :=
  mapM_result
    (λ doc,
       pred_output ← offsets_to_biluo_tags doc
                       (map (λ ent, (start_char ent, end_char ent, label_ ent)) (ents doc));
       mapM_result (λ tok_pred, list_index labels tok_pred) pred_output)
    docs.

End SpacyEnts.

(** ** [TextClassificationModelLogger]: the rest of the class *)

(** [len(x)] *)
Definition py_len (v : pyval) : result nat :=
  match v with
  | PyStr s => Ok (String.length s)
  | PyInts ns => Ok (length ns)
  | PyVec xs => Ok (length xs)
  | PyMat rows => Ok (length rows)
  | PyNone | PyInt _ => Raise TypeError
  end.

(** The fields of [text_classification_logger_config] the class touches. *)
Record LoggerConfig : Type := {
  last_epoch : Z;
  observed_num_labels : nat;
}.

(** [data] is the [defaultdict(list)] that [_get_data_dict] returns: a key
    it lacks reads as the empty list, whose first element does not exist. *)
Definition _set_num_labels (logger_config : LoggerConfig)
    (data : gmap string (list pyval)) : result LoggerConfig :=
  match column data "prob" !! 0 with
  | None => Raise IndexError
  | Some prob0 =>
      n ← py_len prob0;
      Ok {| last_epoch := last_epoch logger_config; observed_num_labels := n |}
  end.

Section WriteModelOutput.

(** [write_model_output] of the base class, not in [src/], with whatever it
    writes to. *)
Context {Out : Type}.
Variable base_write_model_output : gmap string (list pyval) → Out → result Out.

(** The outcome comes with the logger config: what [_set_num_labels] stored
    stays when the base class raises. *)
Definition write_model_output (logger_config : LoggerConfig) (out : Out)
    (model_output : gmap string (list pyval)) : result Out * LoggerConfig :=
  match _set_num_labels logger_config model_output with
  | Raise e => (Raise e, logger_config)
  | Ok logger_config' => (base_write_model_output model_output out, logger_config')
  end.

End WriteModelOutput.

(** The cell a row of the logger contributes to the data dict under each
    key, given the epoch, the split value, the inference name when there is
    one, and the row's prediction. *)
Definition cell_of (data_schema_version : Z) (e : pyval) (sv : string) (inference_name : option pyval)
    (row : Z * list float * list float) (n : nat) (k : string) : option pyval :=
  if String.eqb k "id" then Some (PyInt row.1.1)
  else if String.eqb k "epoch" then Some e
  else if String.eqb k "split" then Some (PyStr sv)
  else if String.eqb k "emb" then Some (PyVec row.2)
  else if String.eqb k "prob" then Some (prob_cell row.1.2)
  else if String.eqb k "pred" then Some (PyInt (Z.of_nat n))
  else if String.eqb k "data_schema_version" then Some (PyInt data_schema_version)
  else if String.eqb k "inference_name" then inference_name
  else None.

(** ** Programs on a state that may raise *)

(** The state is part of the outcome also when an exception is raised: what
    was written before the exception stays written. *)
Definition prog (St A : Type) : Type := St → result A * St.

Definition pret {St A} (a : A) : prog St A := λ s, (Ok a, s).

Definition pbind {St A B} (c : prog St A) (k : A → prog St B) : prog St B :=
  λ s, match c s with
       | (Ok a, s') => k a s'
       | (Raise e, s') => (Raise e, s')
       end.

Definition praise {St A} (e : exn) : prog St A := λ s, (Raise e, s).

(** A computation that does not touch the state. *)
Definition plift {St A} (r : result A) : prog St A := λ s, (r, s).

(** [try: c except E: h], for the exceptions [E] that [handles] accepts. *)
Definition pcatch {St A} (c : prog St A) (handles : exn → bool) (h : prog St A)
    : prog St A :=
  λ s, match c s with
       | (Raise e, s') => if handles e then h s' else (Raise e, s')
       | outcome => outcome
       end.

(** [assert b] *)
Definition passert {St} (b : bool) : prog St unit :=
  if b then pret tt else praise AssertionError.

Notation "x ←ₚ c ; k" := (pbind c (λ x, k))
  (at level 20, c at level 100, k at level 200, right associativity,
   format "x  ←ₚ  c ;  '/' k").
Notation "c ;ₚ k" := (pbind c (λ _, k))
  (at level 100, k at level 200, right associativity).

(** A relation between the state before and the state after that a program
    keeps, however it ends. *)
Definition preserves {St A} (R : St → St → Prop) (c : prog St A) : Prop :=
  ∀ s, R s (c s).2.

(** The exceptions a program can end in. *)
Definition raises_within {St A} (E : exn → Prop) (c : prog St A) : Prop :=
  ∀ s e s', c s = (Raise e, s') → E e.

(** ** [TextClassificationModelLogger.validate] *)

(** Where a list and an array behave differently, [PyInts] is read as a
    Python list and [PyVec], [PyMat] as numpy arrays of one and two
    dimensions. *)

(** [x.ndim] *)
Definition py_ndim (v : pyval) : result nat :=
  match v with
  | PyVec _ => Ok 1
  | PyMat _ => Ok 2
  | PyNone | PyInt _ | PyStr _ | PyInts _ => Raise AttributeError
  end.

(** The truth value of a float: everything but the two zeros. *)
Definition float_truthy (x : float) : bool := negb (PrimFloat.eqb x zero).

(** The truth value of an array: that of its element when it has one, false
    when it has none, [ValueError] when it has several. *)
Definition array_truthy (elements : list float) : result bool :=
  match elements with
  | [] => Ok false
  | [x] => Ok (float_truthy x)
  | _ => Raise ValueError
  end.

(** [bool(x)], as [if x:] takes it. *)
Definition py_truthy (v : pyval) : result bool :=
  match v with
  | PyNone => Ok false
  | PyInt n => Ok (negb (n =? 0)%Z)
  | PyStr s => Ok (negb (String.eqb s ""))
  | PyInts ns => Ok (negb (length ns =? 0))
  | PyVec xs => array_truthy xs
  | PyMat rows => array_truthy (concat rows)
  end.

(** [isinstance(x, int)] *)
Definition py_is_int (v : pyval) : bool :=
  match v with PyInt _ => true | _ => false end.

Definition is_KeyError (e : exn) : bool :=
  match e with KeyError => true | _ => false end.

(** What [validate] works on: the instance, the logger config shared by the
    loggers of the task, and the warnings issued so far. *)
Record ValidateState : Type := {
  vs_self : gmap string pyval;
  vs_logger_config : LoggerConfig;
  vs_warnings : list string;
}.

Section Validate.

(** Parts of the repository [validate] uses and [src/] does not hold:
    [__setattr__], [_convert_tensor_ndarray] and [convert_logits_to_probs]
    of the base class, and the [Split] enum. *)
Variable base_setattr : string → pyval → gmap string pyval → result (gmap string pyval).
Variable _convert_tensor_ndarray : pyval → option string → result pyval.
Variable convert_logits_to_probs : pyval → result pyval.
Variable Split_by_name : string → option string.

(** [self.name] *)
Definition read_attr (name : string) : prog ValidateState pyval :=
  λ s, (TextClassificationModelLogger.getattr (vs_self s) name, s).

(** [self.name = value] *)
Definition write_attr (name : string) (value : pyval) : prog ValidateState unit :=
  λ s, match TextClassificationModelLogger.__setattr__ base_setattr name value (vs_self s) with
       | Ok self' => (Ok tt, {| vs_self := self'; vs_logger_config := vs_logger_config s;
                                vs_warnings := vs_warnings s |})
       | Raise e => (Raise e, s)
       end.

(** [del self.name] *)
Definition del_attr (name : string) : prog ValidateState unit :=
  λ s, match vs_self s !! name with
       | Some _ => (Ok tt, {| vs_self := delete name (vs_self s);
                              vs_logger_config := vs_logger_config s;
                              vs_warnings := vs_warnings s |})
       | None => (Raise AttributeError, s)
       end.

(** [warnings.warn(message)] *)
Definition warn (message : string) : prog ValidateState unit :=
  λ s, (Ok tt, {| vs_self := vs_self s; vs_logger_config := vs_logger_config s;
                  vs_warnings := vs_warnings s ++ [message] |}).

(** [get_stdout_logger().info(..., split=self.split)]: the logging itself is
    left out, the read of [self.split] is not. *)
Definition log_with_split : prog ValidateState unit :=
  read_attr "split" ;ₚ pret tt.

(** [Split[x]]: a string is looked up by name; any other hashable value is
    no name ([KeyError]); a list or an array cannot be hashed ([TypeError]). *)
Definition Split_getitem (x : pyval) : result string :=
  match x with
  | PyStr name =>
      match Split_by_name name with
      | Some value => Ok value
      | None => Raise KeyError
      end
  | PyNone | PyInt _ => Raise KeyError
  | PyInts _ | PyVec _ | PyMat _ => Raise TypeError
  end.

(** [self.logger_config.last_epoch = epoch] when [epoch] is greater. *)
Definition update_last_epoch (epoch : Z) : prog ValidateState unit :=
  λ s, if (last_epoch (vs_logger_config s) <? epoch)%Z
       then (Ok tt, {| vs_self := vs_self s;
                       vs_logger_config :=
                         {| last_epoch := epoch;
                            observed_num_labels := observed_num_labels (vs_logger_config s) |};
                       vs_warnings := vs_warnings s |})
       else (Ok tt, s).

Definition validate : prog ValidateState unit :=
  log_with_split ;ₚ
  logits ←ₚ read_attr "logits";
  logits_len ←ₚ plift (py_len logits);
  (if negb (logits_len =? 0) then
     logits ←ₚ read_attr "logits";
     array ←ₚ plift (_convert_tensor_ndarray logits (Some "Prob"%string));
     write_attr "logits" array ;ₚ
     logits ←ₚ read_attr "logits";
     probs ←ₚ plift (convert_logits_to_probs logits);
     write_attr "probs" probs ;ₚ
     del_attr "logits"
   else
     probs ←ₚ read_attr "probs";
     probs_len ←ₚ plift (py_len probs);
     if negb (probs_len =? 0) then
       warn "Usage of probs is deprecated, use logits instead" ;ₚ
       probs ←ₚ read_attr "probs";
       array ←ₚ plift (_convert_tensor_ndarray probs (Some "Prob"%string));
       write_attr "probs" array
     else pret tt) ;ₚ
  embs ←ₚ read_attr "embs";
  embs_len ←ₚ plift (py_len embs);
  probs ←ₚ read_attr "probs";
  probs_len ←ₚ plift (py_len probs);
  ids ←ₚ read_attr "ids";
  ids_len ←ₚ plift (py_len ids);
  log_with_split ;ₚ
  embs ←ₚ read_attr "embs";
  array ←ₚ plift (_convert_tensor_ndarray embs (Some "Embedding"%string));
  write_attr "embs" array ;ₚ
  ids ←ₚ read_attr "ids";
  array ←ₚ plift (_convert_tensor_ndarray ids None);
  write_attr "ids" array ;ₚ
  log_with_split ;ₚ
  embs ←ₚ read_attr "embs";
  ndim ←ₚ plift (py_ndim embs);
  passert (ndim =? 2) ;ₚ
  passert (negb (embs_len =? 0) && negb (probs_len =? 0) && negb (ids_len =? 0)) ;ₚ
  passert ((embs_len =? probs_len) && (probs_len =? ids_len)) ;ₚ
  (* User may manually pass in 'train' instead of 'training' / 'test' vs 'testing'
     but we want it to conform *)
  pcatch
    (split ←ₚ read_attr "split";
     value ←ₚ plift (Split_getitem split);
     write_attr "split" (PyStr value))
    is_KeyError
    (log_with_split ;ₚ praise AssertionError) ;ₚ
  epoch ←ₚ read_attr "epoch";
  epoch_set ←ₚ plift (py_truthy epoch);
  if epoch_set : bool then
    epoch ←ₚ read_attr "epoch";
    passert (py_is_int epoch) ;ₚ
    epoch ←ₚ read_attr "epoch";
    match epoch with
    | PyInt n => update_last_epoch n
    | _ => praise TypeError
    end
  else pret tt.

End Validate.

(** What [validate] may change: the last epoch only upwards, the warnings
    only by adding to them, and no attribute besides the five it assigns. *)
Definition validate_frame (s s' : ValidateState) : Prop :=
  (last_epoch (vs_logger_config s) ≤ last_epoch (vs_logger_config s'))%Z ∧
  observed_num_labels (vs_logger_config s') = observed_num_labels (vs_logger_config s) ∧
  vs_warnings s `prefix_of` vs_warnings s' ∧
  ∀ k : string, k ∉ ["logits"; "probs"; "embs"; "ids"; "split"]%string →
    vs_self s' !! k = vs_self s !! k.


(** A small logger on which the theorems about the data dict are run: two
    ids, one single-probability row, so that the second id is dropped. *)
Definition example_Split (name : string) : option string :=
  if String.eqb name "train" then Some "training"%string
  else if String.eqb name "inference" then Some "inference"%string
  else None.

Definition example_logger : gmap string pyval :=
  {[ "ids"%string := PyInts [7%Z; 8%Z]; "probs"%string := PyMat [[0.25%float]];
     "embs"%string := PyMat [[1.0%float]; [2.0%float]];
     "epoch"%string := PyInt 3; "split"%string := PyStr "train" ]}.

Definition example_data : gmap string (list pyval) :=
  Eval vm_compute in
    match TextClassificationModelLogger._get_data_dict example_Split "inference" 1
            example_logger with
    | Ok data => data
    | Raise _ => ∅
    end.

(** The exceptions of [validate]: the four it raises itself, and whatever
    the two converters of the base class raise. *)
Definition validate_raises
    (_convert_tensor_ndarray : pyval → option string → result pyval)
    (convert_logits_to_probs : pyval → result pyval) (e : exn) : Prop :=
  e ∈ [AttributeError; TypeError; ValueError; AssertionError] ∨
  (∃ x attr, _convert_tensor_ndarray x attr = Raise e) ∨
  (∃ x, convert_logits_to_probs x = Raise e).

(** A base class that stores what it is given and converters that return
    their argument, for running [validate] on an example. *)
Definition example_base_setattr (k : string) (v : pyval) (o : gmap string pyval)
    : result (gmap string pyval) := Ok (<[k := v]> o).
Definition example_convert_tensor_ndarray (x : pyval) (attr : option string)
    : result pyval := Ok x.
Definition example_convert_logits_to_probs (x : pyval) : result pyval := Ok x.

Definition example_validate : prog ValidateState unit :=
  validate example_base_setattr example_convert_tensor_ndarray
    example_convert_logits_to_probs example_Split.

(** One row logged with logits, in epoch 3 of the training split. *)
Definition example_with_logits : ValidateState :=
  {| vs_self := {[ "logits"%string := PyMat [[0.5; 1.5]]%float; "probs" := PyInts [];
                   "embs" := PyMat [[1.0]]%float; "ids" := PyInts [7%Z];
                   "split" := PyStr "train"; "epoch" := PyInt 3%Z ]};
     vs_logger_config := {| last_epoch := 1; observed_num_labels := 0 |};
     vs_warnings := [] |}.

(** The same row logged with probs and no logits. *)
Definition example_with_probs : ValidateState :=
  {| vs_self := {[ "logits"%string := PyInts []; "probs" := PyMat [[0.25; 0.75]]%float;
                   "embs" := PyMat [[1.0]]%float; "ids" := PyInts [7%Z];
                   "split" := PyStr "train"; "epoch" := PyInt 3%Z ]};
     vs_logger_config := {| last_epoch := 1; observed_num_labels := 0 |};
     vs_warnings := [] |}.

(** The row logged on a split that [Split] does not know. *)
Definition example_with_bad_split : ValidateState :=
  {| vs_self := {[ "logits"%string := PyMat [[0.5; 1.5]]%float; "probs" := PyInts [];
                   "embs" := PyMat [[1.0]]%float; "ids" := PyInts [7%Z];
                   "split" := PyStr "holdout"; "epoch" := PyInt 3%Z ]};
     vs_logger_config := {| last_epoch := 1; observed_num_labels := 0 |};
     vs_warnings := [] |}.

Definition example_logits_validated : ValidateState :=
  Eval vm_compute in (example_validate example_with_logits).2.
Definition example_probs_validated : ValidateState :=
  Eval vm_compute in (example_validate example_with_probs).2.
Definition example_bad_split_rejected : ValidateState :=
  Eval vm_compute in (example_validate example_with_bad_split).2.

(** ** [dataquality.core.finish] *)

(** [try: c except Exception as e: h e] *)
Definition ptry {St A} (c : prog St A) (h : exn → prog St A) : prog St A :=
  λ s, match c s with
       | (Raise e, s') => h e s'
       | outcome => outcome
       end.

(** [d[k]] on a dict *)
Definition dict_getitem {V} (d : gmap string V) (k : string) : result V :=
  match d !! k with
  | Some v => Ok v
  | None => Raise KeyError
  end.

(** [str(x)], and [x] inside an f-string, for an optional id. *)
Definition py_str (x : option string) : string := default "None"%string x.

Module Finish.
Section Finish.

(** The state of everything outside the module (the config, the loggers, the
    server, the file system), the values the module only passes on, and the
    members of two enums that [src/] does not hold. *)
Context {W Value JobName TaskType : Type}.

(** What the module reads from the config and the loggers.  An id or a task
    type that is set is true; [conditions] is [[]] also when it is [None],
    [helper_data] is empty also when it is [None]: the module only tests
    them for truth before using them.  The values of a response dict that the
    module reads are strings. *)
Record Snapshot : Type := {
  current_project_id : option string;
  current_run_id : option string;
  task_type : option TaskType;
  api_url : string;
  labels : Value;
  tasks : Value;
  ner_labels : Value;
  feature_names : Value;
  inference_logged : bool;
  conditions : list Value;
  report_emails : Value;
  helper_data : gmap string Value;
  LOG_FILE_DIR : string;
}.

(** The [body] dict of the job request; the last two keys are there only
    after [body.update]. *)
Record JobBody : Type := {
  body_project_id : string;
  body_run_id : string;
  body_labels : Value;
  body_task_type : Value;
  body_tasks : Value;
  body_ner_labels : Value;
  body_feature_names : Value;
  body_job_name : option JobName;
  body_non_inference_logged : option bool;
}.

(** The calls that leave the module. *)
Inductive call : Type :=
  | LogFunction (name : string)                 (* a.log_function *)
  | GpuAvailable
  | WaitForThreads                              (* ThreadPoolManager.wait_for_threads *)
  | GetDataLogger                               (* dataquality.get_data_logger *)
  | ValidateLabels                              (* data_logger.validate_labels *)
  | NonInferenceLogged                          (* data_logger.non_inference_logged *)
  | ApiResetRun (project_id run_id : option string) (task_type : option TaskType)
  | OsRename (src dst : string)
  | UpdateFileConfig                            (* config.update_file_config *)
  | LoggerConfigFinish                          (* data_logger.logger_config.finish *)
  | Upload (last_epoch : option Z) (create_data_embs : bool) (data_embs_col : string)
  | UploadDqLogFile
  | MakeRequestPost (url : string) (body : JobBody)
  | Print (message : string)
  | GetModelLogger
  | UploadModelToDq (model model_parameters model_kind : Value)
  | ApiWaitForRun (project_name run_name : option string)
  | ApiGetRunStatus (project_name run_name : option string)
  | BuildRunReport (conditions : list Value) (report_emails : Value)
      (project_id run_id : option string) (link : string)
  | CleanupDataLogger                           (* data_logger._cleanup *)
  | CleanupModelLogger.                         (* get_model_logger()._cleanup *)

(** What a call returns: a truth value, a response dict, or nothing the
    module looks at. *)
Definition response (c : call) : Type :=
  match c with
  | GpuAvailable | NonInferenceLogged => bool
  | MakeRequestPost _ _ => gmap string string
  | ApiGetRunStatus _ _ => gmap string Value
  | _ => unit
  end.

(** A run of the module: the outside world and the calls made so far. *)
Record Run : Type := {
  world : W;
  calls : list call;
}.

(** The calls the upload of the model is made of. *)
Definition is_model_upload_call (c : call) : bool :=
  match c with
  | GetModelLogger | UploadModelToDq _ _ _ | Print _ => true
  | _ => false
  end.

Definition is_wait_call (c : call) : bool :=
  match c with ApiWaitForRun _ _ => true | _ => false end.

Definition is_report_call (c : call) : bool :=
  match c with BuildRunReport _ _ _ _ _ => true | _ => false end.

Definition is_request_call (c : call) : bool :=
  match c with MakeRequestPost _ _ => true | _ => false end.

(** The calls [_reset_run] is made of, apart from [get_data_logger]. *)
Definition is_reset_call (c : call) : bool :=
  match c with
  | ApiResetRun _ _ _ | OsRename _ _ | UpdateFileConfig => true
  | _ => false
  end.

Definition is_upload_model_to_dq (c : call) : bool :=
  match c with UploadModelToDq _ _ _ => true | _ => false end.

(** From [s] to [s'] the run has made calls, all of them in [P]. *)
Definition only_calls (P : call → bool) (s s' : Run) : Prop :=
  ∃ new, calls s' = calls s ++ new ∧ Forall (λ c, P c = true) new.

Variable observe : W → Snapshot.
Variable respond : ∀ c : call, W → result (response c) * W.
Variable Route_jobs : string.
Variable DQ_LOG_FILE_HOME : string.
Variable JobName_inference : JobName.
Variable task_type_value : TaskType → Value.
Variable exn_str : exn → string.

(** The decorator of all four functions, from [dataquality.utils.helpers]. *)
Variable check_noop : ∀ A : Type, prog Run A → prog Run (option A).

(** The exceptions of [finish]: the three it raises itself, and what a call
    other than [upload_model_to_dq] raises. *)
Definition finish_raises (e : exn) : Prop :=
  e ∈ [AssertionError; AttributeError; KeyError] ∨
  ∃ c w w', is_upload_model_to_dq c = false ∧ respond c w = (Raise e, w').

(** A call to the outside. *)
Definition ext (c : call) : prog Run (response c) :=
  λ s, let (r, w) := respond c (world s) in
       (r, {| world := w; calls := calls s ++ [c] |}).

(** A read of the config or of a logger's attributes. *)
Definition obs : prog Run Snapshot := λ s, (Ok (observe (world s)), s).

Definition wait_for_run (project_name run_name : option string)
    : prog Run (option unit) :=
  check_noop _ (ext (ApiWaitForRun project_name run_name)).

Definition get_run_status (project_name run_name : option string)
    : prog Run (option (gmap string Value)) :=
  check_noop _ (ext (ApiGetRunStatus project_name run_name)).

Definition _reset_run (project_id run_id : option string) (task_type : option TaskType)
    : prog Run (option unit) :=
  check_noop _
    (let old_run_id := run_id in
     ext (ApiResetRun project_id old_run_id task_type) ;ₚ
     ext GetDataLogger ;ₚ
     config ←ₚ obs;
     let project_dir :=
       (LOG_FILE_DIR config ++ "/" ++ py_str (current_project_id config))%string in
     (* All of the logged user data is to the old run ID, so rename it to the new ID *)
     config ←ₚ obs;
     ext (OsRename (project_dir ++ "/" ++ py_str old_run_id)
                   (project_dir ++ "/" ++ py_str (current_run_id config))) ;ₚ
     (* Move std logs as well *)
     config ←ₚ obs;
     ext (OsRename (DQ_LOG_FILE_HOME ++ "/" ++ py_str old_run_id)
                   (DQ_LOG_FILE_HOME ++ "/" ++ py_str (current_run_id config))) ;ₚ
     ext UpdateFileConfig).

Definition finish (last_epoch : option Z) (wait : bool) (create_data_embs : option bool)
    (data_embs_col : string) (upload_model : bool) : prog Run (option string) :=
  check_noop _
    (ext (LogFunction "dq/finish") ;ₚ
     create_data_embs ←ₚ match create_data_embs with
                          | None => ext GpuAvailable
                          | Some given => pret given
                          end;
     ext WaitForThreads ;ₚ
     config ←ₚ obs;
     passert (bool_decide (is_Some (current_project_id config))) ;ₚ
     config ←ₚ obs;
     passert (bool_decide (is_Some (current_run_id config))) ;ₚ
     config ←ₚ obs;
     passert (bool_decide (is_Some (task_type config))) ;ₚ
     ext GetDataLogger ;ₚ
     ext ValidateLabels ;ₚ
     logged ←ₚ ext NonInferenceLogged;
     (if logged : bool then
        config ←ₚ obs;
        _reset_run (current_project_id config) (current_run_id config) (task_type config) ;ₚ
        pret tt
      else pret tt) ;ₚ
     (* Certain tasks require extra finish logic *)
     ext LoggerConfigFinish ;ₚ
     ext (Upload last_epoch create_data_embs data_embs_col) ;ₚ
     ext UploadDqLogFile ;ₚ
     config ←ₚ obs;
     task_value ←ₚ plift match task_type config with
                          | Some member => Ok (task_type_value member)
                          | None => Raise AttributeError
                          end;
     let body :=
       {| body_project_id := py_str (current_project_id config);
          body_run_id := py_str (current_run_id config);
          body_labels := labels config;
          body_task_type := task_value;
          body_tasks := tasks config;
          body_ner_labels := ner_labels config;
          body_feature_names := feature_names config;
          body_job_name := None;
          body_non_inference_logged := None |} in
     body ←ₚ (if inference_logged config then
                logged ←ₚ ext NonInferenceLogged;
                pret {| body_project_id := body_project_id body;
                        body_run_id := body_run_id body;
                        body_labels := body_labels body;
                        body_task_type := body_task_type body;
                        body_tasks := body_tasks body;
                        body_ner_labels := body_ner_labels body;
                        body_feature_names := body_feature_names body;
                        body_job_name := Some JobName_inference;
                        body_non_inference_logged := Some logged |}
              else pret body);
     config ←ₚ obs;
     res ←ₚ ext (MakeRequestPost (api_url config ++ "/" ++ Route_jobs) body);
     job_name ←ₚ plift (dict_getitem res "job_name");
     link ←ₚ plift (dict_getitem res "link");
     ext (Print ("Job " ++ job_name ++ " successfully submitted. Results will be available "
                 ++ "soon at " ++ link)) ;ₚ
     (if upload_model then
        ptry
          (ext GetModelLogger ;ₚ
           model_logger ←ₚ obs;
           let helper_data := helper_data model_logger in
           if bool_decide (is_Some (helper_data !! "model"%string)) then
             model ←ₚ plift (dict_getitem helper_data "model");
             model_parameters ←ₚ plift (dict_getitem helper_data "model_parameters");
             model_kind ←ₚ plift (dict_getitem helper_data "model_kind");
             ext (UploadModelToDq model model_parameters model_kind) ;ₚ
             ext (Print "Model uploaded successfully.")
           else ext (Print "No model to upload."))
          (λ e, ext (Print ("Error uploading model: " ++ exn_str e)))
      else pret tt) ;ₚ
     config ←ₚ obs;
     (if bool_decide (conditions config ≠ []) then
        ext (Print ("Waiting for run to process before building run report... "
                    ++ "Don't close laptop or terminate shell.")) ;ₚ
        wait_for_run None None ;ₚ
        config ←ₚ obs;
        link ←ₚ plift (dict_getitem res "link");
        ext (BuildRunReport (conditions config) (report_emails config)
               (current_project_id config) (current_run_id config) link)
      else if wait then wait_for_run None None ;ₚ pret tt
      else pret tt) ;ₚ
     (* Reset the data logger *)
     ext CleanupDataLogger ;ₚ
     (* Reset the model logger *)
     ext GetModelLogger ;ₚ
     ext CleanupModelLogger ;ₚ
     pret (default ""%string (res !! "link"%string))).

End Finish.
End Finish.

(** An outside world for running [finish]: the world is what the module
    reads of it, and a call answers the same whatever the world and leaves it
    as it is.  Non-inference data has been logged, there is one condition,
    and no model to upload. *)
Definition example_snapshot : Finish.Snapshot (Value := string) (TaskType := string) :=
  {| Finish.current_project_id := Some "project"%string;
     Finish.current_run_id := Some "run"%string;
     Finish.task_type := Some "text_classification"%string;
     Finish.api_url := "https://api";
     Finish.labels := "labels";
     Finish.tasks := "tasks";
     Finish.ner_labels := "ner_labels";
     Finish.feature_names := "feature_names";
     Finish.inference_logged := false;
     Finish.conditions := ["condition"%string];
     Finish.report_emails := "report_emails";
     Finish.helper_data := ∅;
     Finish.LOG_FILE_DIR := "/logs" |}.

Definition example_answer
    (c : Finish.call (Value := string) (JobName := string) (TaskType := string))
    : Finish.response c :=
  match c return Finish.response c with
  | Finish.GpuAvailable => false
  | Finish.NonInferenceLogged => true
  | Finish.MakeRequestPost _ _ =>
      {[ "job_name"%string := "default"%string; "link"%string := "https://console/run"%string ]}
  | Finish.ApiGetRunStatus _ _ => ∅
  | _ => tt
  end.

Definition example_respond
    (c : Finish.call (Value := string) (JobName := string) (TaskType := string))
    (w : Finish.Snapshot (Value := string) (TaskType := string))
    : result (Finish.response c) * Finish.Snapshot (Value := string) (TaskType := string) :=
  (Ok (example_answer c), w).

Definition example_run : Type :=
  @Finish.Run (Finish.Snapshot (Value := string) (TaskType := string)) string string string.

Definition example_check_noop (A : Type) (c : prog example_run A)
    : prog example_run (option A) :=
  pbind c (λ a, pret (Some a)).

(** [finish(wait=False, upload_model=True)] *)
Definition example_finish : prog example_run (option string) :=
  Finish.finish id example_respond "jobs" "/home/.galileo" "inference" id
    (λ _, "error"%string) example_check_noop None false None "text" true.

Definition example_start : example_run :=
  {| Finish.world := example_snapshot; Finish.calls := [] |}.

Definition example_finished : example_run :=
  Eval vm_compute in (example_finish example_start).2.

(** The same world before [init]: no run is active. *)
Definition example_snapshot_no_run
    : Finish.Snapshot (Value := string) (TaskType := string) :=
  {| Finish.current_project_id := None;
     Finish.current_run_id := None;
     Finish.task_type := Some "text_classification"%string;
     Finish.api_url := "https://api";
     Finish.labels := "labels";
     Finish.tasks := "tasks";
     Finish.ner_labels := "ner_labels";
     Finish.feature_names := "feature_names";
     Finish.inference_logged := false;
     Finish.conditions := [];
     Finish.report_emails := "report_emails";
     Finish.helper_data := ∅;
     Finish.LOG_FILE_DIR := "/logs" |}.

Definition example_start_no_run : example_run :=
  {| Finish.world := example_snapshot_no_run; Finish.calls := [] |}.

(** * Proofs *)

(** ** Results *)

Lemma fmap_result_Ok {A B} (f : A → B) (r : result A) b :
  f <$> r = Ok b ↔ ∃ a, r = Ok a ∧ b = f a.
Proof.
  destruct r as [a|e]; simpl; split.
  - intros [= <-]. by exists a.
  - by intros (a' & [= <-] & ->).
  - discriminate.
  - by intros (a' & [=] & _).
Qed.

Lemma bind_result_Ok {A B} (k : A → result B) (r : result A) b :
  (r ≫= k) = Ok b ↔ ∃ a, r = Ok a ∧ k a = Ok b.
Proof.
  destruct r as [a|e]; simpl; split.
  - intros H. by exists a.
  - by intros (a' & [= <-] & H).
  - discriminate.
  - by intros (a' & [=] & _).
Qed.

(** ** The contract of [np.argsort] in logical form *)

Lemma is_arange_perm_spec n idx :
  Np.is_arange_perm n idx = true →
  NoDup idx ∧ ∀ i, i ∈ idx ↔ i < n.
Proof.
  unfold Np.is_arange_perm. rewrite andb_true_iff, Nat.eqb_eq, forallb_forall.
  intros [Hlen Hcov].
  assert (Hincl : incl (seq 0 n) idx).
  { intros i Hi. specialize (Hcov i Hi). apply existsb_exists in Hcov.
    destruct Hcov as (j & Hj & Heq). apply Nat.eqb_eq in Heq. by subst. }
  assert (Hle : length idx ≤ length (seq 0 n)) by (rewrite length_seq; lia).
  split.
  - eapply NoDup_ListNoDup, List.NoDup_incl_NoDup; [apply List.seq_NoDup | exact Hle | exact Hincl].
  - intros i. rewrite list_elem_of_In. split.
    + intros Hi. eapply List.NoDup_length_incl in Hi; [| apply List.seq_NoDup | exact Hle | exact Hincl].
      apply List.in_seq in Hi. lia.
    + intros Hi. apply Hincl, List.in_seq. lia.
Qed.

Lemma ascending_spec v idx :
  Np.ascending v idx = true →
  ∀ a b i j, a < b → idx !! a = Some i → idx !! b = Some j →
    Np.less (Np.item v j) (Np.item v i) = false.
Proof.
  induction idx as [|x rest IH]; simpl; [intros _ a b i j _ Ha; by destruct a |].
  rewrite andb_true_iff, forallb_forall. intros [Hx Hrest] a b i j Hab Ha Hb.
  destruct b as [|b]; [lia |]. simpl in Hb.
  destruct a as [|a]; simpl in Ha.
  - injection Ha as ->. apply negb_true_iff, Hx, list_elem_of_In.
    by eapply list_elem_of_lookup_2.
  - eapply (IH Hrest a b); [lia | done | done].
Qed.

Lemma ties_by_index_spec v idx :
  Np.ties_by_index v idx = true →
  ∀ a b i j, a < b → idx !! a = Some i → idx !! b = Some j →
    Np.tied (Np.item v i) (Np.item v j) = true → i < j.
Proof.
  induction idx as [|x rest IH]; simpl; [intros _ a b i j _ Ha; by destruct a |].
  rewrite andb_true_iff, forallb_forall. intros [Hx Hrest] a b i j Hab Ha Hb Htie.
  destruct b as [|b]; [lia |]. simpl in Hb.
  destruct a as [|a]; simpl in Ha.
  - injection Ha as ->.
    assert (Hj : In j rest) by (apply list_elem_of_In; by eapply list_elem_of_lookup_2).
    specialize (Hx j Hj). rewrite Htie in Hx. simpl in Hx. by apply Nat.ltb_lt.
  - eapply (IH Hrest a b); [lia | done | done | done].
Qed.

(** ** numpy's order on floats is a strict weak order *)

Lemma less_sf a b : Np.less a b = sf_less (Prim2SF a) (Prim2SF b).
Proof.
  unfold Np.less, sf_less, is_nan.
  rewrite FloatAxioms.ltb_spec, !FloatAxioms.eqb_spec. by rewrite negb_involutive.
Qed.

Lemma sf_less_rank x y : sf_less x y = true ↔ lex_lt (sf_rank x) (sf_rank y).
Proof.
  unfold sf_less, SFltb, SFeqb, lex_lt.
  destruct x as [sx|sx| |sx mx ex], y as [sy|sy| |sy my ey];
    try destruct sx; try destruct sy; simpl;
    rewrite ?Z.compare_refl, ?Pos.compare_cont_refl; simpl;
    try (split; [discriminate | lia]); try (split; [lia | done]);
    try (split; [done | lia]).
  all: change (Pos.compare_cont Eq mx my) with (Pos.compare mx my).
  all: destruct (Z.compare_spec ex ey); destruct (Pos.compare_spec mx my); simpl;
    split; try discriminate; try lia; try done.
Qed.

Lemma less_asym a b : Np.less a b = true → Np.less b a = false.
Proof.
  rewrite !less_sf. intros H%sf_less_rank.
  apply not_true_is_false. intros H'%sf_less_rank.
  unfold lex_lt in *. lia.
Qed.

Lemma less_negtrans a b c :
  Np.less a b = true → Np.less a c = true ∨ Np.less c b = true.
Proof. rewrite !less_sf, !sf_less_rank. unfold lex_lt. lia. Qed.

(** ** The stable insertion sort honours the contract of [np.argsort] *)

Lemma forallb_insert_index (P : nat → bool) v i s :
  forallb P (Np.insert_index v i s) = P i && forallb P s.
Proof.
  induction s as [|j rest IH]; simpl; [done |].
  destruct (Np.less _ _); simpl; [done |].
  rewrite IH. by destruct (P i), (P j).
Qed.

Lemma insert_index_Permutation v i s : Np.insert_index v i s ≡ₚ i :: s.
Proof.
  induction s as [|j rest IH]; simpl; [done |].
  destruct (Np.less _ _); [done |]. rewrite IH. apply Permutation_swap.
Qed.

Lemma insert_index_ascending v i s :
  Np.ascending v s = true → Np.ascending v (Np.insert_index v i s) = true.
Proof.
  induction s as [|j rest IH]; simpl; [done |].
  intros [Hj Hrest]%andb_true_iff.
  destruct (Np.less (Np.item v i) (Np.item v j)) eqn:Hij; simpl.
  - rewrite (less_asym _ _ Hij), Hj, Hrest. simpl. rewrite andb_true_r.
    apply forallb_forall. intros k Hk. rewrite forallb_forall in Hj.
    apply negb_true_iff, not_true_is_false. intros Hki.
    destruct (less_negtrans _ _ (Np.item v j) Hki) as [Hkj|Hji].
    + specialize (Hj k Hk). by rewrite Hkj in Hj.
    + by rewrite (less_asym _ _ Hij) in Hji.
  - rewrite forallb_insert_index, Hij, Hj, (IH Hrest). done.
Qed.

Lemma insert_index_ties v i s :
  Forall (λ k, k < i) s →
  Np.ascending v s = true → Np.ties_by_index v s = true →
  Np.ties_by_index v (Np.insert_index v i s) = true.
Proof.
  induction s as [|j rest IH]; simpl; [done |].
  intros [Hji Hlt]%Forall_cons [Hj Hrest]%andb_true_iff [Htj Htrest]%andb_true_iff.
  destruct (Np.less (Np.item v i) (Np.item v j)) eqn:Hij; simpl.
  - rewrite Htj, Htrest. unfold Np.tied at 1. rewrite Hij. simpl. rewrite andb_true_r.
    apply forallb_forall. intros k Hk. rewrite forallb_forall in Hj.
    destruct (less_negtrans _ _ (Np.item v k) Hij) as [Hik|Hkj].
    + unfold Np.tied. by rewrite Hik.
    + specialize (Hj k Hk). by rewrite Hkj in Hj.
  - rewrite forallb_insert_index, Htj, (IH Hlt Hrest Htrest), andb_true_r, andb_true_r.
    apply orb_true_iff. right. by apply Nat.ltb_lt.
Qed.

Lemma is_arange_perm_Permutation n idx :
  idx ≡ₚ seq 0 n → Np.is_arange_perm n idx = true.
Proof.
  intros Hperm. unfold Np.is_arange_perm.
  rewrite (Permutation_length Hperm), length_seq, Nat.eqb_refl. simpl.
  apply forallb_forall. intros i Hi. apply existsb_exists. exists i.
  split; [| apply Nat.eqb_refl].
  apply list_elem_of_In. rewrite Hperm. by apply list_elem_of_In.
Qed.

Lemma argsort_prefix v m :
  foldl (λ acc i, Np.insert_index v i acc) [] (seq 0 m) ≡ₚ seq 0 m ∧
  Np.ascending v (foldl (λ acc i, Np.insert_index v i acc) [] (seq 0 m)) = true ∧
  Np.ties_by_index v (foldl (λ acc i, Np.insert_index v i acc) [] (seq 0 m)) = true.
Proof.
  induction m as [|m (Hperm & Hasc & Hties)]; [done |].
  rewrite seq_S, foldl_app. simpl. split_and!.
  - rewrite insert_index_Permutation, Hperm. by rewrite Permutation_cons_append.
  - by apply insert_index_ascending.
  - apply insert_index_ties; [| done | done].
    apply Forall_forall. intros k Hk. rewrite Hperm in Hk.
    apply elem_of_seq in Hk. lia.
Qed.

(** Every vector has a sort result meeting the contract, and a stable one. *)
Lemma argsort_meets_contract v :
  Np.argsort_ok v (Np.argsort v) = true ∧ Np.ties_by_index v (Np.argsort v) = true.
Proof.
  destruct (argsort_prefix v (length v)) as (Hperm & Hasc & Hties).
  unfold Np.argsort_ok, Np.argsort.
  by rewrite (is_arange_perm_Permutation _ _ Hperm), Hasc, Hties.
Qed.

(** ** numpy primitives *)

Lemma where_first_Ok idx p k :
  Np.where_first idx p = Ok k →
  idx !! k = Some (Z.to_nat p) ∧ (0 ≤ p)%Z ∧
  ∀ j i, j < k → idx !! j = Some i → i ≠ Z.to_nat p.
Proof.
  revert k. induction idx as [|x rest IH]; simpl; intros k; [discriminate |].
  destruct (Z.eqb_spec (Z.of_nat x) p) as [<-|Hne].
  - intros [= <-]. rewrite Nat2Z.id. repeat split; [lia | intros; lia].
  - rewrite fmap_result_Ok. intros (k' & Hk' & ->).
    destruct (IH _ Hk') as (Hl & Hp & Hbefore). repeat split; [done | done |].
    intros [|j] i Hj; simpl.
    + intros [= <-] ->. lia.
    + apply Hbefore. lia.
Qed.

Lemma where_first_elem idx p :
  (0 ≤ p)%Z → Z.to_nat p ∈ idx → ∃ k, Np.where_first idx p = Ok k.
Proof.
  intros Hp. induction idx as [|x rest IH]; [by intros ?%elem_of_nil |].
  simpl. destruct (Z.eqb_spec (Z.of_nat x) p) as [_|Hne]; [by exists 0 |].
  intros [Heq|Hin]%elem_of_cons; [lia |].
  destruct (IH Hin) as [k ->]. by exists (S k).
Qed.

Lemma where_first_Raise idx p :
  (∀ i, i ∈ idx → Z.of_nat i ≠ p) → Np.where_first idx p = Raise IndexError.
Proof.
  induction idx as [|x rest IH]; [done |]. intros Hall. simpl.
  destruct (Z.eqb_spec (Z.of_nat x) p) as [Heq|_].
  - exfalso. apply (Hall x); [left | done].
  - rewrite IH; [done |]. intros i Hi. apply Hall. by right.
Qed.

Lemma clear_at_spec indices : ∀ mask,
  (∀ i, i ∈ indices → i < length mask) →
  ∃ m, Np.clear_at mask indices = Ok m ∧ length m = length mask ∧
       (∀ i, i ∈ indices → m !! i = Some false) ∧
       (∀ i, i ∉ indices → m !! i = mask !! i).
Proof.
  induction indices as [|x rest IH]; intros mask Hrange; simpl.
  - exists mask. split_and!; [done | done | by intros i ?%elem_of_nil | done].
  - assert (Hx : x < length mask) by (apply Hrange; left).
    apply Nat.ltb_lt in Hx as Hxb. rewrite Hxb.
    destruct (IH (<[x := false]> mask)) as (m & Hm & Hlen & Hin & Hout).
    { intros i Hi. rewrite length_insert. apply Hrange. by right. }
    exists m. rewrite length_insert in Hlen. split_and!; [done | done | |].
    + intros i [->|Hi]%elem_of_cons; [| by apply Hin].
      destruct (decide (x ∈ rest)) as [Hxr|Hxr]; [by apply Hin |].
      rewrite Hout by done. by apply list_lookup_insert_eq.
    + intros i Hi. apply not_elem_of_cons in Hi as [Hne Hi].
      rewrite Hout by done. by apply list_lookup_insert_ne.
Qed.

Lemma clear_at_Raise indices : ∀ mask i,
  i ∈ indices → length mask ≤ i → Np.clear_at mask indices = Raise IndexError.
Proof.
  induction indices as [|x rest IH]; intros mask i; [by intros ?%elem_of_nil |].
  simpl. intros Hin Hi. destruct (Nat.ltb_spec x (length mask)) as [Hx|Hx]; [| done].
  apply elem_of_cons in Hin as [->|Hin]; [lia |].
  apply (IH _ i); [done | by rewrite length_insert].
Qed.

Lemma zero_where_lookup mask v i :
  Np.zero_where mask v !! i =
  m ← mask !! i; x ← v !! i; Some (if m : bool then zero else x).
Proof. unfold Np.zero_where. apply lookup_zip_with. Qed.

Lemma zero_where_length mask v :
  length mask = length v → length (Np.zero_where mask v) = length v.
Proof. intros H. unfold Np.zero_where. rewrite length_zip_with. lia. Qed.

(** ** The masking on the contents of the array *)

Section MaskingFacts.

Variable argsort : list float → list nat.

Lemma order_NoDup v :
  Np.argsort_ok v (argsort v) = true → NoDup (order argsort v).
Proof.
  intros [Hperm _]%andb_true_iff. apply is_arange_perm_spec in Hperm as [Hnd _].
  unfold order, Np.flip. by rewrite reverse_Permutation.
Qed.

Lemma order_elem v i :
  Np.argsort_ok v (argsort v) = true → i ∈ order argsort v ↔ i < length v.
Proof.
  intros [Hperm _]%andb_true_iff. apply is_arange_perm_spec in Hperm as [_ Hin].
  unfold order, Np.flip. by rewrite elem_of_reverse.
Qed.

Lemma order_lookup_rev v a i :
  order argsort v !! a = Some i →
  a < length (argsort v) ∧ argsort v !! (length (argsort v) - S a) = Some i.
Proof.
  unfold order, Np.flip. intros H.
  assert (Ha : a < length (argsort v)).
  { apply lookup_lt_Some in H. by rewrite length_reverse in H. }
  split; [done |]. by rewrite reverse_lookup in H.
Qed.

Lemma order_descending v a b i j :
  Np.argsort_ok v (argsort v) = true →
  a < b → order argsort v !! a = Some i → order argsort v !! b = Some j →
  Np.less (Np.item v i) (Np.item v j) = false.
Proof.
  intros [_ Hasc]%andb_true_iff Hab Ha Hb.
  apply order_lookup_rev in Ha as [Hla Ha], Hb as [Hlb Hb].
  eapply (ascending_spec _ _ Hasc _ _ j i); [| exact Hb | exact Ha]. lia.
Qed.

Lemma order_ties v a b i j :
  Np.ties_by_index v (argsort v) = true →
  a < b → order argsort v !! a = Some i → order argsort v !! b = Some j →
  Np.tied (Np.item v i) (Np.item v j) = true → j < i.
Proof.
  intros Hst Hab Ha Hb Htie.
  apply order_lookup_rev in Ha as [Hla Ha], Hb as [Hlb Hb].
  eapply (ties_by_index_spec _ _ Hst _ _ j i); [| exact Hb | exact Ha |]; [lia |].
  unfold Np.tied in *. by rewrite andb_comm.
Qed.

(** With an in-range prediction the masking succeeds: the entries ranked
    before the prediction become [0], the others are kept. *)
Lemma valid_logits_spec v (p : Z) :
  Np.argsort_ok v (argsort v) = true →
  (0 ≤ p < Z.of_nat (length v))%Z →
  ∃ k out,
    order argsort v !! k = Some (Z.to_nat p) ∧
    valid_logits argsort v p = Ok out ∧
    length out = length v ∧
    ∀ j i, order argsort v !! j = Some i →
      (j < k → out !! i = Some zero) ∧ (k ≤ j → out !! i = v !! i).
Proof.
  intros Hok Hp.
  pose proof (order_NoDup v Hok) as Hnd.
  assert (Hpin : Z.to_nat p ∈ order argsort v) by (apply order_elem; [done | lia]).
  destruct (where_first_elem (order argsort v) p) as [k Hk]; [lia | done |].
  destruct (where_first_Ok _ _ _ Hk) as (Hkp & _ & _).
  destruct (clear_at_spec (drop k (order argsort v)) (Np.ones (length v)))
    as (m & Hm & Hlen & Hin & Hout).
  { intros i Hi%subseteq_drop. unfold Np.ones. rewrite length_replicate.
    by apply order_elem. }
  unfold Np.ones in Hlen. rewrite length_replicate in Hlen.
  exists k, (Np.zero_where m v). split_and!; [done | | by apply zero_where_length |].
  - unfold valid_logits. fold (order argsort v). rewrite Hk. simpl. by rewrite Hm.
  - intros j i Hj.
    assert (Hi : i < length v) by (apply (order_elem v i Hok); by eapply list_elem_of_lookup_2).
    destruct (lookup_lt_is_Some_2 v i Hi) as [x Hx].
    rewrite zero_where_lookup, Hx. split; intros Hjk.
    + rewrite Hout.
      * unfold Np.ones. rewrite lookup_replicate_2 by done. done.
      * intros (j' & Hj')%list_elem_of_lookup. rewrite lookup_drop in Hj'.
        pose proof (NoDup_lookup _ _ _ _ Hnd Hj Hj'). lia.
    + rewrite Hin; [done |]. apply list_elem_of_lookup. exists (j - k).
      rewrite lookup_drop. by replace (k + (j - k)) with j by lia.
Qed.

(** A prediction that is no index of the vector is not found in the
    ordering: [IndexError]. *)
Lemma valid_logits_out_of_range v (p : Z) :
  Np.argsort_ok v (argsort v) = true →
  ¬ (0 ≤ p < Z.of_nat (length v))%Z →
  valid_logits argsort v p = Raise IndexError.
Proof.
  intros Hok Hp. unfold valid_logits. fold (order argsort v).
  rewrite where_first_Raise; [done |].
  intros i Hi%(order_elem v i Hok). lia.
Qed.

Lemma item_lookup_eq (v w : list float) i :
  w !! i = v !! i → Np.item w i = Np.item v i.
Proof. unfold Np.item. rewrite !nth_lookup. by intros ->. Qed.

(** Masking a masked vector again changes nothing, when the sort cannot
    reorder entries tied with the prediction: either there is none, or the
    sort is stable on both vectors. *)
Lemma valid_logits_idempotent v w (p : Z) :
  (0 ≤ p < Z.of_nat (length v))%Z →
  Np.argsort_ok v (argsort v) = true →
  valid_logits argsort v p = Ok w →
  Np.argsort_ok w (argsort w) = true →
  prediction_untied v p = true
  ∨ (Np.ties_by_index v (argsort v) = true ∧ Np.ties_by_index w (argsort w) = true) →
  valid_logits argsort w p = Ok w.
Proof.
  intros Hp Hokv Hw Hokw Hties.
  destruct (valid_logits_spec v p Hokv Hp) as (k & out & Hk & Hout & Hlen & Hv).
  rewrite Hw in Hout. injection Hout as <-.
  assert (Hp' : (0 ≤ p < Z.of_nat (length w))%Z) by (rewrite Hlen; lia).
  destruct (valid_logits_spec w p Hokw Hp') as (k' & out' & Hk' & Hout' & Hlen' & Hw').
  rewrite Hout'. f_equal. apply list_eq. intros i.
  destruct (decide (i < length w)) as [Hi|Hi].
  2:{ rewrite !lookup_ge_None_2; [done | lia | lia]. }
  pose proof (proj2 (order_elem w i Hokw) Hi) as [j' Hj']%list_elem_of_lookup.
  destruct (Hw' j' i Hj') as [Hbefore Hafter].
  destruct (decide (k' ≤ j')) as [Hle|Hlt]; [by apply Hafter |].
  rewrite Hbefore by lia.
  assert (Hiv : i < length v) by lia.
  pose proof (proj2 (order_elem v i Hokv) Hiv) as [j Hj]%list_elem_of_lookup.
  destruct (Hv j i Hj) as [Hzero Hkept].
  destruct (decide (j < k)) as [Hjk|Hjk]; [symmetry; by apply Hzero |].
  exfalso.
  assert (Hne : i ≠ Z.to_nat p).
  { intros ->. pose proof (NoDup_lookup _ _ _ _ (order_NoDup w Hokw) Hj' Hk'). lia. }
  assert (Hkj : k < j).
  { destruct (decide (j = k)) as [->|]; [| lia]. rewrite Hk in Hj. congruence. }
  assert (Hwi : Np.item w i = Np.item v i) by (apply item_lookup_eq, Hkept; lia).
  assert (Hwp : Np.item w (Z.to_nat p) = Np.item v (Z.to_nat p)).
  { apply item_lookup_eq. by apply (Hv k). }
  pose proof (order_descending v k j _ _ Hokv Hkj Hk Hj) as Hd1.
  assert (Hj'k' : j' < k') by lia.
  pose proof (order_descending w j' k' _ _ Hokw Hj'k' Hj' Hk') as Hd2.
  rewrite Hwi, Hwp in Hd2.
  assert (Htie : Np.tied (Np.item v i) (Np.item v (Z.to_nat p)) = true).
  { unfold Np.tied. by rewrite Hd1, Hd2. }
  destruct Hties as [Hun|[Hsv Hsw]].
  - unfold prediction_untied in Hun. rewrite forallb_forall in Hun.
    specialize (Hun i). rewrite Htie in Hun. simpl in Hun.
    rewrite orb_false_r in Hun. rewrite List.in_seq in Hun.
    assert (Heq : (Z.of_nat i =? p)%Z = true) by (apply Hun; lia).
    apply Z.eqb_eq in Heq. lia.
  - assert (Htie' : Np.tied (Np.item v (Z.to_nat p)) (Np.item v i) = true).
    { unfold Np.tied in *. by rewrite andb_comm. }
    pose proof (order_ties v k j _ _ Hsv Hkj Hk Hj Htie') as H1.
    rewrite <- Hwi, <- Hwp in Htie.
    pose proof (order_ties w j' k' _ _ Hsw Hj'k' Hj' Hk' Htie) as H2.
    lia.
Qed.

(** Lifting to the store: on a 1-D array the call stores the new contents
    under the same reference. *)
Lemma convert_vector (h : heap) l v p :
  h !! l = Some (vector v) →
  convert_spacy_ner_logits_to_valid_logits argsort l p h =
  match valid_logits argsort v p with
  | Ok d => (Ok l, <[l := NDArray [length v] d]> h)
  | Raise e => (Raise e, h)
  end.
Proof.
  intros Hl. unfold convert_spacy_ner_logits_to_valid_logits. rewrite Hl. simpl.
  by destruct (valid_logits argsort v p).
Qed.

(** Two calls in a row on the same array. *)
Lemma convert_twice (h : heap) l v w p :
  h !! l = Some (vector v) →
  length w = length v →
  valid_logits argsort v p = Ok w →
  valid_logits argsort w p = Ok w →
  convert_spacy_ner_logits_to_valid_logits argsort l p h
    = (Ok l, <[l := vector w]> h) ∧
  convert_spacy_ner_logits_to_valid_logits argsort l p (<[l := vector w]> h)
    = (Ok l, <[l := vector w]> h).
Proof.
  intros Hl Hlen Hv Hw. split.
  - rewrite (convert_vector h l v p Hl), Hv. unfold vector. by rewrite Hlen.
  - rewrite (convert_vector _ l w p) by apply lookup_insert_eq.
    rewrite Hw. by rewrite insert_insert_eq.
Qed.

End MaskingFacts.

(** With a stable sort the masking is idempotent on every vector. *)
Lemma masking_idempotent_stable (h : heap) l v (p : Z) :
  h !! l = Some (vector v) →
  (0 ≤ p < Z.of_nat (length v))%Z →
  ∃ h1,
    convert_spacy_ner_logits_to_valid_logits Np.argsort l p h = (Ok l, h1) ∧
    convert_spacy_ner_logits_to_valid_logits Np.argsort l p h1 = (Ok l, h1).
Proof.
  intros Hl Hp.
  destruct (argsort_meets_contract v) as [Hokv Hsv].
  destruct (valid_logits_spec Np.argsort v p Hokv Hp) as (k & w & _ & Hw & Hlen & _).
  destruct (argsort_meets_contract w) as [Hokw Hsw].
  exists (<[l := vector w]> h).
  apply (convert_twice Np.argsort h l v w p Hl Hlen Hw).
  apply (valid_logits_idempotent Np.argsort v w p Hp Hokv Hw Hokw). by right.
Qed.

(** Whatever order a sort gives to equal keys, scenario E has one result:
    its three logits are distinct. *)
Lemma scenario_E_any_sort (idx : list nat) :
  Np.argsort_ok scenario_E idx = true → idx = [1; 2; 0].
Proof.
  destruct idx as [|a [|b [|c [|d rest]]]]; try (intros H; by vm_compute in H).
  destruct a as [|[|[|a]]], b as [|[|[|b]]], c as [|[|[|c]]];
    intros H; vm_compute in H; (discriminate H || reflexivity).
Qed.

Lemma float_zero_ne_one : zero ≠ 1.0%float.
Proof. intros H. apply (f_equal (PrimFloat.ltb zero)) in H. by vm_compute in H. Qed.

(** ** Claims on the logit masking *)

(** C1. For a 1-D logit vector [v] and an in-range predicted index [p], the
    masking works on the indices sorted by descending logit: the entries at
    positions of that ordering before the position of [p] become [0], the
    entry at [p] and those at later positions keep their value.  On
    [[5.0; 3.0; 4.0]] with [p = 2] the array becomes [[0.0; 3.0; 4.0]]. *)
Theorem masking_zeroes_higher_ranked
    (argsort : list float → list nat) (h : heap) (l : loc) (v : list float) (p : Z) :
  h !! l = Some (vector v) →
  Np.argsort_ok v (argsort v) = true →
  (0 ≤ p < Z.of_nat (length v))%Z →
  (∀ a b i j, a < b →
     order argsort v !! a = Some i → order argsort v !! b = Some j →
     Np.less (Np.item v i) (Np.item v j) = false) ∧
  (∃ k out,
     order argsort v !! k = Some (Z.to_nat p) ∧
     convert_spacy_ner_logits_to_valid_logits argsort l p h
       = (Ok l, <[l := vector out]> h) ∧
     length out = length v ∧
     ∀ j i, order argsort v !! j = Some i →
       (j < k → out !! i = Some zero) ∧ (k ≤ j → out !! i = v !! i)) ∧
  (∀ (h' : heap) l',
     h' !! l' = Some (vector scenario_E) →
     Np.argsort_ok scenario_E (argsort scenario_E) = true →
     convert_spacy_ner_logits_to_valid_logits argsort l' 2 h'
       = (Ok l', <[l' := vector scenario_E_masked]> h')).
Proof.
  intros Hl Hok Hp. split_and!.
  - intros a b i j. by apply order_descending.
  - destruct (valid_logits_spec argsort v p Hok Hp) as (k & out & Hk & Hout & Hlen & Hv).
    exists k, out. split_and!; [done | | done | done].
    rewrite (convert_vector argsort h l v p Hl), Hout.
    unfold vector. by rewrite Hlen.
  - intros h' l' Hl' HokE.
    rewrite (convert_vector argsort h' l' _ 2 Hl').
    unfold valid_logits. rewrite (scenario_E_any_sort _ HokE). reflexivity.
Qed.

Lemma masking_zeroes_higher_ranked_witness :
  ∃ k out,
    order Np.argsort scenario_E !! k = Some 2 ∧
    convert_spacy_ner_logits_to_valid_logits Np.argsort 1%positive 2
      {[ 1%positive := vector scenario_E ]}
    = (Ok 1%positive, <[1%positive := vector out]> {[ 1%positive := vector scenario_E ]}) ∧
    length out = 3 ∧
    ∀ j i, order Np.argsort scenario_E !! j = Some i →
      (j < k → out !! i = Some zero) ∧ (k ≤ j → out !! i = scenario_E !! i).
Proof.
  refine (proj1 (proj2 (masking_zeroes_higher_ranked Np.argsort
            {[ 1%positive := vector scenario_E ]} 1%positive scenario_E 2 _ _ _))).
  - reflexivity.
  - reflexivity.
  - simpl. lia.
Defined.




(** C3, as the code has it.  A predicted index that is no index of the
    vector, a negative one included, makes the call raise Python's
    [IndexError], from indexing the empty result of [np.where], and leaves
    the store untouched; every index of the vector makes it succeed. *)
Theorem masking_fails_iff_out_of_range
    (argsort : list float → list nat) (h : heap) (l : loc) (v : list float) (p : Z) :
  h !! l = Some (vector v) →
  Np.argsort_ok v (argsort v) = true →
  (¬ (0 ≤ p < Z.of_nat (length v))%Z →
     convert_spacy_ner_logits_to_valid_logits argsort l p h = (Raise IndexError, h)) ∧
  ((0 ≤ p < Z.of_nat (length v))%Z →
     ∃ h', convert_spacy_ner_logits_to_valid_logits argsort l p h = (Ok l, h')).
Proof.
  intros Hl Hok. rewrite (convert_vector argsort h l v p Hl). split; intros Hp.
  - by rewrite (valid_logits_out_of_range argsort v p Hok Hp).
  - destruct (valid_logits_spec argsort v p Hok Hp) as (k & out & _ & -> & _).
    by eexists.
Qed.

Lemma masking_fails_iff_out_of_range_witness :
  convert_spacy_ner_logits_to_valid_logits Np.argsort 1%positive 3
    {[ 1%positive := vector scenario_E ]}
  = (Raise IndexError, {[ 1%positive := vector scenario_E ]}).
Proof.
  refine (proj1 (masking_fails_iff_out_of_range Np.argsort
            {[ 1%positive := vector scenario_E ]} 1%positive scenario_E 3 _ _) _).
  - reflexivity.
  - reflexivity.
  - simpl. lia.
Defined.

(** The claim as the specification words it fails in the kind of the
    error: the code has no check of the prediction and no error type of its
    own, what is raised is [IndexError]. *)
Lemma masking_raises_index_error :
  convert_spacy_ner_logits_to_valid_logits Np.argsort 1%positive 3
    {[ 1%positive := vector scenario_E ]}
  = (Raise IndexError, {[ 1%positive := vector scenario_E ]})
  ∧ convert_spacy_ner_logits_to_valid_logits Np.argsort 1%positive 3
      {[ 1%positive := vector scenario_E ]}
    ≠ (Raise InvalidPredictionError, {[ 1%positive := vector scenario_E ]}).
Proof. split; [reflexivity | discriminate]. Qed.

(** C4, as the code has it.  Masking an already masked vector with the same
    in-range prediction changes nothing, provided the sort cannot move an
    entry tied with the prediction: no other entry ties with it, or the sort
    keeps tied entries in index order on both calls. *)
Theorem masking_idempotent_without_ties
    (argsort : list float → list nat) (h : heap) (l : loc) (v : list float) (p : Z) :
  h !! l = Some (vector v) →
  (0 ≤ p < Z.of_nat (length v))%Z →
  Np.argsort_ok v (argsort v) = true →
  (∀ w, valid_logits argsort v p = Ok w → Np.argsort_ok w (argsort w) = true) →
  (prediction_untied v p = true
   ∨ (Np.ties_by_index v (argsort v) = true ∧
      ∀ w, valid_logits argsort v p = Ok w → Np.ties_by_index w (argsort w) = true)) →
  ∃ h1,
    convert_spacy_ner_logits_to_valid_logits argsort l p h = (Ok l, h1) ∧
    convert_spacy_ner_logits_to_valid_logits argsort l p h1 = (Ok l, h1).
Proof.
  intros Hl Hp Hokv Hokw Hties.
  destruct (valid_logits_spec argsort v p Hokv Hp) as (k & w & _ & Hw & Hlen & _).
  exists (<[l := vector w]> h).
  apply (convert_twice argsort h l v w p Hl Hlen Hw).
  apply (valid_logits_idempotent argsort v w p Hp Hokv Hw (Hokw w Hw)).
  destruct Hties as [Hun|[Hsv Hsw]]; [by left | right; split; [done | by apply Hsw]].
Qed.

Lemma masking_idempotent_without_ties_witness :
  ∃ h1,
    convert_spacy_ner_logits_to_valid_logits Np.argsort 1%positive 2
      {[ 1%positive := vector scenario_E ]} = (Ok 1%positive, h1) ∧
    convert_spacy_ner_logits_to_valid_logits Np.argsort 1%positive 2 h1
      = (Ok 1%positive, h1).
Proof.
  apply (masking_idempotent_without_ties Np.argsort
           {[ 1%positive := vector scenario_E ]} 1%positive scenario_E 2).
  - reflexivity.
  - simpl. lia.
  - reflexivity.
  - intros w Hw. vm_compute in Hw. injection Hw as <-. reflexivity.
  - left. reflexivity.
Defined.

(** The claim as the specification words it fails on tied logits.  The
    quicksort orders the indices of eighteen equal logits as
    [0, 15, 14, ..., 1, 16, 17]; with prediction [1] the first call zeroes the
    entries [16] and [17], and the second call, sorting the changed vector,
    goes on to zero the entries [7] and [8]. *)
Lemma masking_twice_differs :
  let w1 := replicate 16 1.0%float ++ [0.0; 0.0]%float in
  let w2 := replicate 7 1.0%float ++ [0.0; 0.0]%float
            ++ replicate 7 1.0%float ++ [0.0; 0.0]%float in
  Np.argsort_ok ones18 (Np.argsort_quicksort ones18) = true ∧
  Np.argsort_ok w1 (Np.argsort_quicksort w1) = true ∧
  convert_spacy_ner_logits_to_valid_logits Np.argsort_quicksort 1%positive 1
    {[ 1%positive := vector ones18 ]}
  = (Ok 1%positive, {[ 1%positive := vector w1 ]}) ∧
  convert_spacy_ner_logits_to_valid_logits Np.argsort_quicksort 1%positive 1
    {[ 1%positive := vector w1 ]}
  = (Ok 1%positive, {[ 1%positive := vector w2 ]}) ∧
  w2 ≠ w1.
Proof.
  split_and!; [reflexivity | reflexivity | reflexivity | reflexivity |].
  intros H. apply (f_equal (λ w, nth 7 w zero)) in H. simpl in H.
  by apply float_zero_ne_one.
Qed.

(** ** Enum classes *)

Lemma enum_by_value_Ok {T} (members : list T) (value : T → string) s m :
  enum_by_value members value s = Ok m → m ∈ members ∧ value m = s.
Proof.
  unfold enum_by_value. destruct (find _ members) as [m'|] eqn:Hfind; [| discriminate].
  intros [= <-]. apply List.find_some in Hfind as [Hin Heq].
  split; [by apply list_elem_of_In | by apply String.eqb_eq].
Qed.

Lemma enum_by_value_Raise {T} (members : list T) (value : T → string) s :
  s ∉ enum_values members value → enum_by_value members value s = Raise ValueError.
Proof.
  unfold enum_by_value, enum_values. intros Hs.
  destruct (find _ members) as [m|] eqn:Hfind; [| done].
  apply List.find_some in Hfind as [Hin Heq]. apply String.eqb_eq in Heq.
  exfalso. apply Hs. rewrite list_elem_of_fmap. exists m.
  split; [done | by apply list_elem_of_In].
Qed.



(** ** The text-classification model logger *)

Section LoggerFacts.

Import TextClassificationModelLogger.

Variable base_setattr : string → pyval → gmap string pyval → result (gmap string pyval).
Variable Split_by_name : string → option string.
Variable Split_inference : string.
Variable data_schema_version : Z.

Local Abbreviation record_of :=
  (make_record Split_by_name Split_inference data_schema_version).
Local Abbreviation rows_into :=
  (add_rows Split_by_name Split_inference data_schema_version).

Lemma make_record_Ok self record_id prob emb record :
  record_of self record_id prob emb = Ok record →
  ∃ n e sv tail,
    np_argmax prob = Ok n ∧
    record = [("id", PyInt record_id); ("epoch", e); ("split", PyStr sv);
              ("emb", PyVec emb); ("prob", prob_cell prob);
              ("pred", PyInt (Z.of_nat n));
              ("data_schema_version", PyInt data_schema_version)]%string ++ tail ∧
    (tail = [] ∨ ∃ x, tail = [("inference_name"%string, x)]).
Proof.
  unfold make_record.
  intros (e & He & H)%bind_result_Ok.
  apply bind_result_Ok in H as (sp & Hsp & H).
  apply bind_result_Ok in H as (sv & Hsv & H).
  apply bind_result_Ok in H as (n & Hn & H).
  exists n, e, sv.
  destruct (String.eqb sp Split_inference).
  - apply bind_result_Ok in H as (x & Hx & [= <-]).
    eexists. split_and!; [done | reflexivity | right; by eexists].
  - injection H as <-. exists []. split_and!; [done | by rewrite app_nil_r | by left].
Qed.

Lemma make_record_succeeds self record_id prob emb e sp sv :
  self !! "epoch"%string = Some e →
  self !! "split"%string = Some (PyStr sp) →
  Split_by_name sp = Some sv →
  (sp = Split_inference → is_Some (self !! "inference_name"%string)) →
  prob ≠ [] →
  ∃ record, record_of self record_id prob emb = Ok record.
Proof.
  intros He Hsp Hsv Hinf Hprob.
  unfold make_record, getattr.
  rewrite He, Hsp. simpl. rewrite Hsv. simpl.
  destruct prob as [|x rest]; [done |]. simpl.
  destruct (String.eqb_spec sp Split_inference) as [Heq|_]; [| by eexists].
  destruct (Hinf Heq) as [x' ->]. simpl. by eexists.
Qed.

Lemma append_record_columns data record_id e sv emb pcell n tail :
  (tail = [] ∨ ∃ x, tail = [("inference_name"%string, x)]) →
  let data' := append_record data
    ([("id", PyInt record_id); ("epoch", e); ("split", PyStr sv);
      ("emb", PyVec emb); ("prob", pcell); ("pred", PyInt n);
      ("data_schema_version", PyInt data_schema_version)]%string ++ tail) in
  column data' "prob" = column data "prob" ++ [pcell] ∧
  column data' "pred" = column data "pred" ++ [PyInt n].
Proof.
  intros [->|[x ->]]; unfold append_record, column; simpl;
    split; by simplify_map_eq.
Qed.

Lemma add_rows_columns self rows : ∀ data data',
  rows_into self rows data = Ok data' →
  column data' "prob" = column data "prob" ++ map (λ r, prob_cell r.1.2) rows ∧
  ∃ preds, Forall2 (λ r n, np_argmax r.1.2 = Ok n) rows preds ∧
    column data' "pred" = column data "pred" ++ map (λ n, PyInt (Z.of_nat n)) preds.
Proof.
  induction rows as [|[[record_id prob] emb] rest IH]; intros data data'; simpl.
  - intros [= <-]. rewrite !app_nil_r. split; [done |]. exists []. by rewrite app_nil_r.
  - intros (record & Hrec & Hrest)%bind_result_Ok.
    apply make_record_Ok in Hrec as (n & e & sv & tail & Hn & -> & Htail).
    destruct (append_record_columns data record_id e sv emb (prob_cell prob)
                (Z.of_nat n) tail Htail) as [Hp Hq].
    destruct (IH _ _ Hrest) as (Hprob & preds & Hall & Hpred).
    rewrite Hprob, Hp, <- app_assoc. split; [done |].
    exists (n :: preds). split; [by constructor |].
    by rewrite Hpred, Hq, <- app_assoc.
Qed.

Lemma add_rows_succeeds self rows e sp sv :
  self !! "epoch"%string = Some e →
  self !! "split"%string = Some (PyStr sp) →
  Split_by_name sp = Some sv →
  (sp = Split_inference → is_Some (self !! "inference_name"%string)) →
  Forall (λ r, r.1.2 ≠ []) rows →
  ∀ data, ∃ data', rows_into self rows data = Ok data'.
Proof.
  intros He Hsp Hsv Hinf. induction 1 as [|[[record_id prob] emb] rest Hprob _ IH];
    intros data; simpl; [by eexists |].
  destruct (make_record_succeeds self record_id prob emb e sp sv) as [record ->];
    [done .. |]. simpl. apply IH.
Qed.

Lemma zip3_lookup {A B C} (l1 : list A) (l2 : list B) (l3 : list C) i a b c :
  l1 !! i = Some a → l2 !! i = Some b → l3 !! i = Some c →
  zip3 l1 l2 l3 !! i = Some (a, b, c).
Proof.
  revert l2 l3 i. induction l1 as [|x l1 IH]; intros [|y l2] [|z l3] [|i]; simpl;
    try done.
  - by intros [= ->] [= ->] [= ->].
  - apply IH.
Qed.

Lemma zip3_probs_Forall {A C} (P : list float → Prop)
    (l1 : list A) (l2 : list (list float)) (l3 : list C) :
  Forall P l2 → Forall (λ r, P r.1.2) (zip3 l1 l2 l3).
Proof.
  intros H. revert l1 l3. induction H as [|y l2 Hy _ IH]; intros [|x l1] [|z l3];
    simpl; try constructor; [done | apply IH].
Qed.

End LoggerFacts.

(** C9. An assignment [self.key = value] on a TextClassificationModelLogger
    raises [AttributeError] when [key] is not one of embs, probs, logits, ids,
    split, epoch, inference_name, and stores the value when it is; so a run of
    assignments, in [__init__] or after it, goes through exactly when all its
    keys are in the list.  The base class, whose [__setattr__] the listed keys
    reach, is taken to store them. *)
Theorem setattr_accepts_exactly_valid_attributes
    (base_setattr : string → pyval → gmap string pyval → result (gmap string pyval))
    (key : string) (value : pyval) (self : gmap string pyval) :
  (∀ k v (o : gmap string pyval),
     k ∈ TextClassificationModelLogger.get_valid_attributes →
     base_setattr k v o = Ok (<[k := v]> o)) →
  TextClassificationModelLogger.get_valid_attributes
    = ["embs"; "probs"; "logits"; "ids"; "split"; "epoch"; "inference_name"]%string ∧
  (key ∉ TextClassificationModelLogger.get_valid_attributes →
     TextClassificationModelLogger.__setattr__ base_setattr key value self
       = Raise AttributeError) ∧
  (key ∈ TextClassificationModelLogger.get_valid_attributes →
     TextClassificationModelLogger.__setattr__ base_setattr key value self
       = Ok (<[key := value]> self)) ∧
  (∀ assignments,
     is_ok (TextClassificationModelLogger.assign_all base_setattr assignments self) = true
     ↔ Forall (λ kv, kv.1 ∈ TextClassificationModelLogger.get_valid_attributes) assignments).
Proof.
  intros Hbase. split_and!.
  - reflexivity.
  - intros Hkey. unfold TextClassificationModelLogger.__setattr__.
    by rewrite bool_decide_eq_true_2.
  - intros Hkey. unfold TextClassificationModelLogger.__setattr__.
    rewrite bool_decide_eq_false_2 by (by intros ?). by apply Hbase.
  - intros assignments. revert self.
    induction assignments as [|[k v] rest IH]; intros self; simpl.
    + split; [constructor | done].
    + unfold TextClassificationModelLogger.__setattr__.
      destruct (decide (k ∈ TextClassificationModelLogger.get_valid_attributes)) as [Hk|Hk].
      * rewrite bool_decide_eq_false_2 by (by intros ?). rewrite (Hbase _ _ _ Hk). simpl.
        rewrite IH. split; [by constructor | by inversion 1].
      * rewrite bool_decide_eq_true_2 by done. simpl.
        split; [done | by inversion 1].
Qed.

Lemma setattr_accepts_exactly_valid_attributes_witness :
  TextClassificationModelLogger.__setattr__ (λ k v o, Ok (<[k := v]> o))
    "labels" (PyInts [1%Z]) ∅ = Raise AttributeError
  ∧ TextClassificationModelLogger.__setattr__ (λ k v o, Ok (<[k := v]> o))
      "epoch" (PyInt 3) ∅ = Ok {[ "epoch"%string := PyInt 3 ]}.
Proof.
  pose proof (setattr_accepts_exactly_valid_attributes (λ k v o, Ok (<[k := v]> o))) as H.
  split.
  - refine (proj1 (proj2 (H "labels"%string (PyInts [1%Z]) ∅ (λ _ _ _ _, eq_refl))) _).
    intros Hin. exact (bool_decide_pack _ Hin).
  - refine (proj1 (proj2 (proj2 (H "epoch"%string (PyInt 3) ∅ (λ _ _ _ _, eq_refl)))) _).
    apply (bool_decide_unpack _). exact I.
Defined.

(** C10. In the data dict the logger builds, a row whose probability vector
    has the single element [x] gets the two-class vector [[x; 1 - x]] as its
    [prob], and as its [pred] the argmax of the one-element original: [0],
    whatever [x] is. *)
Theorem binary_rows_get_pred_zero
    (Split_by_name : string → option string) (Split_inference : string)
    (data_schema_version : Z) (self : gmap string pyval)
    (ids : list Z) (probs embs : list (list float)) (e : pyval) (sp sv : string) :
  self !! "ids"%string = Some (PyInts ids) →
  self !! "probs"%string = Some (PyMat probs) →
  self !! "embs"%string = Some (PyMat embs) →
  self !! "epoch"%string = Some e →
  self !! "split"%string = Some (PyStr sp) →
  Split_by_name sp = Some sv →
  (sp = Split_inference → is_Some (self !! "inference_name"%string)) →
  Forall (λ prob, prob ≠ []) probs →
  ∃ data,
    TextClassificationModelLogger._get_data_dict
      Split_by_name Split_inference data_schema_version self = Ok data ∧
    ∀ i x, i < length ids → i < length embs → probs !! i = Some [x] →
      column data "prob" !! i = Some (PyVec [x; PrimFloat.sub 1 x]) ∧
      column data "pred" !! i = Some (PyInt 0).
Proof.
  intros Hids Hprobs Hembs He Hsp Hsv Hinf Hne.
  unfold TextClassificationModelLogger._get_data_dict,
    TextClassificationModelLogger.getattr.
  rewrite Hids, Hprobs, Hembs. simpl.
  destruct (add_rows_succeeds Split_by_name Split_inference data_schema_version
              self (TextClassificationModelLogger.zip3 ids probs embs) e sp sv
              He Hsp Hsv Hinf (zip3_probs_Forall _ _ _ _ Hne) ∅) as [data Hdata].
  exists data. split; [done |]. intros i x Hi Hi' Hx.
  destruct (add_rows_columns _ _ _ _ _ _ _ Hdata) as (Hprob & preds & Hall & Hpred).
  destruct (lookup_lt_is_Some_2 ids i Hi) as [record_id Hid].
  destruct (lookup_lt_is_Some_2 embs i Hi') as [emb Hemb].
  pose proof (zip3_lookup _ _ _ _ _ _ _ Hid Hx Hemb) as Hrow.
  unfold column in Hprob, Hpred. rewrite lookup_empty in Hprob, Hpred. simpl in *.
  unfold column. rewrite Hprob, Hpred, !list_lookup_fmap, Hrow. simpl.
  split; [done |].
  destruct (Forall2_lookup_l _ _ _ _ _ Hall Hrow) as (n & -> & Hn).
  simpl in Hn. by injection Hn as <-.
Qed.

Lemma binary_rows_get_pred_zero_witness :
  ∃ data,
    TextClassificationModelLogger._get_data_dict
      (λ name, if String.eqb name "train" then Some "training"%string else None)
      "inference" 1
      {[ "ids"%string := PyInts [7%Z]; "probs"%string := PyMat [[0.25%float]];
         "embs"%string := PyMat [[1.0%float]]; "epoch"%string := PyInt 0;
         "split"%string := PyStr "train" ]} = Ok data ∧
    ∀ i x, i < 1 → i < 1 → [[0.25%float]] !! i = Some [x] →
      column data "prob" !! i = Some (PyVec [x; PrimFloat.sub 1 x]) ∧
      column data "pred" !! i = Some (PyInt 0).
Proof.
  apply (binary_rows_get_pred_zero _ "inference" 1 _ [7%Z] [[0.25%float]] [[1.0%float]]
           (PyInt 0) "train" "training").
  - reflexivity.
  - reflexivity.
  - reflexivity.
  - reflexivity.
  - reflexivity.
  - reflexivity.
  - discriminate.
  - repeat constructor. discriminate.
Defined.

(** ** The token probability extractor *)

Lemma mapM_result_Ok {A B} (f : A → result B) l bs :
  mapM_result f l = Ok bs →
  length bs = length l ∧
  ∀ i a, l !! i = Some a → ∃ b, f a = Ok b ∧ bs !! i = Some b.
Proof.
  revert bs. induction l as [|a rest IH]; simpl; intros bs.
  - intros [= <-]. split; [done | by intros []].
  - intros (b & Hb & H)%bind_result_Ok.
    apply bind_result_Ok in H as (bs' & Hbs' & [= <-]).
    destruct (IH _ Hbs') as [Hlen Hlook]. split; [simpl; by rewrite Hlen |].
    intros [|i] a'; simpl; [intros [= <-]; by exists b | apply Hlook].
Qed.

Lemma mapM_result_succeeds {A B} (f : A → result B) l :
  Forall (λ a, ∃ b, f a = Ok b) l → ∃ bs, mapM_result f l = Ok bs.
Proof.
  induction 1 as [|a rest [b Hb] _ [bs Hbs]]; simpl; [by eexists |].
  rewrite Hb. simpl. rewrite Hbs. simpl. by eexists.
Qed.

Section ExtractorFacts.

Variable fexp fln : float → float.
Variable decode : nat → string.
Variable vocab_size : nat.
Variable TOP_K : nat.

Local Abbreviation logprob_at := (token_logprob fexp fln decode vocab_size TOP_K).
Local Abbreviation extract := (extract_row fexp fln decode vocab_size TOP_K).

Lemma token_logprob_succeeds logits token :
  length logits = vocab_size → token < vocab_size →
  ∃ x, logprob_at logits token = Ok x.
Proof.
  intros Hlen Htok. unfold token_logprob.
  rewrite (proj2 (Nat.eqb_eq _ _) Hlen), (proj2 (Nat.ltb_lt _ _) Htok).
  simpl. destruct logits as [|x rest]; [simpl in *; lia |]. simpl. by eexists.
Qed.

Lemma extract_row_Ok logits token_ids lps tops :
  extract PadRight logits token_ids = Ok (lps, tops) →
  length lps = length token_ids ∧ length tops = length token_ids ∧
  ∀ i, i < length token_ids →
    ∃ l t x, logits !! i = Some l ∧ token_ids !! i = Some t ∧
             logprob_at l t = Ok x ∧
             lps !! i = Some x.1 ∧ tops !! i = Some x.2.
Proof.
  unfold extract_row, remove_padding.
  destruct (Nat.ltb_spec (length logits) (length token_ids)) as [|Hlen]; [done |].
  intros (per_token & Hper & [= <- <-])%bind_result_Ok.
  apply mapM_result_Ok in Hper as [Hl Hlook].
  rewrite length_zip, length_take in Hl.
  rewrite !length_map. split_and!; [lia | lia |].
  intros i Hi.
  destruct (lookup_lt_is_Some_2 logits i) as [l Hli]; [lia |].
  destruct (lookup_lt_is_Some_2 token_ids i Hi) as [t Hti].
  destruct (Hlook i (l, t)) as (x & Hx & Hxi).
  { apply lookup_zip_Some. simpl. by rewrite lookup_take_lt. }
  exists l, t, x. rewrite !list_lookup_fmap, Hxi. done.
Qed.

Lemma extract_row_padding logits logits' token_ids :
  length token_ids ≤ length logits →
  take (length token_ids) logits' = take (length token_ids) logits →
  extract PadRight logits' token_ids = extract PadRight logits token_ids.
Proof.
  intros Hlen Htake. unfold extract_row, remove_padding. rewrite Htake.
  assert (Hlen' : length token_ids ≤ length logits').
  { apply (f_equal length) in Htake. rewrite !length_take in Htake. lia. }
  apply Nat.ltb_ge in Hlen, Hlen'. by rewrite Hlen, Hlen'.
Qed.

Lemma extract_row_succeeds logits token_ids :
  length token_ids ≤ length logits →
  Forall (λ l, length l = vocab_size) (take (length token_ids) logits) →
  Forall (λ t, t < vocab_size) token_ids →
  ∃ lps tops, extract PadRight logits token_ids = Ok (lps, tops).
Proof.
  intros Hlen Hshape Htok. unfold extract_row, remove_padding.
  apply Nat.ltb_ge in Hlen. rewrite Hlen.
  destruct (mapM_result_succeeds (λ lt, logprob_at lt.1 lt.2)
              (zip (take (length token_ids) logits) token_ids)) as [per Hper].
  - apply Forall_lookup_2. intros i [l t] [Hl Ht]%lookup_zip_Some. simpl in *.
    apply token_logprob_succeeds.
    + by eapply (Forall_lookup_1 _ _ _ _ Hshape).
    + by eapply (Forall_lookup_1 _ _ _ _ Htok).
  - simpl. rewrite Hper. simpl. by eexists _, _.
Qed.

End ExtractorFacts.



(** ** The batched generation driver *)

Section DriverFacts.

Context {Row Out G : Type}.
Variable generate_on_batch : G → list Row → result (list Out) * G.
Variable B : nat.
Hypothesis B_pos : 0 < B.

Lemma slices_concat m : ∀ rows : list Row,
  length rows ≤ m * B →
  concat (map (λ k, take B (drop (k * B) rows)) (seq 0 m)) = rows.
Proof.
  induction m as [|m IH]; intros rows Hlen; simpl.
  - destruct rows; [done | simpl in Hlen; lia].
  - rewrite <- seq_shift, map_map.
    rewrite (map_ext _ (λ k, take B (drop (k * B) (drop B rows)))).
    + rewrite IH; [apply take_drop |]. rewrite length_drop. lia.
    + intros k. by rewrite drop_drop.
Qed.

Lemma num_batches_bounds n :
  let m := (n + B - 1) / B in n ≤ m * B ∧ (∀ k, k < m → k * B < n).
Proof.
  simpl. pose proof (Nat.div_mod_eq (n + B - 1) B) as Hdm.
  pose proof (Nat.mod_upper_bound (n + B - 1) B ltac:(lia)) as Hmod.
  split; [nia |]. intros k Hk. nia.
Qed.

Lemma batches_concat (rows : list Row) : concat (batches B rows) = rows.
Proof. unfold batches. apply slices_concat, num_batches_bounds. Qed.

Lemma batches_lookup (rows : list Row) k b :
  batches B rows !! k = Some b →
  b = take B (drop (k * B) rows) ∧ 0 < length b ≤ B ∧
  (S k < length (batches B rows) → length b = B).
Proof.
  unfold batches. rewrite list_lookup_fmap, length_map, length_seq.
  destruct (seq 0 _ !! k) as [k'|] eqn:Hk; [| done]. simpl. intros [= <-].
  apply lookup_seq in Hk as [-> Hk]. simpl in *.
  destruct (num_batches_bounds (length rows)) as [_ Hlt].
  pose proof (Hlt k Hk) as Hkn.
  rewrite length_take, length_drop. split_and!; [done | lia .. |].
  intros HSk. pose proof (Hlt (S k) HSk). simpl in *. lia.
Qed.

Lemma run_batches_rowwise (f : Row → Out) :
  (∀ g b, ∃ g', generate_on_batch g b = (Ok (map f b), g')) →
  ∀ bs g start, ∃ g', run_batches generate_on_batch g start bs
                      = (Ok (map f (concat bs)), g').
Proof.
  intros Hgen. induction bs as [|b rest IH]; intros g start; simpl; [by eexists |].
  destruct (Hgen g b) as [g1 ->].
  destruct (IH g1 (start + length b)) as [g2 ->].
  exists g2. by rewrite map_app.
Qed.

Lemma run_batches_length :
  (∀ g b out g', generate_on_batch g b = (Ok out, g') → length out = length b) →
  ∀ bs g start outs g', run_batches generate_on_batch g start bs = (Ok outs, g') →
    length outs = length (concat bs).
Proof.
  intros Hgen. induction bs as [|b rest IH]; intros g start outs g'; simpl.
  - by intros [= <- _].
  - destruct (generate_on_batch g b) as [[out|e] g1] eqn:Hb; [| done].
    destruct (run_batches _ g1 _ rest) as [[outs'|e] g2] eqn:Hrest; [| done].
    intros [= <- _]. rewrite !length_app.
    by rewrite (Hgen _ _ _ _ Hb), (IH _ _ _ _ Hrest).
Qed.

End DriverFacts.

(** A capability that answers row by row and keeps, as its state, the list
    of the batches it was called with: the driver calls it once per batch,
    in the order of the batches. *)
Lemma run_batches_call_log {Row Out : Type} (f : Row → Out) (bs : list (list Row)) :
  ∀ (log : list (list Row)) start,
    run_batches (λ log b, (Ok (map f b), log ++ [b])) log start bs
    = (Ok (map f (concat bs)), log ++ bs).
Proof.
  induction bs as [|b rest IH]; intros log start; simpl.
  - by rewrite app_nil_r.
  - rewrite IH. by rewrite map_app, <- app_assoc.
Qed.

(** C6. With a batch size [B > 0] the driver cuts the [N] rows into the
    contiguous slices [rows[k*B : (k+1)*B]], all of size [B] but possibly the
    last, none empty, which put end to end give back the rows; it calls the
    capability once per batch, in that order.  What it returns has one row
    per input row, and when the capability answers each batch row by row the
    result is those answers in the order of the input. *)
Theorem driver_preserves_order {Row Out G : Type}
    (generate_on_batch : G → list Row → result (list Out) * G)
    (B : nat) (g : G) (rows : list Row) :
  0 < B →
  concat (batches B rows) = rows ∧
  (∀ k b, batches B rows !! k = Some b →
     b = take B (drop (k * B) rows) ∧ 0 < length b ≤ B ∧
     (S k < length (batches B rows) → length b = B)) ∧
  (∀ (f : Row → Out) (log : list (list Row)),
     add_generated_output (λ log b, (Ok (map f b), log ++ [b])) B log rows
     = (Ok (map f rows), log ++ batches B rows)) ∧
  (∀ f : Row → Out,
     (∀ g b, ∃ g', generate_on_batch g b = (Ok (map f b), g')) →
     ∃ g', add_generated_output generate_on_batch B g rows = (Ok (map f rows), g')) ∧
  ((∀ g b out g', generate_on_batch g b = (Ok out, g') → length out = length b) →
   ∀ outs g', add_generated_output generate_on_batch B g rows = (Ok outs, g') →
     length outs = length rows).
Proof.
  intros HB. split_and!.
  - by apply batches_concat.
  - intros k b. by apply batches_lookup.
  - intros f log. unfold add_generated_output.
    by rewrite run_batches_call_log, batches_concat.
  - intros f Hgen. unfold add_generated_output.
    destruct (run_batches_rowwise generate_on_batch f Hgen (batches B rows) g 0) as [g' ->].
    exists g'. by rewrite batches_concat.
  - intros Hgen outs g' Hrun. unfold add_generated_output in Hrun.
    rewrite (run_batches_length generate_on_batch Hgen _ _ _ _ _ Hrun).
    by rewrite batches_concat.
Qed.

Lemma driver_preserves_order_witness :
  ∃ g', add_generated_output (λ (g : nat) (b : list nat), (Ok (map S b), S g))
          2 0 [10; 20; 30; 40; 50] = (Ok (map S [10; 20; 30; 40; 50]), g').
Proof.
  refine (proj1 (proj2 (proj2 (proj2 (driver_preserves_order
            (λ (g : nat) (b : list nat), (Ok (map S b), S g)) 2 0 [10; 20; 30; 40; 50] _))))
            S _).
  - lia.
  - intros g b. by exists (S g).
Defined.

(** * Further properties of the code *)

(** ** The masking read on the values of the logits *)

Lemma less_irrefl a : Np.less a a = false.
Proof.
  destruct (Np.less a a) eqn:H; [| done]. by rewrite (less_asym _ _ H) in H.
Qed.

Lemma item_lookup (v : list float) i x : v !! i = Some x → Np.item v i = x.
Proof. unfold Np.item. rewrite nth_lookup. by intros ->. Qed.

(** X1. Whatever the sort does with ties, the result is fixed on every
    entry that does not tie with the prediction: a logit that sorts above
    the predicted one becomes [0], one that sorts below it is kept, and so is
    the predicted one; no entry ever takes a value other than [0] or its
    own. *)
Theorem masking_by_value
    (argsort : list float → list nat) (h : heap) (l : loc) (v : list float) (p : Z) :
  h !! l = Some (vector v) →
  Np.argsort_ok v (argsort v) = true →
  (0 ≤ p < Z.of_nat (length v))%Z →
  ∃ out,
    convert_spacy_ner_logits_to_valid_logits argsort l p h
      = (Ok l, <[l := vector out]> h) ∧
    length out = length v ∧
    out !! Z.to_nat p = v !! Z.to_nat p ∧
    ∀ i x, v !! i = Some x →
      (out !! i = Some zero ∨ out !! i = Some x) ∧
      (Np.less x (Np.item v (Z.to_nat p)) = true → out !! i = Some x) ∧
      (Np.less (Np.item v (Z.to_nat p)) x = true → out !! i = Some zero).
Proof.
  intros Hl Hok Hp.
  destruct (valid_logits_spec argsort v p Hok Hp) as (k & out & Hk & Hout & Hlen & Hv).
  exists out. split_and!; [| done | by apply (Hv k) |].
  { rewrite (convert_vector argsort h l v p Hl), Hout. unfold vector. by rewrite Hlen. }
  intros i x Hx.
  assert (Hi : i < length v) by (by eapply lookup_lt_Some).
  pose proof (proj2 (order_elem argsort v i Hok) Hi) as [j Hj]%list_elem_of_lookup.
  destruct (Hv j i Hj) as [Hbefore Hafter].
  pose proof (item_lookup v i x Hx) as Hitem.
  split_and!.
  - destruct (decide (j < k)); [left; by apply Hbefore | right].
    rewrite Hafter by lia. done.
  - intros Hless. rewrite <- Hitem in Hless. rewrite Hafter; [done |].
    destruct (decide (k ≤ j)); [done |]. exfalso.
    assert (Hjk : j < k) by lia.
    pose proof (order_descending argsort v j k _ _ Hok Hjk Hj Hk) as Hd. congruence.
  - intros Hless. rewrite <- Hitem in Hless. apply Hbefore.
    destruct (decide (j < k)); [done |]. exfalso.
    destruct (decide (j = k)) as [->|Hne].
    + rewrite Hk in Hj. injection Hj as <-. by rewrite less_irrefl in Hless.
    + assert (Hkj : k < j) by lia.
      pose proof (order_descending argsort v k j _ _ Hok Hkj Hk Hj) as Hd. congruence.
Qed.

Lemma masking_by_value_witness :
  ∃ out,
    convert_spacy_ner_logits_to_valid_logits Np.argsort 1%positive 2
      {[ 1%positive := vector scenario_E ]}
    = (Ok 1%positive, <[1%positive := vector out]> {[ 1%positive := vector scenario_E ]}) ∧
    length out = length scenario_E ∧
    out !! Z.to_nat 2 = scenario_E !! Z.to_nat 2 ∧
    ∀ i x, scenario_E !! i = Some x →
      (out !! i = Some zero ∨ out !! i = Some x) ∧
      (Np.less x (Np.item scenario_E (Z.to_nat 2)) = true → out !! i = Some x) ∧
      (Np.less (Np.item scenario_E (Z.to_nat 2)) x = true → out !! i = Some zero).
Proof.
  apply (masking_by_value Np.argsort {[ 1%positive := vector scenario_E ]}
           1%positive scenario_E 2).
  - reflexivity.
  - reflexivity.
  - simpl. lia.
Defined.

(** X2. When the predicted logit does not sort below [0], the prediction is
    a maximum of the masked vector: nothing in the result sorts above it.
    When it does sort below [0], every logit that sorted above it has become
    a [0] that still sorts above it. *)
Theorem masked_prediction_maximal
    (argsort : list float → list nat) (v out : list float) (p : Z) :
  Np.argsort_ok v (argsort v) = true →
  (0 ≤ p < Z.of_nat (length v))%Z →
  valid_logits argsort v p = Ok out →
  (Np.less (Np.item v (Z.to_nat p)) zero = false →
     ∀ i, i < length v →
       Np.less (Np.item out (Z.to_nat p)) (Np.item out i) = false) ∧
  (Np.less (Np.item v (Z.to_nat p)) zero = true →
     ∀ i, i < length v →
       Np.less (Np.item v (Z.to_nat p)) (Np.item v i) = true →
       Np.item out i = zero ∧
       Np.less (Np.item out (Z.to_nat p)) (Np.item out i) = true).
Proof.
  intros Hok Hp Hout.
  destruct (valid_logits_spec argsort v p Hok Hp) as (k & out' & Hk & Hout' & Hlen & Hv).
  rewrite Hout in Hout'. injection Hout' as <-.
  assert (Hpp : Np.item out (Z.to_nat p) = Np.item v (Z.to_nat p)).
  { apply item_lookup_eq. by apply (Hv k). }
  rewrite Hpp. split.
  - intros Hnonneg i Hi.
    pose proof (proj2 (order_elem argsort v i Hok) Hi) as [j Hj]%list_elem_of_lookup.
    destruct (Hv j i Hj) as [Hbefore Hafter].
    destruct (decide (j < k)) as [Hjk|Hjk].
    + by rewrite (item_lookup out i zero (Hbefore Hjk)).
    + rewrite (item_lookup_eq v out i) by (apply Hafter; lia).
      destruct (decide (j = k)) as [->|Hne].
      * rewrite Hk in Hj. injection Hj as <-. apply less_irrefl.
      * apply (order_descending argsort v k j _ _ Hok); [lia | done | done].
  - intros Hneg i Hi Hless.
    pose proof (proj2 (order_elem argsort v i Hok) Hi) as [j Hj]%list_elem_of_lookup.
    destruct (Hv j i Hj) as [Hbefore Hafter].
    assert (Hjk : j < k).
    { destruct (decide (j < k)); [done |]. exfalso.
      destruct (decide (j = k)) as [->|Hne].
      - rewrite Hk in Hj. injection Hj as <-. by rewrite less_irrefl in Hless.
      - assert (Hkj : k < j) by lia.
        pose proof (order_descending argsort v k j _ _ Hok Hkj Hk Hj). congruence. }
    by rewrite (item_lookup out i zero (Hbefore Hjk)).
Qed.

Lemma masked_prediction_maximal_witness :
  Np.less (Np.item scenario_E (Z.to_nat 2)) zero = false ∧
  ∀ i, i < length scenario_E →
    Np.less (Np.item scenario_E_masked (Z.to_nat 2)) (Np.item scenario_E_masked i) = false.
Proof.
  split; [reflexivity |].
  refine (proj1 (masked_prediction_maximal Np.argsort scenario_E scenario_E_masked 2 _ _ _) _).
  - reflexivity.
  - simpl. lia.
  - reflexivity.
  - reflexivity.
Defined.

(** X3. A prediction whose logit sorts strictly above every other logit
    leaves the array, and with it the whole store, exactly as it was. *)
Theorem masking_noop_on_strict_maximum
    (argsort : list float → list nat) (h : heap) (l : loc) (v : list float) (p : Z) :
  h !! l = Some (vector v) →
  Np.argsort_ok v (argsort v) = true →
  (0 ≤ p < Z.of_nat (length v))%Z →
  (∀ i x, v !! i = Some x → i ≠ Z.to_nat p →
     Np.less x (Np.item v (Z.to_nat p)) = true) →
  convert_spacy_ner_logits_to_valid_logits argsort l p h = (Ok l, h).
Proof.
  intros Hl Hok Hp Hmax.
  destruct (masking_by_value argsort h l v p Hl Hok Hp) as (out & -> & Hlen & Hpp & Hall).
  assert (out = v) as ->.
  { apply list_eq. intros i. destruct (v !! i) as [x|] eqn:Hx.
    - destruct (decide (i = Z.to_nat p)) as [->|Hne]; [congruence |].
      apply (Hall i x Hx). by apply (Hmax i).
    - apply lookup_ge_None. apply lookup_ge_None in Hx. lia. }
  by rewrite insert_id.
Qed.

Lemma masking_noop_on_strict_maximum_witness :
  convert_spacy_ner_logits_to_valid_logits Np.argsort 1%positive 0
    {[ 1%positive := vector scenario_E ]}
  = (Ok 1%positive, {[ 1%positive := vector scenario_E ]}).
Proof.
  apply (masking_noop_on_strict_maximum Np.argsort {[ 1%positive := vector scenario_E ]}
           1%positive scenario_E 0).
  - reflexivity.
  - reflexivity.
  - simpl. lia.
  - intros [|[|[|i]]] x Hx Hne; simpl in Hx; try done; injection Hx as <-; reflexivity.
Defined.

(** ** [convert_spacy_ents_for_doc_to_predictions] *)

Lemma list_index_Ok labels x n :
  list_index labels x = Ok n →
  labels !! n = Some x ∧ ∀ j, j < n → labels !! j ≠ Some x.
Proof.
  revert n. induction labels as [|y rest IH]; simpl; intros n; [done |].
  destruct (String.eqb_spec y x) as [->|Hne].
  - intros [= <-]. split; [done | intros; lia].
  - intros (n' & Hn' & ->)%fmap_result_Ok. destruct (IH _ Hn') as [Hl Hfirst].
    split; [done |]. intros [|j] Hj; simpl; [congruence | apply Hfirst; lia].
Qed.

Lemma list_index_elem labels x : x ∈ labels → ∃ n, list_index labels x = Ok n.
Proof.
  induction labels as [|y rest IH]; [by intros ?%elem_of_nil |]. simpl.
  destruct (String.eqb_spec y x) as [_|Hne]; [by exists 0 |].
  intros [->|Hin]%elem_of_cons; [done |].
  destruct (IH Hin) as [n ->]. by exists (S n).
Qed.

Lemma list_index_Raise labels x : x ∉ labels → list_index labels x = Raise ValueError.
Proof.
  induction labels as [|y rest IH]; [done |]. simpl.
  intros [Hne Hin]%not_elem_of_cons.
  destruct (String.eqb_spec y x) as [->|_]; [done |]. by rewrite IH.
Qed.

Lemma mapM_result_Raise {A B} (f : A → result B) l e :
  mapM_result f l = Raise e → ∃ a, a ∈ l ∧ f a = Raise e.
Proof.
  induction l as [|a rest IH]; simpl; [done |].
  destruct (f a) as [b|e'] eqn:Ha; simpl.
  - destruct (mapM_result f rest) as [bs|e''] eqn:Hrest; simpl; [done |].
    intros [= ->]. destruct (IH eq_refl) as (a' & Hin & Ha'). exists a'.
    split; [by right | done].
  - intros [= ->]. exists a. split; [by left | done].
Qed.

(** X4. When the conversion of spaCy entities to predictions returns, it
    returns one list per doc, as long as the doc's BILUO tag sequence, and
    each number in it is the position in [labels] of the tag it stands for,
    the first position should the tag occur twice: reading [labels] at the
    prediction gives the tag back. *)
Theorem ents_predictions_index_the_tags {Doc : Type}
    (ents : Doc → list Ent)
    (offsets_to_biluo_tags : Doc → list (nat * nat * string) → result (list string))
    (docs : list Doc) (labels : list string) (prediction_indices : list (list nat)) :
  convert_spacy_ents_for_doc_to_predictions ents offsets_to_biluo_tags docs labels
    = Ok prediction_indices →
  length prediction_indices = length docs ∧
  ∀ d doc, docs !! d = Some doc →
    ∃ tags row,
      offsets_to_biluo_tags doc
        (map (λ ent, (start_char ent, end_char ent, label_ ent)) (ents doc)) = Ok tags ∧
      prediction_indices !! d = Some row ∧
      length row = length tags ∧
      ∀ t tag, tags !! t = Some tag →
        ∃ ix, row !! t = Some ix ∧ labels !! ix = Some tag ∧
              ∀ j, j < ix → labels !! j ≠ Some tag.
Proof.
  intros [Hlen Hrows]%mapM_result_Ok. split; [done |].
  intros d doc Hdoc. destruct (Hrows d doc Hdoc) as (row & Hrow & Hd).
  apply bind_result_Ok in Hrow as (tags & Htags & Hrow).
  apply mapM_result_Ok in Hrow as [Hlen' Hixs].
  exists tags, row. split_and!; [done .. |].
  intros t tag Ht. destruct (Hixs t tag Ht) as (ix & Hix & Hrt).
  exists ix. split; [done |]. by apply list_index_Ok.
Qed.

Lemma ents_predictions_index_the_tags_witness :
  length [[2; 0]] = length [tt] ∧
  ∀ d doc, [tt] !! d = Some doc →
    ∃ tags row,
      (λ (_ : unit) (_ : list (nat * nat * string)), Ok ["U-PER"; "O"]%string) doc
        (map (λ ent, (start_char ent, end_char ent, label_ ent))
             ((λ _ : unit, [ {| start_char := 0; end_char := 3; label_ := "PER" |} ]) doc))
      = Ok tags ∧
      [[2; 0]] !! d = Some row ∧
      length row = length tags ∧
      ∀ t tag, tags !! t = Some tag →
        ∃ ix, row !! t = Some ix ∧ ["O"; "B-PER"; "U-PER"]%string !! ix = Some tag ∧
              ∀ j, j < ix → ["O"; "B-PER"; "U-PER"]%string !! j ≠ Some tag.
Proof.
  apply (ents_predictions_index_the_tags
           (λ _ : unit, [ {| start_char := 0; end_char := 3; label_ := "PER" |} ])
           (λ _ _, Ok ["U-PER"; "O"]%string) [tt] ["O"; "B-PER"; "U-PER"]%string [[2; 0]]).
  reflexivity.
Defined.

(** X5. The conversion returns exactly when spaCy tags every doc and every
    tag it gives is in [labels]; when spaCy tags every doc and the conversion
    still fails, a tag was outside [labels] (such as the ["-"] spaCy gives a
    misaligned token) and the error is [ValueError]. *)
Theorem ents_predictions_need_known_tags {Doc : Type}
    (ents : Doc → list Ent)
    (offsets_to_biluo_tags : Doc → list (nat * nat * string) → result (list string))
    (docs : list Doc) (labels : list string) :
  (is_ok (convert_spacy_ents_for_doc_to_predictions ents offsets_to_biluo_tags docs labels)
     = true
   ↔ Forall (λ doc, ∃ tags,
        offsets_to_biluo_tags doc
          (map (λ ent, (start_char ent, end_char ent, label_ ent)) (ents doc)) = Ok tags ∧
        Forall (λ tag, tag ∈ labels) tags) docs) ∧
  (Forall (λ doc, ∃ tags,
        offsets_to_biluo_tags doc
          (map (λ ent, (start_char ent, end_char ent, label_ ent)) (ents doc)) = Ok tags) docs →
   is_ok (convert_spacy_ents_for_doc_to_predictions ents offsets_to_biluo_tags docs labels)
     = false →
   convert_spacy_ents_for_doc_to_predictions ents offsets_to_biluo_tags docs labels
     = Raise ValueError).
Proof.
  unfold convert_spacy_ents_for_doc_to_predictions. split.
  - split.
    + destruct (mapM_result _ docs) as [out|e] eqn:Hout; [intros _ | done].
      apply mapM_result_Ok in Hout as [_ Hrows].
      apply Forall_lookup_2. intros d doc Hdoc.
      destruct (Hrows d doc Hdoc) as (row & Hrow & _).
      apply bind_result_Ok in Hrow as (tags & Htags & Hrow).
      exists tags. split; [done |].
      apply mapM_result_Ok in Hrow as [_ Hixs].
      apply Forall_lookup_2. intros t tag Ht.
      destruct (Hixs t tag Ht) as (ix & Hix & _).
      apply list_index_Ok in Hix as [Hix _]. by eapply list_elem_of_lookup_2.
    + intros Hall.
      destruct (mapM_result_succeeds
                  (λ doc, pred_output ← offsets_to_biluo_tags doc
                      (map (λ ent, (start_char ent, end_char ent, label_ ent)) (ents doc));
                    mapM_result (λ tok_pred, list_index labels tok_pred) pred_output) docs)
        as [out ->]; [| done].
      eapply Forall_impl; [exact Hall |]. intros doc (tags & -> & Htags). simpl.
      apply mapM_result_succeeds.
      eapply Forall_impl; [exact Htags |]. intros tag Htag. by apply list_index_elem.
  - intros Htagged.
    destruct (mapM_result _ docs) as [out|e] eqn:Hout; [done | intros _].
    f_equal. apply mapM_result_Raise in Hout as (doc & Hdoc & Hraise).
      rewrite Forall_forall in Htagged. destruct (Htagged doc Hdoc) as [tags Htags].
      rewrite Htags in Hraise. simpl in Hraise.
      apply mapM_result_Raise in Hraise as (tag & _ & Hraise).
      destruct (decide (tag ∈ labels)) as [Hin|Hin].
      * destruct (list_index_elem labels tag Hin) as [n Hn]. congruence.
      * rewrite (list_index_Raise labels tag Hin) in Hraise. congruence.
Qed.

(** ** The data dict of the text-classification logger, column by column *)

Lemma append_record_column data record k :
  NoDup record.*1 →
  column (TextClassificationModelLogger.append_record data record) k
  = column data k ++ option_list ((list_to_map record : gmap string pyval) !! k).
Proof.
  unfold TextClassificationModelLogger.append_record, column.
  revert data. induction record as [|[k0 x0] rest IH]; intros data; simpl.
  - intros _. by rewrite lookup_empty, app_nil_r.
  - intros [Hk0 Hnd]%NoDup_cons. rewrite (IH _ Hnd).
    destruct (decide (k = k0)) as [->|Hne].
    + rewrite !lookup_insert_eq. simpl.
      rewrite (not_elem_of_list_to_map_1 (M := gmap string)) by done. simpl.
      by rewrite app_nil_r.
    + by rewrite !lookup_insert_ne by done.
Qed.

Lemma append_record_dom data record k :
  is_Some (TextClassificationModelLogger.append_record data record !! k)
  ↔ is_Some (data !! k) ∨ k ∈ record.*1.
Proof.
  unfold TextClassificationModelLogger.append_record.
  revert data. induction record as [|[k0 x0] rest IH]; intros data; simpl.
  - rewrite elem_of_nil. tauto.
  - rewrite IH, elem_of_cons. destruct (decide (k = k0)) as [->|Hne].
    + rewrite lookup_insert_eq. split; [intros _; by right; left | intros _; by left].
    + rewrite lookup_insert_ne by done. tauto.
Qed.

Lemma cell_of_is_Some v e sv inf row n row' n' k :
  is_Some (cell_of v e sv inf row n k) → is_Some (cell_of v e sv inf row' n' k).
Proof.
  unfold cell_of. repeat (destruct (String.eqb k _); [intros _; by eexists |]). done.
Qed.

(** One key of a record built by nested inserts: either it is [k], or the
    comparison of [k] with it is false. *)
Ltac lookup_record_key k :=
  let Hk := fresh "Hk" in
  rewrite lookup_insert; case_decide as Hk;
  [subst k; reflexivity
  |apply String.eqb_neq in Hk; rewrite String.eqb_sym in Hk; rewrite Hk; clear Hk].

Section DataDictFacts.

Import TextClassificationModelLogger.

Variable Split_by_name : string → option string.
Variable Split_inference : string.
Variable data_schema_version : Z.

Local Abbreviation mk_record :=
  (make_record Split_by_name Split_inference data_schema_version).
Local Abbreviation add_all :=
  (add_rows Split_by_name Split_inference data_schema_version).

Lemma make_record_cells self record_id prob emb record e sp :
  self !! "epoch"%string = Some e →
  self !! "split"%string = Some (PyStr sp) →
  mk_record self record_id prob emb = Ok record →
  ∃ sv n,
    Split_by_name sp = Some sv ∧ np_argmax prob = Ok n ∧ NoDup record.*1 ∧
    ∀ k, (list_to_map record : gmap string pyval) !! k
         = cell_of data_schema_version e sv (if String.eqb sp Split_inference
                         then self !! "inference_name"%string else None)
             (record_id, prob, emb) n k.
Proof.
  intros He Hsp. unfold make_record, getattr. rewrite He, Hsp. simpl.
  destruct (Split_by_name sp) as [sv|]; [| done]. simpl.
  destruct (np_argmax prob) as [n|]; [| done]. simpl.
  destruct (String.eqb sp Split_inference).
  - destruct (self !! "inference_name"%string) as [x|]; [| done]. simpl.
    intros [= <-]. exists sv, n. split_and!; [done | done | by apply (bool_decide_unpack _) |].
    intros k. unfold cell_of, prob_cell. simpl.
    repeat lookup_record_key k.
    by rewrite lookup_empty.
  - intros [= <-]. exists sv, n. split_and!; [done | done | by apply (bool_decide_unpack _) |].
    intros k. unfold cell_of, prob_cell. simpl.
    repeat lookup_record_key k.
    rewrite lookup_empty. by destruct (String.eqb k "inference_name").
Qed.

Lemma add_rows_all_columns self rows e sp sv :
  self !! "epoch"%string = Some e →
  self !! "split"%string = Some (PyStr sp) →
  Split_by_name sp = Some sv →
  ∀ data data',
    add_all self rows data = Ok data' →
    ∃ preds,
      Forall2 (λ r n, np_argmax r.1.2 = Ok n) rows preds ∧
      ∀ k, column data' k
           = column data k
             ++ omap (λ rn, cell_of data_schema_version e sv
                              (if String.eqb sp Split_inference
                               then self !! "inference_name"%string else None)
                              rn.1 rn.2 k)
                     (zip rows preds).
Proof.
  intros He Hsp Hsv.
  induction rows as [|[[record_id prob] emb] rest IH]; intros data data'; simpl.
  - intros [= <-]. exists []. split; [constructor |]. intros k. by rewrite app_nil_r.
  - intros (record & Hrec & Hrest)%bind_result_Ok.
    destruct (make_record_cells self record_id prob emb record e sp He Hsp Hrec)
      as (sv' & n & Hsv' & Hn & Hnd & Hcells).
    assert (sv' = sv) as -> by congruence.
    destruct (IH _ _ Hrest) as (preds & Hall & Hcols).
    exists (n :: preds). split; [by constructor |].
    intros k. rewrite Hcols, (append_record_column _ _ _ Hnd), Hcells, <- app_assoc.
    simpl. by destruct (cell_of _ _ _ _ _ _ _).
Qed.

Lemma add_rows_dom self rows e sp sv :
  self !! "epoch"%string = Some e →
  self !! "split"%string = Some (PyStr sp) →
  Split_by_name sp = Some sv →
  ∀ data data' k,
    add_all self rows data = Ok data' →
    is_Some (data' !! k) →
    is_Some (data !! k)
    ∨ (rows ≠ [] ∧
       ∀ row n, is_Some (cell_of data_schema_version e sv
                  (if String.eqb sp Split_inference
                   then self !! "inference_name"%string else None) row n k)).
Proof.
  intros He Hsp Hsv.
  induction rows as [|[[record_id prob] emb] rest IH]; intros data data' k; simpl.
  - intros [= <-]. by left.
  - intros (record & Hrec & Hrest)%bind_result_Ok Hk.
    destruct (make_record_cells self record_id prob emb record e sp He Hsp Hrec)
      as (sv' & n & Hsv' & Hn & Hnd & Hcells).
    assert (sv' = sv) as -> by congruence.
    destruct (IH _ _ _ Hrest Hk) as [Hin|[_ Hcell]].
    + apply append_record_dom in Hin as [Hin|Hin]; [by left | right].
      split; [done |]. intros row n'.
      apply list_elem_of_fmap in Hin as ([k' x] & -> & Hin). simpl.
      apply (elem_of_list_to_map_1 (M := gmap string)) in Hin; [| done].
      rewrite Hcells in Hin. eapply cell_of_is_Some. by rewrite Hin.
    + right. by split.
Qed.

Lemma zip3_length {A B C} (l1 : list A) (l2 : list B) (l3 : list C) :
  length (zip3 l1 l2 l3) = (length l1 `min` length l2) `min` length l3.
Proof.
  revert l2 l3. induction l1 as [|x l1 IH]; intros [|y l2] [|z l3]; simpl; try lia.
  rewrite IH. lia.
Qed.

Lemma zip3_lookup_Some {A B C} (l1 : list A) (l2 : list B) (l3 : list C) i r :
  zip3 l1 l2 l3 !! i = Some r →
  l1 !! i = Some r.1.1 ∧ l2 !! i = Some r.1.2 ∧ l3 !! i = Some r.2.
Proof.
  revert l2 l3 i. induction l1 as [|x l1 IH]; intros [|y l2] [|z l3] [|i]; simpl;
    try done.
  - by intros [= <-].
  - apply IH.
Qed.

Lemma zip3_fmap {A B C} (l1 : list A) (l2 : list B) (l3 : list C) :
  let n := (length l1 `min` length l2) `min` length l3 in
  (λ r, r.1.1) <$> zip3 l1 l2 l3 = take n l1 ∧
  (λ r, r.1.2) <$> zip3 l1 l2 l3 = take n l2 ∧
  (λ r, r.2) <$> zip3 l1 l2 l3 = take n l3.
Proof.
  revert l2 l3. induction l1 as [|x l1 IH]; intros [|y l2] [|z l3]; simpl;
    rewrite ?take_0, ?take_nil; try done.
  destruct (IH l2 l3) as (H1 & H2 & H3). simpl in *. by rewrite <- H1, <- H2, <- H3.
Qed.

Lemma omap_zip_fst {A B C} (f : A → C) (l : list A) (l' : list B) :
  length l = length l' → omap (λ rn, Some (f rn.1)) (zip l l') = f <$> l.
Proof.
  revert l'. induction l as [|a l IH]; intros [|b l']; simpl; try done.
  intros [=]. by rewrite IH.
Qed.

Lemma omap_zip_snd {A B C} (f : B → C) (l : list A) (l' : list B) :
  length l = length l' → omap (λ rn, Some (f rn.2)) (zip l l') = f <$> l'.
Proof.
  revert l'. induction l as [|a l IH]; intros [|b l']; simpl; try done.
  intros [=]. by rewrite IH.
Qed.

Lemma omap_zip_const {A B C} (x : C) (l : list A) (l' : list B) :
  length l = length l' → omap (λ _, Some x) (zip l l') = replicate (length l) x.
Proof.
  revert l'. induction l as [|a l IH]; intros [|b l']; simpl; try done.
  intros [=]. by rewrite IH.
Qed.

Lemma omap_zip_None {A B C} (l : list A) (l' : list B) :
  omap (λ _, @None C) (zip l l') = [].
Proof. revert l'. induction l as [|a l IH]; intros [|b l']; simpl; try done. Qed.

End DataDictFacts.

Section DataDictTheorems.

Import TextClassificationModelLogger.

Variable Split_by_name : string → option string.
Variable Split_inference : string.
Variable data_schema_version : Z.

Local Abbreviation get_data_dict :=
  (_get_data_dict Split_by_name Split_inference data_schema_version).

(** What [_get_data_dict] returns, in terms of the rows it zipped. *)
Lemma get_data_dict_columns self ids probs embs e sp data :
  self !! "ids"%string = Some (PyInts ids) →
  self !! "probs"%string = Some (PyMat probs) →
  self !! "embs"%string = Some (PyMat embs) →
  self !! "epoch"%string = Some e →
  self !! "split"%string = Some (PyStr sp) →
  get_data_dict self = Ok data →
  (zip3 ids probs embs = [] ∧ data = ∅)
  ∨ ∃ sv preds,
      zip3 ids probs embs ≠ [] ∧
      Split_by_name sp = Some sv ∧
      Forall2 (λ r n, np_argmax r.1.2 = Ok n) (zip3 ids probs embs) preds ∧
      (∀ k, column data k
            = omap (λ rn, cell_of data_schema_version e sv
                            (if String.eqb sp Split_inference
                             then self !! "inference_name"%string else None)
                            rn.1 rn.2 k)
                   (zip (zip3 ids probs embs) preds)) ∧
      (∀ k, is_Some (data !! k) →
            ∀ row n, is_Some (cell_of data_schema_version e sv
                       (if String.eqb sp Split_inference
                        then self !! "inference_name"%string else None) row n k)).
Proof.
  intros Hids Hprobs Hembs He Hsp.
  unfold _get_data_dict, getattr. rewrite Hids, Hprobs, Hembs. simpl.
  destruct (zip3 ids probs embs) as [|[[record_id prob] emb] rest] eqn:Hrows.
  { simpl. intros [= <-]. by left. }
  intros Hdata. right.
  assert (∃ sv, Split_by_name sp = Some sv) as [sv Hsv].
  { simpl in Hdata. apply bind_result_Ok in Hdata as (record & Hrec & _).
    destruct (make_record_cells Split_by_name Split_inference data_schema_version
                self record_id prob emb record e sp He Hsp Hrec) as (sv & _ & Hsv & _).
    by exists sv. }
  destruct (add_rows_all_columns Split_by_name Split_inference data_schema_version
              self _ e sp sv He Hsp Hsv _ _ Hdata) as (preds & Hall & Hcols).
  exists sv, preds. split_and!; [done | done | done | |].
  - intros k. rewrite Hcols. unfold column at 1. by rewrite lookup_empty.
  - intros k Hk.
    destruct (add_rows_dom Split_by_name Split_inference data_schema_version
                self _ e sp sv He Hsp Hsv _ _ k Hdata Hk) as [Hin|[_ Hcell]]; [| done].
    rewrite lookup_empty in Hin. by destruct Hin.
Qed.

End DataDictTheorems.

(** X6. In the data dict the logger builds, every column has as many cells
    as the shortest of ids, probs and embs: rows beyond that are dropped
    without an error.  The [id], [emb] and [prob] columns hold the first
    rows of the inputs in their order, and [epoch] and [split] repeat the
    logger's epoch and the value of its split. *)
Theorem data_dict_columns_aligned
    (Split_by_name : string → option string) (Split_inference : string)
    (data_schema_version : Z) (self : gmap string pyval)
    (ids : list Z) (probs embs : list (list float)) (e : pyval) (sp : string)
    (data : gmap string (list pyval)) :
  self !! "ids"%string = Some (PyInts ids) →
  self !! "probs"%string = Some (PyMat probs) →
  self !! "embs"%string = Some (PyMat embs) →
  self !! "epoch"%string = Some e →
  self !! "split"%string = Some (PyStr sp) →
  TextClassificationModelLogger._get_data_dict
    Split_by_name Split_inference data_schema_version self = Ok data →
  let n := (length ids `min` length probs) `min` length embs in
  column data "id" = PyInt <$> take n ids ∧
  column data "emb" = PyVec <$> take n embs ∧
  column data "prob" = prob_cell <$> take n probs ∧
  column data "epoch" = replicate n e ∧
  (∀ sv, Split_by_name sp = Some sv → column data "split" = replicate n (PyStr sv)) ∧
  column data "data_schema_version" = replicate n (PyInt data_schema_version) ∧
  length (column data "pred") = n.
Proof.
  intros Hids Hprobs Hembs He Hsp Hdata n.
  pose proof (zip3_length ids probs embs) as Hlen.
  destruct (zip3_fmap ids probs embs) as (Hf1 & Hf2 & Hf3).
  fold n in Hlen, Hf1, Hf2, Hf3.
  destruct (get_data_dict_columns _ _ _ _ _ _ _ _ _ _ Hids Hprobs Hembs He Hsp Hdata)
    as [[Hrows ->]|(sv & preds & _ & Hsv & Hall & Hcols & _)].
  - rewrite Hrows in Hlen, Hf1, Hf2, Hf3. simpl in Hlen.
    rewrite <- Hf1, <- Hf2, <- Hf3, <- Hlen. unfold column. rewrite !lookup_empty.
    by split_and!.
  - pose proof (Forall2_length _ _ _ Hall) as Hlp. rewrite Hlen in Hlp.
    rewrite !Hcols. unfold cell_of. simpl. split_and!.
    + rewrite (omap_zip_fst (λ r, PyInt r.1.1)) by lia.
      by rewrite <- Hf1, <- list_fmap_compose.
    + rewrite (omap_zip_fst (λ r, PyVec r.2)) by lia.
      by rewrite <- Hf3, <- list_fmap_compose.
    + rewrite (omap_zip_fst (λ r, prob_cell r.1.2)) by lia.
      by rewrite <- Hf2, <- list_fmap_compose.
    + rewrite omap_zip_const by lia. by rewrite Hlen.
    + intros sv' Hsv'. assert (sv' = sv) as -> by congruence.
      rewrite omap_zip_const by lia. by rewrite Hlen.
    + rewrite omap_zip_const by lia. by rewrite Hlen.
    + rewrite (omap_zip_snd (λ n, PyInt (Z.of_nat n))) by lia.
      rewrite length_fmap. lia.
Qed.

Lemma data_dict_columns_aligned_witness :
  let n := (length [7%Z; 8%Z] `min` length [[0.25%float]])
           `min` length [[1.0%float]; [2.0%float]] in
  column example_data "id" = PyInt <$> take n [7%Z; 8%Z] ∧
  column example_data "emb" = PyVec <$> take n [[1.0%float]; [2.0%float]] ∧
  column example_data "prob" = prob_cell <$> take n [[0.25%float]] ∧
  column example_data "epoch" = replicate n (PyInt 3) ∧
  (∀ sv, example_Split "train" = Some sv →
         column example_data "split" = replicate n (PyStr sv)) ∧
  column example_data "data_schema_version" = replicate n (PyInt 1) ∧
  length (column example_data "pred") = n.
Proof.
  apply (data_dict_columns_aligned example_Split "inference" 1 example_logger
           [7%Z; 8%Z] [[0.25%float]] [[1.0%float]; [2.0%float]] (PyInt 3) "train").
  - reflexivity.
  - reflexivity.
  - reflexivity.
  - reflexivity.
  - reflexivity.
  - reflexivity.
Defined.

(** X7. The data dict has an [inference_name] column exactly when the
    logger's split is the inference split and there is at least one row; the
    column then repeats the logger's inference name once per row.  On any
    other split the key is absent, whatever [inference_name] the logger
    holds. *)
Theorem data_dict_inference_name
    (Split_by_name : string → option string) (Split_inference : string)
    (data_schema_version : Z) (self : gmap string pyval)
    (ids : list Z) (probs embs : list (list float)) (e : pyval) (sp : string)
    (data : gmap string (list pyval)) :
  self !! "ids"%string = Some (PyInts ids) →
  self !! "probs"%string = Some (PyMat probs) →
  self !! "embs"%string = Some (PyMat embs) →
  self !! "epoch"%string = Some e →
  self !! "split"%string = Some (PyStr sp) →
  TextClassificationModelLogger._get_data_dict
    Split_by_name Split_inference data_schema_version self = Ok data →
  let n := (length ids `min` length probs) `min` length embs in
  (sp ≠ Split_inference → data !! "inference_name"%string = None) ∧
  (sp = Split_inference → 0 < n →
     ∃ name, self !! "inference_name"%string = Some name ∧
             data !! "inference_name"%string = Some (replicate n name)).
Proof.
  intros Hids Hprobs Hembs He Hsp Hdata n.
  pose proof (zip3_length ids probs embs) as Hlen. fold n in Hlen.
  destruct (get_data_dict_columns _ _ _ _ _ _ _ _ _ _ Hids Hprobs Hembs He Hsp Hdata)
    as [[Hrows ->]|(sv & preds & Hne & Hsv & Hall & Hcols & Hdom)].
  - rewrite Hrows in Hlen. simpl in Hlen. split; [by rewrite lookup_empty | lia].
  - pose proof (Forall2_length _ _ _ Hall) as Hlp. rewrite Hlen in Hlp. split.
    + intros Hsplit. apply String.eqb_neq in Hsplit.
      destruct (data !! "inference_name"%string) as [col|] eqn:Hcol; [| done].
      destruct (Hdom "inference_name"%string (mk_is_Some _ _ Hcol) (0%Z, [], []) 0) as [x Hx].
      rewrite Hsplit in Hx. by vm_compute in Hx.
    + intros -> Hn. specialize (Hcols "inference_name"%string).
      rewrite String.eqb_refl in Hcols. unfold cell_of in Hcols. simpl in Hcols.
      destruct (self !! "inference_name"%string) as [name|] eqn:Hname.
      * exists name. split; [done |].
        rewrite omap_zip_const in Hcols by lia. rewrite Hlen in Hcols.
        unfold column in Hcols. destruct (data !! "inference_name"%string) as [col|] eqn:Hcol.
        -- simpl in Hcols. by rewrite Hcols.
        -- simpl in Hcols. destruct n; [lia | done].
      * exfalso.
        destruct (TextClassificationModelLogger.zip3 ids probs embs)
          as [|[[record_id prob] emb] rest] eqn:Hrows; [done |].
        unfold TextClassificationModelLogger._get_data_dict,
          TextClassificationModelLogger.getattr in Hdata.
        rewrite Hids, Hprobs, Hembs in Hdata. simpl in Hdata. rewrite Hrows in Hdata.
        simpl in Hdata. apply bind_result_Ok in Hdata as (record & Hrec & _).
        unfold TextClassificationModelLogger.make_record,
          TextClassificationModelLogger.getattr in Hrec.
        rewrite He, Hsp in Hrec. simpl in Hrec. rewrite Hsv in Hrec. simpl in Hrec.
        destruct (np_argmax prob); [| done]. simpl in Hrec.
        rewrite String.eqb_refl, Hname in Hrec. done.
Qed.

Lemma data_dict_inference_name_witness :
  example_data !! "inference_name"%string = None.
Proof.
  refine (proj1 (data_dict_inference_name example_Split "inference" 1 example_logger
            [7%Z; 8%Z] [[0.25%float]] [[1.0%float]; [2.0%float]] (PyInt 3) "train"
            example_data _ _ _ _ _ _) _).
  - reflexivity.
  - reflexivity.
  - reflexivity.
  - reflexivity.
  - reflexivity.
  - reflexivity.
  - discriminate.
Defined.

Lemma zip3_nil_iff {A B C} (l1 : list A) (l2 : list B) (l3 : list C) :
  TextClassificationModelLogger.zip3 l1 l2 l3 = [] ↔ l1 = [] ∨ l2 = [] ∨ l3 = [].
Proof.
  destruct l1, l2, l3; simpl; split; try done; try tauto;
    intros [|[|]]; done.
Qed.

(** X8. A logger with no ids, no probs or no embs gives the empty data dict
    without reading its epoch or split, so a missing epoch or an unknown
    split goes unnoticed; writing that dict then fails with [IndexError] in
    [_set_num_labels], before the base class is asked to write anything, and
    leaves the logger config as it was. *)
Theorem empty_batch_is_not_written {Out : Type}
    (Split_by_name : string → option string) (Split_inference : string)
    (data_schema_version : Z) (self : gmap string pyval)
    (ids : list Z) (probs embs : list (list float))
    (base_write_model_output : gmap string (list pyval) → Out → result Out)
    (logger_config : LoggerConfig) (out : Out) :
  self !! "ids"%string = Some (PyInts ids) →
  self !! "probs"%string = Some (PyMat probs) →
  self !! "embs"%string = Some (PyMat embs) →
  ids = [] ∨ probs = [] ∨ embs = [] →
  TextClassificationModelLogger._get_data_dict
    Split_by_name Split_inference data_schema_version self = Ok ∅ ∧
  write_model_output base_write_model_output logger_config out ∅
    = (Raise IndexError, logger_config).
Proof.
  intros Hids Hprobs Hembs Hempty%zip3_nil_iff. split; [| done].
  unfold TextClassificationModelLogger._get_data_dict,
    TextClassificationModelLogger.getattr.
  rewrite Hids, Hprobs, Hembs. simpl. by rewrite Hempty.
Qed.

Lemma empty_batch_is_not_written_witness :
  TextClassificationModelLogger._get_data_dict (λ _, None) "inference" 1
    {[ "ids"%string := PyInts []; "probs"%string := PyMat [[0.25%float]];
       "embs"%string := PyMat [[1.0%float]] ]} = Ok ∅ ∧
  write_model_output (λ _ (n : nat), Ok (S n))
    {| last_epoch := 0; observed_num_labels := 5 |} 0 ∅
    = (Raise IndexError, {| last_epoch := 0; observed_num_labels := 5 |}).
Proof.
  apply (empty_batch_is_not_written (λ _, None) "inference" 1 _ [] [[0.25%float]]
           [[1.0%float]]).
  - reflexivity.
  - reflexivity.
  - reflexivity.
  - by left.
Defined.

(** X9. Writing the data dict of a logger with at least one row sets the
    observed number of labels to the length of the first row's [prob] cell:
    [2] when the first probability vector has a single element, its length
    otherwise; the last epoch is not touched, and the base class is then
    given the same dict. *)
Theorem write_sets_observed_num_labels {Out : Type}
    (Split_by_name : string → option string) (Split_inference : string)
    (data_schema_version : Z) (self : gmap string pyval)
    (ids : list Z) (probs embs : list (list float)) (e : pyval) (sp : string)
    (data : gmap string (list pyval)) (record_id : Z) (prob0 emb0 : list float)
    (base_write_model_output : gmap string (list pyval) → Out → result Out)
    (logger_config : LoggerConfig) (out : Out) :
  self !! "ids"%string = Some (PyInts ids) →
  self !! "probs"%string = Some (PyMat probs) →
  self !! "embs"%string = Some (PyMat embs) →
  self !! "epoch"%string = Some e →
  self !! "split"%string = Some (PyStr sp) →
  ids !! 0 = Some record_id → probs !! 0 = Some prob0 → embs !! 0 = Some emb0 →
  TextClassificationModelLogger._get_data_dict
    Split_by_name Split_inference data_schema_version self = Ok data →
  write_model_output base_write_model_output logger_config out data
  = (base_write_model_output data out,
     {| last_epoch := last_epoch logger_config;
        observed_num_labels := match prob0 with [_] => 2 | _ => length prob0 end |}).
Proof.
  intros Hids Hprobs Hembs He Hsp Hid0 Hprob0 Hemb0 Hdata.
  destruct (data_dict_columns_aligned _ _ _ _ _ _ _ _ _ _ Hids Hprobs Hembs He Hsp Hdata)
    as (_ & _ & Hprob & _).
  unfold write_model_output, _set_num_labels. rewrite Hprob.
  destruct ids as [|i ids'], probs as [|p probs'], embs as [|m embs']; try done.
  simpl in *. injection Hprob0 as ->. by destruct prob0 as [|x [|y rest]].
Qed.

Lemma write_sets_observed_num_labels_witness :
  write_model_output (λ _ (n : nat), Ok (S n))
    {| last_epoch := 0; observed_num_labels := 5 |} 0 example_data
  = (Ok 1, {| last_epoch := 0; observed_num_labels := 2 |}).
Proof.
  apply (write_sets_observed_num_labels example_Split "inference" 1 example_logger
           [7%Z; 8%Z] [[0.25%float]] [[1.0%float]; [2.0%float]] (PyInt 3) "train"
           example_data 7 [0.25%float] [1.0%float]).
  - reflexivity.
  - reflexivity.
  - reflexivity.
  - reflexivity.
  - reflexivity.
  - reflexivity.
  - reflexivity.
  - reflexivity.
  - reflexivity.
Defined.

Lemma add_rows_only_ValueError
    (Split_by_name : string → option string) (Split_inference : string)
    (data_schema_version : Z) (self : gmap string pyval) rows e sp sv :
  self !! "epoch"%string = Some e →
  self !! "split"%string = Some (PyStr sp) →
  Split_by_name sp = Some sv →
  (sp = Split_inference → is_Some (self !! "inference_name"%string)) →
  ∀ data,
    (Forall (λ r, r.1.2 ≠ []) rows
     ∧ is_ok (TextClassificationModelLogger.add_rows Split_by_name Split_inference
                data_schema_version self rows data) = true)
    ∨ (Exists (λ r, r.1.2 = []) rows
       ∧ TextClassificationModelLogger.add_rows Split_by_name Split_inference
           data_schema_version self rows data = Raise ValueError).
Proof.
  intros He Hsp Hsv Hinf.
  induction rows as [|[[record_id prob] emb] rest IH]; intros data; simpl.
  - left. by split.
  - destruct prob as [|x prob'].
    + right. split; [by left |].
      unfold TextClassificationModelLogger.make_record,
        TextClassificationModelLogger.getattr.
      rewrite He, Hsp. simpl. by rewrite Hsv.
    + destruct (make_record_succeeds Split_by_name Split_inference data_schema_version
                  self record_id (x :: prob') emb e sp sv He Hsp Hsv Hinf) as [record ->];
        [done |]. simpl.
      destruct (IH (TextClassificationModelLogger.append_record data record))
        as [[Hall Hok]|[Hex Hraise]].
      * left. split; [by constructor | done].
      * right. split; [by right | done].
Qed.

(** X10. With at least one row, how [_get_data_dict] fails tells what is
    wrong: [AttributeError] for a logger without an epoch, [KeyError] for a
    split that is no name of [Split], and, these being in order,
    [ValueError] exactly when one of the zipped rows has an empty
    probability vector. *)
Theorem data_dict_failures
    (Split_by_name : string → option string) (Split_inference : string)
    (data_schema_version : Z) (self : gmap string pyval)
    (ids : list Z) (probs embs : list (list float)) :
  self !! "ids"%string = Some (PyInts ids) →
  self !! "probs"%string = Some (PyMat probs) →
  self !! "embs"%string = Some (PyMat embs) →
  ids ≠ [] → probs ≠ [] → embs ≠ [] →
  (self !! "epoch"%string = None →
     TextClassificationModelLogger._get_data_dict
       Split_by_name Split_inference data_schema_version self = Raise AttributeError) ∧
  (∀ e sp, self !! "epoch"%string = Some e → self !! "split"%string = Some (PyStr sp) →
     Split_by_name sp = None →
     TextClassificationModelLogger._get_data_dict
       Split_by_name Split_inference data_schema_version self = Raise KeyError) ∧
  (∀ e sp sv, self !! "epoch"%string = Some e → self !! "split"%string = Some (PyStr sp) →
     Split_by_name sp = Some sv →
     (sp = Split_inference → is_Some (self !! "inference_name"%string)) →
     (Exists (λ prob, prob = [])
        (take ((length ids `min` length probs) `min` length embs) probs)
      ↔ TextClassificationModelLogger._get_data_dict
          Split_by_name Split_inference data_schema_version self = Raise ValueError) ∧
     (Forall (λ prob, prob ≠ [])
        (take ((length ids `min` length probs) `min` length embs) probs)
      ↔ is_ok (TextClassificationModelLogger._get_data_dict
                 Split_by_name Split_inference data_schema_version self) = true)).
Proof.
  intros Hids Hprobs Hembs Hi Hp He'.
  unfold TextClassificationModelLogger._get_data_dict,
    TextClassificationModelLogger.getattr.
  rewrite Hids, Hprobs, Hembs. simpl.
  destruct ids as [|i ids'], probs as [|p probs'], embs as [|m embs']; try done.
  split_and!.
  - intros He. simpl. unfold TextClassificationModelLogger.make_record,
      TextClassificationModelLogger.getattr. by rewrite He.
  - intros e sp He Hsp Hsv. simpl. unfold TextClassificationModelLogger.make_record,
      TextClassificationModelLogger.getattr. rewrite He, Hsp. simpl. by rewrite Hsv.
  - intros e sp sv He Hsp Hsv Hinf.
    destruct (zip3_fmap (i :: ids') (p :: probs') (m :: embs')) as (_ & Hf2 & _).
    rewrite <- Hf2.
    set (rows := TextClassificationModelLogger.zip3 (i :: ids') (p :: probs') (m :: embs')).
    rewrite Exists_fmap, Forall_fmap.
    destruct (add_rows_only_ValueError Split_by_name Split_inference data_schema_version
                self rows e sp sv He Hsp Hsv Hinf ∅) as [[Hall Hok]|[Hex Hraise]].
    + split; split.
      * intros Hex. exfalso. apply Exists_exists in Hex as (r & Hr & Hnil).
        rewrite Forall_forall in Hall. by apply (Hall r Hr).
      * intros Hraise. rewrite Hraise in Hok. done.
      * done.
      * done.
    + rewrite Hraise. split; split.
      * done.
      * done.
      * intros Hall. exfalso. apply Exists_exists in Hex as (r & Hr & Hnil).
        rewrite Forall_forall in Hall. by apply (Hall r Hr).
      * done.
Qed.

Lemma data_dict_failures_witness :
  TextClassificationModelLogger._get_data_dict (λ _, None) "inference" 1
    {[ "ids"%string := PyInts [7%Z]; "probs"%string := PyMat [[0.25%float]];
       "embs"%string := PyMat [[1.0%float]]; "epoch"%string := PyInt 3;
       "split"%string := PyStr "training" ]} = Raise KeyError.
Proof.
  refine (proj1 (proj2 (data_dict_failures (λ _, None) "inference" 1 _
            [7%Z] [[0.25%float]] [[1.0%float]] _ _ _ _ _ _)) (PyInt 3) "training" _ _ _).
  - reflexivity.
  - reflexivity.
  - reflexivity.
  - discriminate.
  - discriminate.
  - discriminate.
  - reflexivity.
  - reflexivity.
  - reflexivity.
Defined.

(** ** [pred] is the first largest probability *)

Lemma is_nan_Prim2SF x : is_nan x = true ↔ Prim2SF x = S754_nan.
Proof.
  split.
  - intros H. unfold Prim2SF. by rewrite H.
  - intros H. unfold is_nan. rewrite FloatAxioms.eqb_spec, H. done.
Qed.

Lemma sf_ltb_rank x y :
  SFltb x y = true ↔ x ≠ S754_nan ∧ y ≠ S754_nan ∧ lex_lt (sf_rank x) (sf_rank y).
Proof.
  unfold SFltb, lex_lt.
  destruct x as [sx|sx| |sx mx ex], y as [sy|sy| |sy my ey];
    try destruct sx; try destruct sy; simpl;
    try (split; [discriminate | intros (? & ? & ?); (done || lia)]);
    try (split; [intros _; split_and!; (done || lia) | done]).
  all: change (Pos.compare_cont Eq mx my) with (Pos.compare mx my).
  all: destruct (Z.compare_spec ex ey); destruct (Pos.compare_spec mx my); simpl;
    split; try discriminate; try (intros (? & ? & ?); lia);
    try (intros _; split_and!; (done || lia)).
Qed.

Lemma sf_leb_rank x y :
  SFleb x y = true ↔ x ≠ S754_nan ∧ y ≠ S754_nan ∧ ¬ lex_lt (sf_rank y) (sf_rank x).
Proof.
  unfold SFleb, lex_lt.
  destruct x as [sx|sx| |sx mx ex], y as [sy|sy| |sy my ey];
    try destruct sx; try destruct sy; simpl;
    try (split; [discriminate | intros (? & ? & ?); (done || lia)]);
    try (split; [intros _; split_and!; (done || lia) | done]).
  all: change (Pos.compare_cont Eq mx my) with (Pos.compare mx my).
  all: destruct (Z.compare_spec ex ey); destruct (Pos.compare_spec mx my); simpl;
    split; try discriminate; try (intros (? & ? & ?); lia);
    try (intros _; split_and!; (done || lia)).
Qed.

Lemma ltb_rank x y :
  PrimFloat.ltb x y = true
  ↔ is_nan x = false ∧ is_nan y = false
    ∧ lex_lt (sf_rank (Prim2SF x)) (sf_rank (Prim2SF y)).
Proof.
  rewrite FloatAxioms.ltb_spec, sf_ltb_rank.
  rewrite <- !not_true_iff_false, !is_nan_Prim2SF. done.
Qed.

Lemma leb_rank x y :
  PrimFloat.leb x y = true
  ↔ is_nan x = false ∧ is_nan y = false
    ∧ ¬ lex_lt (sf_rank (Prim2SF y)) (sf_rank (Prim2SF x)).
Proof.
  rewrite FloatAxioms.leb_spec, sf_leb_rank.
  rewrite <- !not_true_iff_false, !is_nan_Prim2SF. done.
Qed.

Lemma argmax_from_spec (ip : list float) :
  Forall (λ x, is_nan x = false) ip →
  ∀ rest i mp max_ind,
    drop i ip = rest → max_ind < i → ip !! max_ind = Some mp →
    (∀ j x, j < i → ip !! j = Some x → PrimFloat.leb x mp = true) →
    (∀ j x, j < max_ind → ip !! j = Some x → PrimFloat.ltb x mp = true) →
    ∃ m, ip !! argmax_from mp max_ind i rest = Some m ∧
         (∀ j x, ip !! j = Some x → PrimFloat.leb x m = true) ∧
         (∀ j x, j < argmax_from mp max_ind i rest → ip !! j = Some x →
                 PrimFloat.ltb x m = true).
Proof.
  intros Hnan. induction rest as [|x rest IH]; intros i mp max_ind Hdrop Hlt Hmp Hle Hstrict.
  - simpl. exists mp. split_and!; [done | | done].
    intros j y Hy. apply (Hle j); [| done].
    apply lookup_lt_Some in Hy.
    assert (length (drop i ip) = 0) as Hl by (by rewrite Hdrop).
    rewrite length_drop in Hl. lia.
  - assert (Hxi : ip !! i = Some x).
    { rewrite <- (Nat.add_0_r i), <- lookup_drop, Hdrop. done. }
    assert (Hrest : drop (S i) ip = rest).
    { pose proof (drop_S ip x i Hxi) as HS. rewrite Hdrop in HS. by injection HS. }
    pose proof (Forall_lookup_1 _ _ _ _ Hnan Hmp) as Hmpn.
    pose proof (Forall_lookup_1 _ _ _ _ Hnan Hxi) as Hxn.
    simpl in Hmpn, Hxn. simpl. rewrite Hmpn.
    destruct (PrimFloat.leb x mp) eqn:Hxmp; simpl.
    + apply (IH (S i) mp max_ind); [done | lia | done | | done].
      intros j y Hj Hy. destruct (decide (j = i)) as [->|Hne].
      * congruence.
      * apply (Hle j); [lia | done].
    + assert (Hless : PrimFloat.ltb mp x = true).
      { apply ltb_rank. split_and!; [done | done |].
        destruct (decide (lex_lt (sf_rank (Prim2SF mp)) (sf_rank (Prim2SF x)))); [done |].
        exfalso. apply not_true_iff_false in Hxmp. apply Hxmp, leb_rank. done. }
      apply ltb_rank in Hless as (_ & _ & Hless).
      apply (IH (S i) x i); [done | lia | done | |].
      * intros j y Hj Hy. pose proof (Forall_lookup_1 _ _ _ _ Hnan Hy) as Hyn. simpl in Hyn.
        destruct (decide (j = i)) as [->|Hne].
        -- assert (y = x) as -> by congruence.
           apply leb_rank. split_and!; [done | done |]. unfold lex_lt. lia.
        -- assert (Hymp : PrimFloat.leb y mp = true) by (apply (Hle j); [lia | done]).
           apply leb_rank in Hymp as (_ & _ & Hymp).
           apply leb_rank. split_and!; [done | done |]. unfold lex_lt in *. lia.
      * intros j y Hj Hy. pose proof (Forall_lookup_1 _ _ _ _ Hnan Hy) as Hyn. simpl in Hyn.
        assert (Hymp : PrimFloat.leb y mp = true) by (apply (Hle j); [lia | done]).
        apply leb_rank in Hymp as (_ & _ & Hymp).
        apply ltb_rank. split_and!; [done | done |]. unfold lex_lt in *. lia.
Qed.

Lemma argmax_from_bound rest : ∀ mp max_ind i,
  max_ind < i → argmax_from mp max_ind i rest < i + length rest.
Proof.
  induction rest as [|x rest IH]; intros mp max_ind i Hlt; simpl; [lia |].
  destruct (is_nan mp); [lia |].
  destruct (negb (PrimFloat.leb x mp)).
  - pose proof (IH x i (S i) ltac:(lia)). lia.
  - pose proof (IH mp max_ind (S i) ltac:(lia)). lia.
Qed.

Lemma np_argmax_spec ip n :
  np_argmax ip = Ok n →
  n < length ip ∧
  (Forall (λ x, is_nan x = false) ip →
   ∃ m, ip !! n = Some m ∧
        (∀ j x, ip !! j = Some x → PrimFloat.leb x m = true) ∧
        (∀ j x, j < n → ip !! j = Some x → PrimFloat.ltb x m = true)).
Proof.
  destruct ip as [|x rest]; [done |]. simpl. intros [= <-]. split.
  - pose proof (argmax_from_bound rest x 0 1 ltac:(lia)). lia.
  - intros Hnan. apply (argmax_from_spec (x :: rest) Hnan rest 1 x 0);
      [done | lia | done | | intros; lia].
    intros [|j] y Hj Hy; [| lia]. simpl in Hy. injection Hy as <-.
    pose proof (Forall_inv Hnan) as Hx. simpl in Hx.
    apply leb_rank. split_and!; [done | done |]. unfold lex_lt. lia.
Qed.

(** X11. The [pred] of a row is a position of its probability vector; when
    the vector holds no NaN it is the position of the largest probability,
    the first one if several are equally large: no probability exceeds the
    one at [pred] and every one before it is strictly smaller. *)
Theorem pred_is_first_maximum
    (Split_by_name : string → option string) (Split_inference : string)
    (data_schema_version : Z) (self : gmap string pyval)
    (ids : list Z) (probs embs : list (list float)) (e : pyval) (sp : string)
    (data : gmap string (list pyval)) (i : nat) (prob : list float) :
  self !! "ids"%string = Some (PyInts ids) →
  self !! "probs"%string = Some (PyMat probs) →
  self !! "embs"%string = Some (PyMat embs) →
  self !! "epoch"%string = Some e →
  self !! "split"%string = Some (PyStr sp) →
  TextClassificationModelLogger._get_data_dict
    Split_by_name Split_inference data_schema_version self = Ok data →
  i < length ids → i < length embs → probs !! i = Some prob →
  ∃ k,
    column data "pred" !! i = Some (PyInt (Z.of_nat k)) ∧
    k < length prob ∧
    (Forall (λ x, is_nan x = false) prob →
     ∃ m, prob !! k = Some m ∧
          (∀ j x, prob !! j = Some x → PrimFloat.leb x m = true) ∧
          (∀ j x, j < k → prob !! j = Some x → PrimFloat.ltb x m = true)).
Proof.
  intros Hids Hprobs Hembs He Hsp Hdata Hi Hi' Hprob.
  destruct (lookup_lt_is_Some_2 ids i Hi) as [record_id Hid].
  destruct (lookup_lt_is_Some_2 embs i Hi') as [emb Hemb].
  pose proof (zip3_lookup _ _ _ _ _ _ _ Hid Hprob Hemb) as Hrow.
  destruct (get_data_dict_columns _ _ _ _ _ _ _ _ _ _ Hids Hprobs Hembs He Hsp Hdata)
    as [[Hrows _]|(sv & preds & _ & _ & Hall & Hcols & _)].
  { by rewrite Hrows in Hrow. }
  destruct (Forall2_lookup_l _ _ _ _ _ Hall Hrow) as (k & Hk & Hargmax).
  simpl in Hargmax. exists k.
  destruct (np_argmax_spec prob k Hargmax) as [Hbound Hmax].
  split_and!; [| done | done].
  rewrite Hcols. unfold cell_of. simpl.
  rewrite (omap_zip_snd (λ n, PyInt (Z.of_nat n))) by (by eapply Forall2_length).
  by rewrite list_lookup_fmap, Hk.
Qed.

Lemma pred_is_first_maximum_witness :
  ∃ k,
    column example_data "pred" !! 0 = Some (PyInt (Z.of_nat k)) ∧
    k < length [0.25%float] ∧
    (Forall (λ x, is_nan x = false) [0.25%float] →
     ∃ m, [0.25%float] !! k = Some m ∧
          (∀ j x, [0.25%float] !! j = Some x → PrimFloat.leb x m = true) ∧
          (∀ j x, j < k → [0.25%float] !! j = Some x → PrimFloat.ltb x m = true)).
Proof.
  apply (pred_is_first_maximum example_Split "inference" 1 example_logger
           [7%Z; 8%Z] [[0.25%float]] [[1.0%float]; [2.0%float]] (PyInt 3) "train"
           example_data 0 [0.25%float]).
  - reflexivity.
  - reflexivity.
  - reflexivity.
  - reflexivity.
  - reflexivity.
  - reflexivity.
  - simpl. lia.
  - simpl. lia.
  - reflexivity.
Defined.

(** ** Programs on a state: how outcomes decompose *)

Section ProgFacts.
Context {St : Type}.

Lemma pbind_Ok {A B} (c : prog St A) (k : A → prog St B) s b s' :
  pbind c k s = (Ok b, s') →
  ∃ a s1, c s = (Ok a, s1) ∧ k a s1 = (Ok b, s').
Proof.
  unfold pbind. destruct (c s) as [[a|e] s1]; simpl; [| done].
  intros Hk. by exists a, s1.
Qed.

Lemma pbind_Raise {A B} (c : prog St A) (k : A → prog St B) s e s' :
  pbind c k s = (Raise e, s') →
  c s = (Raise e, s') ∨ ∃ a s1, c s = (Ok a, s1) ∧ k a s1 = (Raise e, s').
Proof.
  unfold pbind. destruct (c s) as [[a|e1] s1]; simpl; [| intros [= -> ->]; by left].
  intros Hk. right. by exists a, s1.
Qed.

Lemma pbind_run_Ok {A B} (c : prog St A) (k : A → prog St B) s a s1 :
  c s = (Ok a, s1) → pbind c k s = k a s1.
Proof. unfold pbind. by intros ->. Qed.

Lemma pbind_run_Raise {A B} (c : prog St A) (k : A → prog St B) s e s1 :
  c s = (Raise e, s1) → pbind c k s = (Raise e, s1).
Proof. unfold pbind. by intros ->. Qed.

Lemma passert_bind_true {B} (b : bool) (k : unit → prog St B) s :
  b = true → pbind (passert b) k s = k tt s.
Proof. by intros ->. Qed.

Lemma passert_bind_false {B} (b : bool) (k : unit → prog St B) s :
  b = false → pbind (passert b) k s = (Raise AssertionError, s).
Proof. by intros ->. Qed.

Lemma plift_Ok {A} (r : result A) (s : St) a s' :
  plift r s = (Ok a, s') → r = Ok a ∧ s' = s.
Proof. unfold plift. by intros [= -> ->]. Qed.

Lemma pret_Ok {A} (x : A) (s : St) a s' :
  pret x s = (Ok a, s') → a = x ∧ s' = s.
Proof. unfold pret. by intros [= -> ->]. Qed.

Lemma passert_Ok (b : bool) (s : St) u s' :
  passert b s = (Ok u, s') → b = true ∧ s' = s.
Proof. unfold passert. destruct b; [by intros [= _ ->] | done]. Qed.

Lemma pcatch_Ok {A} (c : prog St A) handles h s a s' :
  pcatch c handles h s = (Ok a, s') →
  c s = (Ok a, s') ∨ ∃ e s1, c s = (Raise e, s1) ∧ handles e = true ∧ h s1 = (Ok a, s').
Proof.
  unfold pcatch. destruct (c s) as [[a1|e] s1]; [by left |].
  destruct (handles e) eqn:He; [by eauto 6 | done].
Qed.

Section Preserves.
Context (R : St → St → Prop) `{!PreOrder R}.

Lemma preserves_pbind {A B} (c : prog St A) (k : A → prog St B) :
  preserves R c → (∀ a, preserves R (k a)) → preserves R (pbind c k).
Proof.
  intros Hc Hk s. unfold pbind. specialize (Hc s).
  destruct (c s) as [[a|e] s1]; simpl in *; [| done].
  by etrans; [| apply Hk].
Qed.

Lemma preserves_pcatch {A} (c : prog St A) handles (h : prog St A) :
  preserves R c → preserves R h → preserves R (pcatch c handles h).
Proof.
  intros Hc Hh s. unfold pcatch. specialize (Hc s).
  destruct (c s) as [[a|e] s1]; simpl in *; [done |].
  destruct (handles e); [| done]. by etrans; [| apply Hh].
Qed.

Lemma preserves_plift {A} (r : result A) : preserves R (plift r).
Proof. by intros s. Qed.

Lemma preserves_pret {A} (a : A) : preserves R (pret a).
Proof. by intros s. Qed.

Lemma preserves_praise {A} (e : exn) : preserves R (praise (A := A) e).
Proof. by intros s. Qed.

Lemma preserves_passert (b : bool) : preserves R (passert b).
Proof. intros s. by destruct b. Qed.

End Preserves.

Lemma raises_within_pbind {A B} (E : exn → Prop) (c : prog St A) (k : A → prog St B) :
  raises_within E c → (∀ a, raises_within E (k a)) → raises_within E (pbind c k).
Proof.
  intros Hc Hk s e s' [H|(a & s1 & _ & H)]%pbind_Raise; [by eapply Hc | by eapply Hk].
Qed.

Lemma raises_within_pcatch {A} (E E' : exn → Prop) (c : prog St A) handles (h : prog St A) :
  raises_within E' c → (∀ e, E' e → handles e = false → E e) → raises_within E h →
  raises_within E (pcatch c handles h).
Proof.
  intros Hc Hsub Hh s e s'. unfold pcatch.
  destruct (c s) as [[a|e1] s1] eqn:Hcs; [done |].
  destruct (handles e1) eqn:He1.
  - by apply Hh.
  - intros [= <- <-]. apply Hsub; [by eapply Hc | done].
Qed.

Lemma raises_within_plift {A} (E : exn → Prop) (r : result A) :
  (∀ e, r = Raise e → E e) → raises_within E (plift (St := St) r).
Proof. intros Hr s e s' [= -> _]. by apply Hr. Qed.

Lemma raises_within_pret {A} (E : exn → Prop) (a : A) :
  raises_within E (pret (St := St) a).
Proof. by intros s e s'. Qed.

Lemma raises_within_praise {A} (E : exn → Prop) (e : exn) :
  E e → raises_within E (praise (St := St) (A := A) e).
Proof. by intros He s e' s' [= <- _]. Qed.

Lemma raises_within_passert (E : exn → Prop) (b : bool) :
  E AssertionError → raises_within E (passert (St := St) b).
Proof. intros He s e s'. destruct b; [done | by intros [= <- _]]. Qed.

End ProgFacts.

(** ** What the operations of [validate] do *)

Section ValidateFacts.
Variable base_setattr : string → pyval → gmap string pyval → result (gmap string pyval).
Variable _convert_tensor_ndarray : pyval → option string → result pyval.
Variable convert_logits_to_probs : pyval → result pyval.
Variable Split_by_name : string → option string.

(** The base class stores the attributes the logger lets through. *)
Hypothesis base_stores : ∀ k v (o : gmap string pyval),
  k ∈ TextClassificationModelLogger.get_valid_attributes →
  base_setattr k v o = Ok (<[k := v]> o).

Lemma read_attr_Ok name s v s' :
  read_attr name s = (Ok v, s') → vs_self s !! name = Some v ∧ s' = s.
Proof.
  unfold read_attr, TextClassificationModelLogger.getattr.
  destruct (vs_self s !! name); [by intros [= -> ->] | done].
Qed.

Lemma write_attr_valid name value s :
  name ∈ TextClassificationModelLogger.get_valid_attributes →
  write_attr base_setattr name value s
  = (Ok tt, {| vs_self := <[name := value]> (vs_self s);
               vs_logger_config := vs_logger_config s;
               vs_warnings := vs_warnings s |}).
Proof.
  intros Hname. unfold write_attr, TextClassificationModelLogger.__setattr__.
  rewrite bool_decide_eq_false_2 by (by intros ?). by rewrite base_stores.
Qed.

Lemma write_attr_Ok name value s u s' :
  name ∈ TextClassificationModelLogger.get_valid_attributes →
  write_attr base_setattr name value s = (Ok u, s') →
  s' = {| vs_self := <[name := value]> (vs_self s);
          vs_logger_config := vs_logger_config s;
          vs_warnings := vs_warnings s |}.
Proof. intros Hname. rewrite write_attr_valid by done. by intros [= _ <-]. Qed.

Lemma del_attr_Ok name s u s' :
  del_attr name s = (Ok u, s') →
  is_Some (vs_self s !! name) ∧
  s' = {| vs_self := delete name (vs_self s);
          vs_logger_config := vs_logger_config s;
          vs_warnings := vs_warnings s |}.
Proof.
  unfold del_attr. destruct (vs_self s !! name); [by intros [= _ <-]; eauto | done].
Qed.

Lemma log_with_split_Ok s u s' :
  log_with_split s = (Ok u, s') → is_Some (vs_self s !! "split"%string) ∧ s' = s.
Proof.
  unfold log_with_split.
  intros (v & s1 & [Hv ->]%read_attr_Ok & [_ ->]%pret_Ok)%pbind_Ok. eauto.
Qed.

Lemma Split_getitem_Ok x value :
  Split_getitem Split_by_name x = Ok value →
  ∃ name, x = PyStr name ∧ Split_by_name name = Some value.
Proof.
  destruct x as [| |name| | |]; simpl; try done.
  destruct (Split_by_name name) eqn:Hname; [| done]. intros [= ->]. eauto.
Qed.

End ValidateFacts.

Ltac prog_state := cbn [vs_self vs_logger_config vs_warnings] in *.

Ltac map_lookups :=
  repeat first
    [ rewrite lookup_insert_eq | rewrite lookup_insert_ne by done
    | rewrite lookup_delete_eq | rewrite lookup_delete_ne by done ].

Tactic Notation "map_lookups" "in" hyp(H) :=
  repeat first
    [ rewrite lookup_insert_eq in H | rewrite lookup_insert_ne in H by done
    | rewrite lookup_delete_eq in H | rewrite lookup_delete_ne in H by done ].

Tactic Notation "prog_read" hyp(H) "as" ident(a) ident(Ha) :=
  let s1 := fresh "s" in
  apply pbind_Ok in H as (a & s1 & Ha & H);
  apply read_attr_Ok in Ha as [Ha ->]; prog_state; map_lookups in Ha.

Tactic Notation "prog_lift" hyp(H) "as" ident(a) ident(Ha) :=
  let s1 := fresh "s" in
  apply pbind_Ok in H as (a & s1 & Ha & H);
  apply plift_Ok in Ha as [Ha ->].

Tactic Notation "prog_log" hyp(H) "as" ident(Ha) :=
  let s1 := fresh "s" in let u := fresh "u" in
  apply pbind_Ok in H as (u & s1 & Ha & H);
  apply log_with_split_Ok in Ha as [Ha ->]; prog_state; map_lookups in Ha.

Tactic Notation "prog_assert" hyp(H) "as" ident(Ha) :=
  let s1 := fresh "s" in let u := fresh "u" in
  apply pbind_Ok in H as (u & s1 & Ha & H);
  apply passert_Ok in Ha as [Ha ->].

Tactic Notation "prog_write" hyp(H) "by" constr(stores) :=
  let s1 := fresh "s" in let u := fresh "u" in let Hw := fresh "Hw" in
  apply pbind_Ok in H as (u & s1 & Hw & H);
  apply (write_attr_Ok _ stores) in Hw;
    [subst s1; prog_state | by apply (bool_decide_unpack _)].

Section ValidateOutcome.
Variable base_setattr : string → pyval → gmap string pyval → result (gmap string pyval).
Variable _convert_tensor_ndarray : pyval → option string → result pyval.
Variable convert_logits_to_probs : pyval → result pyval.
Variable Split_by_name : string → option string.

Hypothesis base_stores : ∀ k v (o : gmap string pyval),
  k ∈ TextClassificationModelLogger.get_valid_attributes →
  base_setattr k v o = Ok (<[k := v]> o).

Abbreviation validate_self :=
  (validate base_setattr _convert_tensor_ndarray convert_logits_to_probs Split_by_name).

(** Everything a successful [validate] went through. *)
Lemma validate_Ok_inv s u s' :
  validate_self s = (Ok u, s') →
  ∃ logits logits_len self1 warnings1 embs0 ids0 probs1 n embs1 ids1 name value epoch,
    vs_self s !! "logits"%string = Some logits ∧
    py_len logits = Ok logits_len ∧
    ((logits_len ≠ 0 ∧
      ∃ array, _convert_tensor_ndarray logits (Some "Prob"%string) = Ok array ∧
               convert_logits_to_probs array = Ok probs1 ∧
               self1 = delete "logits"%string
                         (<["probs"%string := probs1]>
                            (<["logits"%string := array]> (vs_self s))) ∧
               warnings1 = vs_warnings s)
     ∨ (logits_len = 0 ∧
        ∃ probs0, vs_self s !! "probs"%string = Some probs0 ∧
                  _convert_tensor_ndarray probs0 (Some "Prob"%string) = Ok probs1 ∧
                  self1 = <["probs"%string := probs1]> (vs_self s) ∧
                  warnings1 = vs_warnings s
                              ++ ["Usage of probs is deprecated, use logits instead"%string])) ∧
    vs_self s !! "embs"%string = Some embs0 ∧
    vs_self s !! "ids"%string = Some ids0 ∧
    py_len embs0 = Ok n ∧ py_len probs1 = Ok n ∧ py_len ids0 = Ok n ∧ n ≠ 0 ∧
    _convert_tensor_ndarray embs0 (Some "Embedding"%string) = Ok embs1 ∧
    py_ndim embs1 = Ok 2 ∧
    _convert_tensor_ndarray ids0 None = Ok ids1 ∧
    vs_self s !! "split"%string = Some (PyStr name) ∧
    Split_by_name name = Some value ∧
    vs_self s' = <["split"%string := PyStr value]>
                   (<["ids"%string := ids1]> (<["embs"%string := embs1]> self1)) ∧
    vs_warnings s' = warnings1 ∧
    vs_self s !! "epoch"%string = Some epoch ∧
    observed_num_labels (vs_logger_config s') = observed_num_labels (vs_logger_config s) ∧
    ((py_truthy epoch = Ok false ∧
      last_epoch (vs_logger_config s') = last_epoch (vs_logger_config s))
     ∨ (∃ e, epoch = PyInt e ∧ e ≠ 0%Z ∧
             last_epoch (vs_logger_config s')
             = Z.max (last_epoch (vs_logger_config s)) e)).
Proof.
  intros H. unfold validate in H.
  prog_log H as Hsplit.
  prog_read H as logits Hlogits.
  prog_lift H as logits_len Hlogits_len.
  apply pbind_Ok in H as (uphase & s1 & Hphase & H).
  prog_read H as embs0 Hembs0.
  prog_lift H as embs_len Hembs_len.
  prog_read H as probs1 Hprobs1.
  prog_lift H as probs_len Hprobs_len.
  prog_read H as ids0 Hids0.
  prog_lift H as ids_len Hids_len.
  prog_log H as Hsplit1.
  prog_read H as embs0' Hembs0'.
  prog_lift H as embs1 Hembs1.
  prog_write H by base_stores.
  prog_read H as ids0' Hids0'.
  prog_lift H as ids1 Hids1.
  prog_write H by base_stores.
  prog_log H as Hsplit2.
  prog_read H as embs1' Hembs1'.
  prog_lift H as ndim Hndim.
  prog_assert H as Hndim2.
  prog_assert H as Hnonzero.
  prog_assert H as Hequal.
  apply pbind_Ok in H as (utry & s2 & Htry & H).
  prog_read H as epoch Hepoch.
  prog_lift H as epoch_set Hepoch_set.
  simplify_eq.
  apply pcatch_Ok in Htry as [Htry|(e & s3 & _ & _ & Hh)]; last first.
  { by apply pbind_Ok in Hh as (? & ? & _ & Hh). }
  prog_read Htry as split Hsplit3.
  prog_lift Htry as value Hvalue.
  apply Split_getitem_Ok in Hvalue as (name & -> & Hname).
  apply (write_attr_Ok _ base_stores) in Htry; [| by apply (bool_decide_unpack _)].
  subst s2. prog_state. map_lookups in Hepoch.
  apply andb_prop in Hnonzero as [[Hn1 Hn2]%andb_prop Hn3].
  apply andb_prop in Hequal as [->%Nat.eqb_eq ->%Nat.eqb_eq].
  apply Nat.eqb_eq in Hndim2 as ->.
  apply negb_true_iff, Nat.eqb_neq in Hn3.
  clear Hn1 Hn2.
  assert (∃ self1 warnings1,
    vs_self s1 = self1 ∧ vs_warnings s1 = warnings1 ∧
    vs_logger_config s1 = vs_logger_config s ∧
    self1 !! "embs"%string = vs_self s !! "embs"%string ∧
    self1 !! "ids"%string = vs_self s !! "ids"%string ∧
    self1 !! "split"%string = vs_self s !! "split"%string ∧
    self1 !! "epoch"%string = vs_self s !! "epoch"%string ∧
    ((logits_len ≠ 0 ∧
      ∃ array, _convert_tensor_ndarray logits (Some "Prob"%string) = Ok array ∧
               convert_logits_to_probs array = Ok probs1 ∧
               self1 = delete "logits"%string
                         (<["probs"%string := probs1]>
                            (<["logits"%string := array]> (vs_self s))) ∧
               warnings1 = vs_warnings s)
     ∨ (logits_len = 0 ∧
        ∃ probs0, vs_self s !! "probs"%string = Some probs0 ∧
                  _convert_tensor_ndarray probs0 (Some "Prob"%string) = Ok probs1 ∧
                  self1 = <["probs"%string := probs1]> (vs_self s) ∧
                  warnings1 = vs_warnings s
                              ++ ["Usage of probs is deprecated, use logits instead"%string])))
    as (self1 & warnings1 & Hself1 & Hwarnings1 & Hconfig1 & Ke & Ki & Ks & Kp & Hcases).
  { destruct (logits_len =? 0) eqn:Hz; simpl in Hphase.
    - apply Nat.eqb_eq in Hz as ->.
      prog_read Hphase as probs0 Hprobs0.
      prog_lift Hphase as probs0_len Hprobs0_len.
      destruct (probs0_len =? 0) eqn:Hpz; simpl in Hphase.
      + apply pret_Ok in Hphase as [_ ->]. apply Nat.eqb_eq in Hpz as ->.
        congruence.
      + apply pbind_Ok in Hphase as (? & ? & [= _ <-] & Hphase). prog_state.
        prog_read Hphase as probs0' Hprobs0'.
        prog_lift Hphase as array Harray.
        apply (write_attr_Ok _ base_stores) in Hphase; [| by apply (bool_decide_unpack _)].
        subst s1. prog_state. map_lookups in Hprobs1. simplify_eq.
        eexists _, _. split_and!; try done; try (by map_lookups).
        right. split; [done |]. by exists probs0.
    - apply Nat.eqb_neq in Hz.
      prog_read Hphase as logits' Hlogits'.
      prog_lift Hphase as array Harray.
      prog_write Hphase by base_stores.
      prog_read Hphase as array' Harray'.
      prog_lift Hphase as probs Hprobs.
      prog_write Hphase by base_stores.
      apply del_attr_Ok in Hphase as [_ ->]. prog_state.
      map_lookups in Hprobs1. simplify_eq.
      eexists _, _. split_and!; try done; try (by map_lookups).
      left. split; [done |]. by exists array'. }
  rewrite Hself1 in *. rewrite Hwarnings1 in *. rewrite Hconfig1 in *.
  rewrite Ke in Hembs0. rewrite Ki in Hids0. rewrite Ks in Hsplit3. rewrite Kp in Hepoch.
  assert (vs_self s' = <["split"%string := PyStr value]>
                         (<["ids"%string := ids1]> (<["embs"%string := embs1']> self1)) ∧
          vs_warnings s' = warnings1 ∧
          observed_num_labels (vs_logger_config s')
          = observed_num_labels (vs_logger_config s) ∧
          ((py_truthy epoch = Ok false ∧
            last_epoch (vs_logger_config s') = last_epoch (vs_logger_config s))
           ∨ (∃ e, epoch = PyInt e ∧ e ≠ 0%Z ∧
                   last_epoch (vs_logger_config s')
                   = Z.max (last_epoch (vs_logger_config s)) e)))
    as (Hs1 & Hs2 & Hs3 & Hs4).
  { destruct epoch_set.
    - prog_read H as epoch' Hepoch'.
      prog_assert H as Hint.
      prog_read H as epoch'' Hepoch''.
      rewrite Kp in Hepoch', Hepoch''.
      assert (epoch' = epoch) as -> by congruence.
      assert (epoch'' = epoch) as -> by congruence.
      destruct epoch as [|e| | | |]; try done.
      unfold update_last_epoch in H. prog_state.
      injection Hepoch_set as He%negb_true_iff%Z.eqb_neq.
      destruct (Z.ltb_spec (last_epoch (vs_logger_config s)) e);
        injection H as _ <-; simpl; split_and!; try done;
        right; exists e; split_and!; try done; lia.
    - apply pret_Ok in H as [_ ->]. simpl. split_and!; try done. by left. }
  exists logits, logits_len, self1, warnings1, embs0, ids0, probs1, ids_len,
    embs1', ids1, name, value, epoch.
  by split_and!.
Qed.

(** *** What [validate] leaves alone, however it ends *)

#[local] Instance validate_frame_preorder : PreOrder validate_frame.
Proof.
  split.
  - intros s. by split_and!.
  - intros s1 s2 s3 (Ha & Hb & Hc & Hd) (Ha' & Hb' & Hc' & Hd'). split_and!.
    + lia.
    + congruence.
    + by etrans.
    + intros k Hk. by rewrite Hd', Hd.
Qed.

Lemma validate_frame_self s self' :
  (∀ k : string, k ∉ ["logits"; "probs"; "embs"; "ids"; "split"]%string →
     self' !! k = vs_self s !! k) →
  validate_frame s {| vs_self := self'; vs_logger_config := vs_logger_config s;
                      vs_warnings := vs_warnings s |}.
Proof. intros Hk. by split_and!. Qed.

Lemma preserves_read_attr name : preserves validate_frame (read_attr name).
Proof. by intros s. Qed.

Lemma preserves_log_with_split : preserves validate_frame log_with_split.
Proof.
  apply (preserves_pbind validate_frame); [apply preserves_read_attr |].
  intros _. apply (preserves_pret validate_frame).
Qed.

Lemma preserves_write_attr name value :
  name ∈ ["logits"; "probs"; "embs"; "ids"; "split"]%string →
  preserves validate_frame (write_attr base_setattr name value).
Proof.
  intros Hname s. rewrite write_attr_valid; [| done |].
  - simpl. apply validate_frame_self. intros k Hk.
    apply lookup_insert_ne. by intros ->.
  - repeat (apply elem_of_cons in Hname as [->|Hname];
              [by apply (bool_decide_unpack _) |]).
    by apply elem_of_nil in Hname.
Qed.

Lemma preserves_del_attr name :
  name ∈ ["logits"; "probs"; "embs"; "ids"; "split"]%string →
  preserves validate_frame (del_attr name).
Proof.
  intros Hname s. unfold del_attr. destruct (vs_self s !! name); [| done].
  simpl. apply validate_frame_self. intros k Hk.
  apply lookup_delete_ne. by intros ->.
Qed.

Lemma preserves_warn message : preserves validate_frame (warn message).
Proof.
  intros s. unfold warn. simpl. split_and!; try done. simpl. by apply prefix_app_r.
Qed.

Lemma preserves_update_last_epoch epoch :
  preserves validate_frame (update_last_epoch epoch).
Proof.
  intros s. unfold update_last_epoch.
  destruct (Z.ltb_spec (last_epoch (vs_logger_config s)) epoch); [| done].
  simpl. split_and!; try done. simpl. lia.
Qed.

Lemma validate_preserves_frame : preserves validate_frame validate_self.
Proof.
  unfold validate.
  repeat first
    [ apply preserves_log_with_split
    | apply preserves_read_attr
    | apply (preserves_plift validate_frame)
    | apply (preserves_pret validate_frame)
    | apply (preserves_praise validate_frame)
    | apply (preserves_passert validate_frame)
    | apply preserves_warn
    | apply preserves_update_last_epoch
    | apply preserves_write_attr; set_solver
    | apply preserves_del_attr; set_solver
    | apply (preserves_pcatch validate_frame)
    | apply (preserves_pbind validate_frame); [| intros ?]
    | match goal with
      | |- preserves _ (if ?b then _ else _) => destruct b
      | |- preserves _ (match ?x with PyNone => _ | _ => _ end) => destruct x
      end ].
Qed.

(** *** How [validate] can fail *)

Abbreviation validate_error :=
  (validate_raises _convert_tensor_ndarray convert_logits_to_probs).

Lemma raises_read_attr (E : exn → Prop) name :
  E AttributeError → raises_within E (read_attr name).
Proof.
  intros HE s e s'. unfold read_attr, TextClassificationModelLogger.getattr.
  destruct (vs_self s !! name); [done | by intros [= <- _]].
Qed.

Lemma raises_log_with_split (E : exn → Prop) :
  E AttributeError → raises_within E log_with_split.
Proof.
  intros HE. apply raises_within_pbind; [by apply raises_read_attr |].
  intros _. apply raises_within_pret.
Qed.

Lemma raises_write_attr (E : exn → Prop) name value :
  name ∈ TextClassificationModelLogger.get_valid_attributes →
  raises_within E (write_attr base_setattr name value).
Proof. intros Hname s e s'. by rewrite write_attr_valid. Qed.

Lemma raises_del_attr (E : exn → Prop) name :
  E AttributeError → raises_within E (del_attr name).
Proof.
  intros HE s e s'. unfold del_attr.
  destruct (vs_self s !! name); [done | by intros [= <- _]].
Qed.

Lemma raises_warn (E : exn → Prop) message : raises_within E (warn message).
Proof. by intros s e s'. Qed.

Lemma raises_update_last_epoch (E : exn → Prop) epoch :
  raises_within E (update_last_epoch epoch).
Proof. intros s e s'. unfold update_last_epoch. by case_match. Qed.

Lemma raises_py_len (E : exn → Prop) x :
  E TypeError → raises_within (St := ValidateState) E (plift (py_len x)).
Proof. intros HE. apply raises_within_plift. intros e. by destruct x; intros [= <-]. Qed.

Lemma raises_py_ndim (E : exn → Prop) x :
  E AttributeError → raises_within (St := ValidateState) E (plift (py_ndim x)).
Proof. intros HE. apply raises_within_plift. intros e. by destruct x; intros [= <-]. Qed.

Lemma raises_py_truthy (E : exn → Prop) x :
  E ValueError → raises_within (St := ValidateState) E (plift (py_truthy x)).
Proof.
  intros HE. apply raises_within_plift. intros e.
  destruct x as [| | | |xs|rows]; simpl; try done; unfold array_truthy.
  - destruct xs as [|? [|? ?]]; try done. by intros [= <-].
  - destruct (concat rows) as [|? [|? ?]]; try done. by intros [= <-].
Qed.

Lemma raises_Split_getitem (E : exn → Prop) x :
  E KeyError → E TypeError →
  raises_within (St := ValidateState) E (plift (Split_getitem Split_by_name x)).
Proof.
  intros HK HT. apply raises_within_plift. intros e.
  destruct x; simpl; try (by intros [= <-]). by case_match; [| intros [= <-]].
Qed.

Lemma raises_convert_tensor_ndarray x attr :
  raises_within (St := ValidateState) validate_error
    (plift (_convert_tensor_ndarray x attr)).
Proof. apply raises_within_plift. intros e He. right. left. eauto. Qed.

Lemma raises_convert_logits_to_probs x :
  raises_within (St := ValidateState) validate_error
    (plift (convert_logits_to_probs x)).
Proof. apply raises_within_plift. intros e He. right. right. eauto. Qed.

Lemma validate_error_own e :
  e ∈ [AttributeError; TypeError; ValueError; AssertionError] → validate_error e.
Proof. by left. Qed.

Lemma validate_raises_within : raises_within validate_error validate_self.
Proof.
  unfold validate.
  repeat first
    [ apply raises_log_with_split; apply validate_error_own; set_solver
    | apply raises_read_attr; apply validate_error_own; set_solver
    | apply raises_del_attr; apply validate_error_own; set_solver
    | apply raises_py_len; apply validate_error_own; set_solver
    | apply raises_py_ndim; apply validate_error_own; set_solver
    | apply raises_py_truthy; apply validate_error_own; set_solver
    | apply raises_convert_tensor_ndarray
    | apply raises_convert_logits_to_probs
    | apply raises_within_pret
    | apply raises_within_praise; apply validate_error_own; set_solver
    | apply raises_within_passert; apply validate_error_own; set_solver
    | apply raises_warn
    | apply raises_update_last_epoch
    | apply raises_write_attr; by apply (bool_decide_unpack _)
    | apply (raises_within_pcatch validate_error
               (λ e, validate_error e ∨ e = KeyError));
        [ repeat first
            [ apply raises_read_attr; left; apply validate_error_own; set_solver
            | apply raises_Split_getitem;
                [by right | left; apply validate_error_own; set_solver]
            | apply raises_write_attr; by apply (bool_decide_unpack _)
            | apply raises_within_pbind; [| intros ?] ]
        | by intros e [He| ->]
        | ]
    | apply raises_within_pbind; [| intros ?]
    | match goal with
      | |- raises_within _ (if ?b then _ else _) => destruct b
      | |- raises_within _ (match ?x with PyNone => _ | _ => _ end) => destruct x
      end ].
Qed.

End ValidateOutcome.

(** X12. A [validate] that returns has checked the batch: the embs and ids
    the logger held and the probs it holds now all had one length, not [0];
    embs and ids have been replaced by their conversions, the converted embs
    being two-dimensional; and the split, which was a name of [Split], has
    been replaced by that member's value.  The lengths of embs and ids are
    those measured before the conversion. *)
Theorem validate_checks_the_batch
    (base_setattr : string → pyval → gmap string pyval → result (gmap string pyval))
    (_convert_tensor_ndarray : pyval → option string → result pyval)
    (convert_logits_to_probs : pyval → result pyval)
    (Split_by_name : string → option string) (s s' : ValidateState) :
  (∀ k v (o : gmap string pyval),
     k ∈ TextClassificationModelLogger.get_valid_attributes →
     base_setattr k v o = Ok (<[k := v]> o)) →
  validate base_setattr _convert_tensor_ndarray convert_logits_to_probs Split_by_name s
    = (Ok tt, s') →
  ∃ embs0 ids0 embs1 ids1 probs1 n name value,
    vs_self s !! "embs"%string = Some embs0 ∧
    vs_self s !! "ids"%string = Some ids0 ∧
    py_len embs0 = Ok n ∧ py_len ids0 = Ok n ∧ py_len probs1 = Ok n ∧ 0 < n ∧
    _convert_tensor_ndarray embs0 (Some "Embedding"%string) = Ok embs1 ∧
    _convert_tensor_ndarray ids0 None = Ok ids1 ∧
    py_ndim embs1 = Ok 2 ∧
    vs_self s' !! "embs"%string = Some embs1 ∧
    vs_self s' !! "ids"%string = Some ids1 ∧
    vs_self s' !! "probs"%string = Some probs1 ∧
    vs_self s !! "split"%string = Some (PyStr name) ∧
    Split_by_name name = Some value ∧
    vs_self s' !! "split"%string = Some (PyStr value).
Proof.
  intros Hbase H.
  destruct (validate_Ok_inv _ _ _ _ Hbase _ _ _ H)
    as (logits & logits_len & self1 & warnings1 & embs0 & ids0 & probs1 & n & embs1
        & ids1 & name & value & epoch & Hlogits & Hlen & Hcases & Hembs & Hids & Hel
        & Hpl & Hil & Hn & Hce & Hndim & Hci & Hsplit & Hname & Hself & _).
  exists embs0, ids0, embs1, ids1, probs1, n, name, value.
  split_and!; try done; try lia; rewrite Hself; map_lookups; try done.
  destruct Hcases as [(_ & array & _ & _ & -> & _)|(_ & probs0 & _ & _ & -> & _)];
    by map_lookups.
Qed.

Lemma validate_checks_the_batch_witness :
  ∃ embs0 ids0 embs1 ids1 probs1 n name value,
    vs_self example_with_logits !! "embs"%string = Some embs0 ∧
    vs_self example_with_logits !! "ids"%string = Some ids0 ∧
    py_len embs0 = Ok n ∧ py_len ids0 = Ok n ∧ py_len probs1 = Ok n ∧ 0 < n ∧
    example_convert_tensor_ndarray embs0 (Some "Embedding"%string) = Ok embs1 ∧
    example_convert_tensor_ndarray ids0 None = Ok ids1 ∧
    py_ndim embs1 = Ok 2 ∧
    vs_self example_logits_validated !! "embs"%string = Some embs1 ∧
    vs_self example_logits_validated !! "ids"%string = Some ids1 ∧
    vs_self example_logits_validated !! "probs"%string = Some probs1 ∧
    vs_self example_with_logits !! "split"%string = Some (PyStr name) ∧
    example_Split name = Some value ∧
    vs_self example_logits_validated !! "split"%string = Some (PyStr value).
Proof.
  apply (validate_checks_the_batch example_base_setattr example_convert_tensor_ndarray
           example_convert_logits_to_probs example_Split
           example_with_logits example_logits_validated).
  - intros k v o _. reflexivity.
  - vm_compute. reflexivity.
Defined.





(** X15. However [validate] ends, it has not lowered the last epoch of the
    logger config, has not touched the observed number of labels, has only
    added to the warnings, and has changed no attribute besides logits,
    probs, embs, ids and split.  When it returns, the last epoch is the
    larger of what it was and the logger's epoch, if that is a non-zero
    integer, and is what it was if the epoch is [None], [0] or otherwise
    false; an epoch that is true and not an integer does not pass. *)
Theorem validate_last_epoch_only_grows
    (base_setattr : string → pyval → gmap string pyval → result (gmap string pyval))
    (_convert_tensor_ndarray : pyval → option string → result pyval)
    (convert_logits_to_probs : pyval → result pyval)
    (Split_by_name : string → option string) (s s' : ValidateState) (r : result unit) :
  (∀ k v (o : gmap string pyval),
     k ∈ TextClassificationModelLogger.get_valid_attributes →
     base_setattr k v o = Ok (<[k := v]> o)) →
  validate base_setattr _convert_tensor_ndarray convert_logits_to_probs Split_by_name s
    = (r, s') →
  (last_epoch (vs_logger_config s) ≤ last_epoch (vs_logger_config s'))%Z ∧
  observed_num_labels (vs_logger_config s') = observed_num_labels (vs_logger_config s) ∧
  vs_warnings s `prefix_of` vs_warnings s' ∧
  (∀ k : string, k ∉ ["logits"; "probs"; "embs"; "ids"; "split"]%string →
     vs_self s' !! k = vs_self s !! k) ∧
  (r = Ok tt →
   ∃ epoch, vs_self s !! "epoch"%string = Some epoch ∧
     ((py_truthy epoch = Ok false ∧
       last_epoch (vs_logger_config s') = last_epoch (vs_logger_config s))
      ∨ (∃ e, epoch = PyInt e ∧ e ≠ 0%Z ∧
              last_epoch (vs_logger_config s')
              = Z.max (last_epoch (vs_logger_config s)) e))).
Proof.
  intros Hbase H.
  pose proof (validate_preserves_frame base_setattr _convert_tensor_ndarray
                convert_logits_to_probs Split_by_name Hbase s) as Hframe.
  rewrite H in Hframe. destruct Hframe as (Ha & Hb & Hc & Hd).
  split_and!; try done.
  intros ->.
  destruct (validate_Ok_inv _ _ _ _ Hbase _ _ _ H)
    as (logits' & logits_len & self1 & warnings1 & embs0 & ids0 & probs1 & n & embs1
        & ids1 & name & value & epoch & _ & _ & _ & _ & _ & _
        & _ & _ & _ & _ & _ & _ & _ & _ & _ & _ & Hepoch & _ & Hlast).
  by exists epoch.
Qed.

Lemma validate_last_epoch_only_grows_witness :
  (last_epoch (vs_logger_config example_with_logits)
   ≤ last_epoch (vs_logger_config example_logits_validated))%Z ∧
  observed_num_labels (vs_logger_config example_logits_validated)
  = observed_num_labels (vs_logger_config example_with_logits) ∧
  vs_warnings example_with_logits `prefix_of` vs_warnings example_logits_validated ∧
  (∀ k : string, k ∉ ["logits"; "probs"; "embs"; "ids"; "split"]%string →
     vs_self example_logits_validated !! k = vs_self example_with_logits !! k) ∧
  (Ok tt = Ok tt →
   ∃ epoch, vs_self example_with_logits !! "epoch"%string = Some epoch ∧
     ((py_truthy epoch = Ok false ∧
       last_epoch (vs_logger_config example_logits_validated)
       = last_epoch (vs_logger_config example_with_logits))
      ∨ (∃ e, epoch = PyInt e ∧ e ≠ 0%Z ∧
              last_epoch (vs_logger_config example_logits_validated)
              = Z.max (last_epoch (vs_logger_config example_with_logits)) e))).
Proof.
  apply (validate_last_epoch_only_grows example_base_setattr
           example_convert_tensor_ndarray example_convert_logits_to_probs example_Split
           example_with_logits example_logits_validated (Ok tt)).
  - intros k v o _. reflexivity.
  - vm_compute. reflexivity.
Defined.

(** X16. An exception that leaves [validate] is an [AttributeError], a
    [TypeError], a [ValueError] or an [AssertionError], or else one that a
    converter of the base class raised: the [KeyError] of looking up a split
    that is no name of [Split] never leaves it, being turned into an
    [AssertionError].  With such a split [validate] does not return. *)
Theorem validate_exceptions
    (base_setattr : string → pyval → gmap string pyval → result (gmap string pyval))
    (_convert_tensor_ndarray : pyval → option string → result pyval)
    (convert_logits_to_probs : pyval → result pyval)
    (Split_by_name : string → option string) (s s' : ValidateState) (r : result unit) :
  (∀ k v (o : gmap string pyval),
     k ∈ TextClassificationModelLogger.get_valid_attributes →
     base_setattr k v o = Ok (<[k := v]> o)) →
  validate base_setattr _convert_tensor_ndarray convert_logits_to_probs Split_by_name s
    = (r, s') →
  (∀ e, r = Raise e →
     e ∈ [AttributeError; TypeError; ValueError; AssertionError] ∨
     (∃ x attr, _convert_tensor_ndarray x attr = Raise e) ∨
     (∃ x, convert_logits_to_probs x = Raise e)) ∧
  (∀ name, vs_self s !! "split"%string = Some (PyStr name) →
     Split_by_name name = None → is_ok r = false).
Proof.
  intros Hbase H. split.
  - intros e ->. exact (validate_raises_within _ _ _ _ Hbase _ _ _ H).
  - intros name Hsplit Hname. destruct r as [[]|e]; [| done].
    destruct (validate_Ok_inv _ _ _ _ Hbase _ _ _ H)
      as (logits' & logits_len & self1 & warnings1 & embs0 & ids0 & probs1 & n & embs1
          & ids1 & name' & value & epoch & _ & _ & _ & _ & _ & _
          & _ & _ & _ & _ & _ & _ & Hsplit' & Hname' & _).
    congruence.
Qed.

Lemma validate_exceptions_witness :
  (∀ e, @Raise unit AssertionError = Raise e →
     e ∈ [AttributeError; TypeError; ValueError; AssertionError] ∨
     (∃ x attr, example_convert_tensor_ndarray x attr = Raise e) ∨
     (∃ x, example_convert_logits_to_probs x = Raise e)) ∧
  (∀ name, vs_self example_with_bad_split !! "split"%string = Some (PyStr name) →
     example_Split name = None → is_ok (@Raise unit AssertionError) = false).
Proof.
  apply (validate_exceptions example_base_setattr
           example_convert_tensor_ndarray example_convert_logits_to_probs example_Split
           example_with_bad_split example_bad_split_rejected (Raise AssertionError)).
  - intros k v o _. reflexivity.
  - vm_compute. reflexivity.
Defined.

(** ** [finish]: what a run goes through *)

Section FinishFacts.
Import Finish.
Context {W Value JobName TaskType : Type}.
Variable observe : W → Snapshot (Value := Value) (TaskType := TaskType).
Variable respond : ∀ c : call (Value := Value) (JobName := JobName) (TaskType := TaskType),
  W → result (response c) * W.
Variable Route_jobs : string.
Variable DQ_LOG_FILE_HOME : string.
Variable JobName_inference : JobName.
Variable task_type_value : TaskType → Value.
Variable exn_str : exn → string.
Abbreviation run := (@Run W Value JobName TaskType).
Abbreviation outside_call := (@call Value JobName TaskType).
Variable check_noop : ∀ A : Type, prog run A → prog run (option A).

(** Galileo is not disabled: the decorator runs the function. *)
Hypothesis check_noop_runs : ∀ A (c : prog run A) s,
  check_noop A c s = pbind c (λ a, pret (Some a)) s.

Lemma dict_getitem_Ok {V} (d : gmap string V) k v :
  dict_getitem d k = Ok v → d !! k = Some v.
Proof. unfold dict_getitem. destruct (d !! k); [by intros [= ->] | done]. Qed.

Lemma ext_run c (s : run) r w :
  respond c (world s) = (r, w) →
  ext respond c s = (r, {| world := w; calls := calls s ++ [c] |}).
Proof. unfold ext. by intros ->. Qed.

Lemma ext_run_at c (w : W) made r w' :
  respond c w = (r, w') →
  ext respond c {| world := w; calls := made |}
  = (r, {| world := w'; calls := made ++ [c] |}).
Proof. apply (ext_run c {| world := w; calls := made |}). Qed.

Lemma ext_Ok c (s : run) r s' :
  ext respond c s = (Ok r, s') →
  ∃ w, respond c (world s) = (Ok r, w) ∧
       s' = {| world := w; calls := calls s ++ [c] |}.
Proof.
  unfold ext. destruct (respond c (world s)) as [r' w] eqn:Hc.
  intros [= -> <-]. by exists w.
Qed.

Lemma obs_Ok (s : run) o s' :
  obs observe s = (Ok o, s') → o = observe (world s) ∧ s' = s.
Proof. unfold obs. by intros [= <- <-]. Qed.

Lemma check_noop_Ok {A} (c : prog run A) s r s' :
  check_noop A c s = (Ok r, s') → ∃ a, r = Some a ∧ c s = (Ok a, s').
Proof.
  rewrite check_noop_runs. intros (a & s1 & Hc & [-> ->]%pret_Ok)%pbind_Ok. by exists a.
Qed.

Ltac run_state := cbn [world calls] in *.

Tactic Notation "run_ext" hyp(H) "as" ident(r) ident(w) ident(Hr) :=
  let s1 := fresh "s" in
  apply pbind_Ok in H as (r & s1 & Hr & H);
  apply ext_Ok in Hr as (w & Hr & ->); run_state.

Tactic Notation "run_obs" hyp(H) "as" ident(o) :=
  let s1 := fresh "s" in let Ho := fresh "Ho" in
  apply pbind_Ok in H as (o & s1 & Ho & H);
  apply obs_Ok in Ho as [-> ->]; run_state.

Tactic Notation "run_assert" hyp(H) "as" ident(Ha) :=
  let s1 := fresh "s" in let u := fresh "u" in
  apply pbind_Ok in H as (u & s1 & Ha & H);
  apply passert_Ok in Ha as [Ha ->].

Tactic Notation "run_lift" hyp(H) "as" ident(a) ident(Ha) :=
  let s1 := fresh "s" in
  apply pbind_Ok in H as (a & s1 & Ha & H);
  apply plift_Ok in Ha as [Ha ->].

#[local] Instance only_calls_preorder (P : outside_call → bool) :
  PreOrder (only_calls (W := W) P).
Proof.
  split.
  - intros s. exists []. by rewrite app_nil_r.
  - intros s1 s2 s3 (new1 & H1 & HP1) (new2 & H2 & HP2).
    exists (new1 ++ new2). split; [by rewrite H2, H1, app_assoc | by apply Forall_app].
Qed.

Lemma preserves_ext (P : outside_call → bool) c :
  P c = true → preserves (only_calls P) (ext respond c).
Proof.
  intros HP s. unfold ext. destruct (respond c (world s)) as [r w]. simpl.
  exists [c]. split; [done | by constructor].
Qed.

Lemma preserves_obs (P : outside_call → bool) : preserves (only_calls P) (obs observe).
Proof. intros s. simpl. reflexivity. Qed.

Lemma preserves_ptry {A} (R : run → run → Prop) `{!PreOrder R}
    (c : prog run A) (h : exn → prog run A) :
  preserves R c → (∀ e, preserves R (h e)) → preserves R (ptry c h).
Proof.
  intros Hc Hh s. unfold ptry. specialize (Hc s).
  destruct (c s) as [[a|e] s1]; simpl in *; [done |].
  by etrans; [| apply Hh].
Qed.

Lemma wait_for_run_Ok (s : run) r s' :
  wait_for_run respond check_noop None None s = (Ok r, s') →
  ∃ w, respond (ApiWaitForRun None None) (world s) = (Ok tt, w) ∧
       s' = {| world := w; calls := calls s ++ [ApiWaitForRun None None] |}.
Proof.
  unfold wait_for_run. intros (u & -> & H)%check_noop_Ok.
  apply (ext_Ok (ApiWaitForRun None None)) in H as (w & Hw & ->).
  exists w. by destruct u.
Qed.

(** Everything a [finish] that returns went through. *)
Lemma finish_Ok_inv last_epoch wait create_data_embs data_embs_col upload_model
    (s : run) r s' :
  finish observe respond Route_jobs DQ_LOG_FILE_HOME JobName_inference task_type_value
    exn_str check_noop last_epoch wait create_data_embs data_embs_col upload_model s
    = (Ok r, s') →
  ∃ cde logged gpu reset inference url body res job_name link model tail,
    calls s' = calls s
      ++ [LogFunction "dq/finish"] ++ gpu
      ++ [WaitForThreads; GetDataLogger; ValidateLabels; NonInferenceLogged] ++ reset
      ++ [LoggerConfigFinish; Upload last_epoch cde data_embs_col; UploadDqLogFile]
      ++ inference
      ++ [MakeRequestPost url body;
          Print ("Job " ++ job_name
                 ++ " successfully submitted. Results will be available "
                 ++ "soon at " ++ link)]
      ++ model ++ tail
      ++ [CleanupDataLogger; GetModelLogger; CleanupModelLogger] ∧
    ((create_data_embs = Some cde ∧ gpu = []) ∨
     (create_data_embs = None ∧ gpu = [GpuAvailable] ∧
      ∃ w w', respond GpuAvailable w = (Ok cde, w'))) ∧
    (∃ w w', respond NonInferenceLogged w = (Ok logged, w')) ∧
    ((logged = false ∧ reset = []) ∨
     (logged = true ∧
      ∃ project_id run_id task_type project_dir new_run_id new_run_id',
        reset = [ApiResetRun project_id run_id task_type; GetDataLogger;
                 OsRename (project_dir ++ "/" ++ py_str run_id)
                          (project_dir ++ "/" ++ py_str new_run_id);
                 OsRename (DQ_LOG_FILE_HOME ++ "/" ++ py_str run_id)
                          (DQ_LOG_FILE_HOME ++ "/" ++ py_str new_run_id');
                 UpdateFileConfig])) ∧
    ((inference = [] ∧ body_job_name body = None ∧
      body_non_inference_logged body = None) ∨
     (inference = [NonInferenceLogged] ∧ body_job_name body = Some JobName_inference ∧
      is_Some (body_non_inference_logged body))) ∧
    (∃ w w', respond (MakeRequestPost url body) w = (Ok res, w')) ∧
    res !! "job_name"%string = Some job_name ∧
    res !! "link"%string = Some link ∧
    r = Some link ∧
    Forall (λ c, is_model_upload_call c = true) model ∧
    (upload_model = false → model = []) ∧
    ((tail = [] ∧ wait = false) ∨
     (tail = [ApiWaitForRun None None] ∧ wait = true) ∨
     (∃ w conditions report_emails project_id run_id,
        Finish.conditions (observe w) ≠ [] ∧
        tail = [Print ("Waiting for run to process before building run report... "
                       ++ "Don't close laptop or terminate shell.");
                ApiWaitForRun None None;
                BuildRunReport conditions report_emails project_id run_id link])).
Proof.
  intros H. unfold finish in H.
  apply check_noop_Ok in H as (link' & -> & H).
  run_ext H as v0 w0 Hlog.
  apply pbind_Ok in H as (cde & s1 & Hcde & H).
  run_ext H as v1 w1 Hthreads.
  run_obs H as config0.
  run_assert H as Hpid.
  run_obs H as config1.
  run_assert H as Hrid.
  run_obs H as config2.
  run_assert H as Htt.
  run_ext H as v2 w2 Hgdl.
  run_ext H as v3 w3 Hvl.
  run_ext H as logged w4 Hnil.
  apply pbind_Ok in H as (ureset & s2 & Hreset & H).
  run_ext H as v4 w5 Hlcf.
  run_ext H as v5 w6 Hupload.
  run_ext H as v6 w7 Hlogfile.
  run_obs H as config3.
  run_lift H as task_value Htask.
  apply pbind_Ok in H as (body & s3 & Hbody & H).
  run_obs H as config4.
  run_ext H as res w8 Hreq.
  run_lift H as job_name Hjob.
  run_lift H as link Hlink.
  run_ext H as v7 w9 Hprint.
  apply pbind_Ok in H as (umodel & s4 & Hmodel & H).
  run_obs H as config5.
  apply pbind_Ok in H as (uwait & s5 & Hwait & H).
  run_ext H as v8 w10 Hcd.
  run_ext H as v9 w11 Hgml.
  run_ext H as v10 w12 Hcm.
  apply pret_Ok in H as [-> ->]. run_state.
  (* the blocks *)
  assert (∃ gpu, calls s1 = (calls s ++ [LogFunction "dq/finish"]) ++ gpu ∧
            ((create_data_embs = Some cde ∧ gpu = []) ∨
             (create_data_embs = None ∧ gpu = [GpuAvailable] ∧
              ∃ w w', respond GpuAvailable w = (Ok cde, w'))))
    as (gpu & Hs1 & Hgpu).
  { destruct create_data_embs as [given|].
    - apply pret_Ok in Hcde as [-> ->]. exists []. simpl.
      split; [by rewrite app_nil_r | by left].
    - apply (ext_Ok GpuAvailable) in Hcde as (w & Hw & ->). exists [GpuAvailable]. simpl.
      split; [done | right; eauto]. }
  assert (∃ reset, calls s2
            = ((((calls s1 ++ [WaitForThreads]) ++ [GetDataLogger]) ++ [ValidateLabels])
               ++ [NonInferenceLogged]) ++ reset ∧
            ((logged = false ∧ reset = []) ∨
             (logged = true ∧
              ∃ project_id run_id task_type project_dir new_run_id new_run_id',
                reset = [ApiResetRun project_id run_id task_type; GetDataLogger;
                         OsRename (project_dir ++ "/" ++ py_str run_id)
                                  (project_dir ++ "/" ++ py_str new_run_id);
                         OsRename (DQ_LOG_FILE_HOME ++ "/" ++ py_str run_id)
                                  (DQ_LOG_FILE_HOME ++ "/" ++ py_str new_run_id');
                         UpdateFileConfig])))
    as (reset & Hs2 & Hreset').
  { destruct logged.
    - run_obs Hreset as config.
      apply pbind_Ok in Hreset as (done_ & s6 & Hr & [_ ->]%pret_Ok).
      unfold _reset_run in Hr. apply check_noop_Ok in Hr as (done' & -> & Hr).
      run_ext Hr as x0 y0 Hr0.
      run_ext Hr as x1 y1 Hr1.
      run_obs Hr as c0. run_obs Hr as c1.
      run_ext Hr as x2 y2 Hr2.
      run_obs Hr as c2.
      run_ext Hr as x3 y3 Hr3.
      apply (ext_Ok UpdateFileConfig) in Hr as (y4 & Hr4 & ->). run_state.
      eexists. split; [by rewrite <- !app_assoc |].
      right. split; [done |]. by eexists _, _, _, _, _, _.
    - apply pret_Ok in Hreset as [_ ->]. run_state. exists [].
      split; [by rewrite app_nil_r | by left]. }
  assert (∃ inference, calls s3
            = (((calls s2 ++ [LoggerConfigFinish])
                ++ [Upload last_epoch cde data_embs_col]) ++ [UploadDqLogFile])
              ++ inference ∧
            ((inference = [] ∧ body_job_name body = None ∧
              body_non_inference_logged body = None) ∨
             (inference = [NonInferenceLogged] ∧
              body_job_name body = Some JobName_inference ∧
              is_Some (body_non_inference_logged body))))
    as (inference & Hs3 & Hinference).
  { destruct (inference_logged (observe w7)).
    - run_ext Hbody as logged' y Hy. apply pret_Ok in Hbody as [-> ->]. run_state.
      exists [NonInferenceLogged]. split; [done |]. right. simpl. eauto.
    - apply pret_Ok in Hbody as [-> ->]. run_state. exists [].
      split; [by rewrite app_nil_r | by left]. }
  assert (∃ model, calls s4
            = ((calls s3 ++ [MakeRequestPost
                               (api_url (observe (world s3)) ++ "/" ++ Route_jobs) body])
               ++ [Print ("Job " ++ job_name
                          ++ " successfully submitted. Results will be available "
                          ++ "soon at " ++ link)]) ++ model ∧
            Forall (λ c, is_model_upload_call c = true) model ∧
            (upload_model = false → model = []))
    as (model & Hs4 & Hmodel' & Hnomodel).
  { destruct upload_model.
    - match type of Hmodel with ?c ?s0 = _ =>
        assert (preserves (only_calls is_model_upload_call) c) as Hp
      end.
      { apply (preserves_ptry (only_calls is_model_upload_call)).
        - apply (preserves_pbind (only_calls is_model_upload_call));
            [by apply preserves_ext | intros _].
          apply (preserves_pbind (only_calls is_model_upload_call));
            [by apply preserves_obs | intros model_logger].
          destruct (bool_decide (is_Some (helper_data model_logger !! "model"%string))).
          + repeat (apply (preserves_pbind (only_calls is_model_upload_call));
                      [apply (preserves_plift (only_calls is_model_upload_call))
                      | intros ?]).
            apply (preserves_pbind (only_calls is_model_upload_call));
              [by apply preserves_ext | intros _].
            by apply preserves_ext.
          + by apply (preserves_ext _ (Print "No model to upload.")).
        - intros e.
          by apply (preserves_ext _ (Print ("Error uploading model: " ++ exn_str e))). }
      match type of Hmodel with ?c ?s0 = _ => specialize (Hp s0) end.
      rewrite Hmodel in Hp. destruct Hp as (model & Hcalls & HP).
      exists model. by split_and!.
    - apply pret_Ok in Hmodel as [_ ->]. run_state. exists [].
      split_and!; [by rewrite app_nil_r | done | done]. }
  assert (∃ tail, calls s5 = calls s4 ++ tail ∧
            ((tail = [] ∧ wait = false) ∨
             (tail = [ApiWaitForRun None None] ∧ wait = true) ∨
             (∃ w conditions report_emails project_id run_id,
                Finish.conditions (observe w) ≠ [] ∧
                tail = [Print ("Waiting for run to process before building run report... "
                               ++ "Don't close laptop or terminate shell.");
                        ApiWaitForRun None None;
                        BuildRunReport conditions report_emails project_id run_id link])))
    as (tail & Hs5 & Htail).
  { case_bool_decide as Hconditions.
    - run_ext Hwait as x0 y0 Hw0.
      apply pbind_Ok in Hwait as (x1 & s6 & (y1 & Hw1 & ->)%wait_for_run_Ok & Hwait).
      run_state.
      run_obs Hwait as config.
      run_lift Hwait as link2 Hlink2.
      assert (link2 = link) as -> by congruence.
      apply (ext_Ok (BuildRunReport _ _ _ _ _)) in Hwait as (y2 & Hw2 & ->). run_state.
      eexists. split; [by rewrite <- !app_assoc |].
      right. right. eexists (world s4), _, _, _, _. by split.
    - destruct wait.
      + apply pbind_Ok in Hwait as (x1 & s6 & (y1 & Hw1 & ->)%wait_for_run_Ok
                                    & [_ ->]%pret_Ok).
        run_state. eexists. split; [done |]. right. by left.
      + apply pret_Ok in Hwait as [_ ->]. exists [].
        split; [by rewrite app_nil_r | by left]. }
  apply dict_getitem_Ok in Hjob, Hlink.
  exists cde, logged, gpu, reset, inference,
    (api_url (observe (world s3)) ++ "/" ++ Route_jobs)%string, body, res, job_name,
    link, model, tail.
  split_and!; try done.
  - rewrite Hs5, Hs4, Hs3, Hs2, Hs1. by rewrite <- !app_assoc.
  - by exists w3, w4.
  - by exists (world s3), w8.
  - exact (f_equal (λ found, Some (default ""%string found)) Hlink).
Qed.

(** *** How [finish] can fail *)

Lemma raises_ext (E : exn → Prop) c :
  (∀ w e w', respond c w = (Raise e, w') → E e) → raises_within E (ext respond c).
Proof.
  intros HE s e s'. unfold ext. destruct (respond c (world s)) as [r w] eqn:Hc.
  intros [= -> _]. by eapply HE.
Qed.

Lemma raises_obs (E : exn → Prop) : raises_within (St := run) E (obs observe).
Proof. by intros s e s'. Qed.

Lemma raises_ptry {A} (E : exn → Prop) (c : prog run A) (h : exn → prog run A) :
  (∀ e, raises_within E (h e)) → raises_within E (ptry c h).
Proof.
  intros Hh s e s'. unfold ptry. destruct (c s) as [[a|e1] s1]; [done |]. apply Hh.
Qed.

Lemma raises_check_noop {A} (E : exn → Prop) (c : prog run A) :
  raises_within E c → raises_within E (check_noop A c).
Proof.
  intros Hc s e s'. rewrite check_noop_runs.
  intros [H|(a & s1 & _ & H)]%pbind_Raise; [by eapply Hc | done].
Qed.

Lemma raises_dict_getitem {V} (E : exn → Prop) (d : gmap string V) k :
  E KeyError → raises_within (St := run) E (plift (dict_getitem d k)).
Proof.
  intros HE. apply raises_within_plift. intros e. unfold dict_getitem.
  destruct (d !! k); [done | by intros [= <-]].
Qed.

Abbreviation finish_error := (finish_raises respond).

Lemma finish_error_own e :
  e ∈ [AssertionError; AttributeError; KeyError] → finish_error e.
Proof. by left. Qed.

Lemma raises_ext_finish c :
  is_upload_model_to_dq c = false → raises_within finish_error (ext respond c).
Proof. intros Hc. apply raises_ext. intros w e w' He. right. by exists c, w, w'. Qed.

Lemma finish_raises_within last_epoch wait create_data_embs data_embs_col upload_model :
  raises_within finish_error
    (finish observe respond Route_jobs DQ_LOG_FILE_HOME JobName_inference
       task_type_value exn_str check_noop last_epoch wait create_data_embs data_embs_col
       upload_model).
Proof.
  unfold finish, _reset_run, wait_for_run.
  repeat first
    [ apply raises_check_noop
    | apply raises_obs
    | apply raises_within_pret
    | apply raises_within_passert; apply finish_error_own; set_solver
    | apply raises_dict_getitem; apply finish_error_own; set_solver
    | match goal with
      | |- raises_within _ (ext respond ?c) => apply (raises_ext_finish c); reflexivity
      end
    | apply raises_ptry; intros e;
        apply (raises_ext_finish (Print ("Error uploading model: " ++ exn_str e)));
        reflexivity
    | apply raises_within_plift; intros e; case_match; [done |];
        intros [= <-]; apply finish_error_own; set_solver
    | apply raises_within_pbind; [| intros ?]
    | match goal with
      | |- raises_within _ (if ?b then _ else _) => destruct b
      | |- raises_within _ (match ?x with Some _ => _ | None => _ end) => destruct x
      end ].
Qed.

End FinishFacts.

(** X17. Without an active project, an active run or a task type, [finish]
    stops with [AssertionError] after logging the call, asking for a GPU when
    [create_data_embs] was not given, and waiting for the logging threads:
    the data logger is not fetched, nothing is uploaded and no job is
    requested. *)
Theorem finish_needs_an_active_run {W Value JobName TaskType : Type}
    (observe : W → Finish.Snapshot (Value := Value) (TaskType := TaskType))
    (respond : ∀ c : Finish.call (Value := Value) (JobName := JobName)
                       (TaskType := TaskType), W → result (Finish.response c) * W)
    (Route_jobs DQ_LOG_FILE_HOME : string) (JobName_inference : JobName)
    (task_type_value : TaskType → Value) (exn_str : exn → string)
    (check_noop : ∀ A : Type, prog (@Finish.Run W Value JobName TaskType) A
                              → prog (@Finish.Run W Value JobName TaskType) (option A))
    (last_epoch : option Z) (wait : bool) (create_data_embs : option bool)
    (data_embs_col : string) (upload_model : bool)
    (s : @Finish.Run W Value JobName TaskType) (w1 w2 w3 : W) (gpu : bool) :
  (∀ A (c : prog Finish.Run A) s, check_noop A c s = pbind c (λ a, pret (Some a)) s) →
  respond (Finish.LogFunction "dq/finish") (Finish.world s) = (Ok tt, w1) →
  match create_data_embs with
  | None => respond Finish.GpuAvailable w1 = (Ok gpu, w2)
  | Some _ => w2 = w1
  end →
  respond Finish.WaitForThreads w2 = (Ok tt, w3) →
  Finish.current_project_id (observe w3) = None
  ∨ Finish.current_run_id (observe w3) = None
  ∨ Finish.task_type (observe w3) = None →
  Finish.finish observe respond Route_jobs DQ_LOG_FILE_HOME JobName_inference
    task_type_value exn_str check_noop last_epoch wait create_data_embs data_embs_col
    upload_model s
  = (Raise AssertionError,
     {| Finish.world := w3;
        Finish.calls := Finish.calls s
          ++ [Finish.LogFunction "dq/finish"]
          ++ match create_data_embs with
             | None => [Finish.GpuAvailable]
             | Some _ => []
             end
          ++ [Finish.WaitForThreads] |}).
Proof.
  intros Hruns Hlog Hgpu Hthreads Hunset.
  unfold Finish.finish. rewrite Hruns. apply pbind_run_Raise.
  rewrite (pbind_run_Ok _ _ _ _ _ (ext_run respond _ _ _ _ Hlog)).
  destruct create_data_embs as [given|];
    [ subst w2; rewrite (pbind_run_Ok (pret given) _ _ given _ eq_refl)
    | rewrite (pbind_run_Ok _ _ _ _ _
                 (ext_run_at respond Finish.GpuAvailable _ _ _ _ Hgpu)) ];
    rewrite (pbind_run_Ok _ _ _ _ _
               (ext_run_at respond Finish.WaitForThreads _ _ _ _ Hthreads));
    rewrite (pbind_run_Ok (Finish.obs observe) _ _ _ _ eq_refl);
    cbn [Finish.world].
  all: destruct (Finish.current_project_id (observe w3)) eqn:E1;
    [rewrite passert_bind_true by done
    | rewrite passert_bind_false by done; cbn [Finish.calls]; by rewrite <- !app_assoc].
  all: rewrite (pbind_run_Ok (Finish.obs observe) _ _ _ _ eq_refl); cbn [Finish.world].
  all: destruct (Finish.current_run_id (observe w3)) eqn:E2;
    [rewrite passert_bind_true by done
    | rewrite passert_bind_false by done; cbn [Finish.calls]; by rewrite <- !app_assoc].
  all: rewrite (pbind_run_Ok (Finish.obs observe) _ _ _ _ eq_refl); cbn [Finish.world].
  all: destruct (Finish.task_type (observe w3)) eqn:E3;
    [by destruct Hunset as [?|[?|?]]
    | rewrite passert_bind_false by done; cbn [Finish.calls]; by rewrite <- !app_assoc].
Qed.

Lemma finish_needs_an_active_run_witness :
  example_finish example_start_no_run
  = (Raise AssertionError,
     {| Finish.world := example_snapshot_no_run;
        Finish.calls := [Finish.LogFunction "dq/finish"; Finish.GpuAvailable;
                         Finish.WaitForThreads] |}).
Proof.
  apply (finish_needs_an_active_run id example_respond "jobs" "/home/.galileo"
           "inference"%string id (λ _, "error"%string) example_check_noop None false None
           "text" true example_start_no_run example_snapshot_no_run
           example_snapshot_no_run example_snapshot_no_run false).
  - intros A c s. reflexivity.
  - reflexivity.
  - reflexivity.
  - reflexivity.
  - left. reflexivity.
Defined.



(** X19. A [finish] that returns has requested one job, after the upload of
    the data and of the log file, and returns the link of the response,
    which also held a job name: the fallback to the empty string is not
    reached.  The upload was told to create data embeddings as the caller
    said or, the caller not saying, as a GPU was available.  The body of the
    request names the inference job and says whether non-inference data was
    logged exactly when the data logger was asked that a second time. *)
Theorem finish_returns_the_link_of_the_job {W Value JobName TaskType : Type}
    (observe : W → Finish.Snapshot (Value := Value) (TaskType := TaskType))
    (respond : ∀ c : Finish.call (Value := Value) (JobName := JobName)
                       (TaskType := TaskType), W → result (Finish.response c) * W)
    (Route_jobs DQ_LOG_FILE_HOME : string) (JobName_inference : JobName)
    (task_type_value : TaskType → Value) (exn_str : exn → string)
    (check_noop : ∀ A : Type, prog (@Finish.Run W Value JobName TaskType) A
                              → prog (@Finish.Run W Value JobName TaskType) (option A))
    (last_epoch : option Z) (wait : bool) (create_data_embs : option bool)
    (data_embs_col : string) (upload_model : bool)
    (s s' : @Finish.Run W Value JobName TaskType) (r : option string) :
  (∀ A (c : prog Finish.Run A) s, check_noop A c s = pbind c (λ a, pret (Some a)) s) →
  Finish.finish observe respond Route_jobs DQ_LOG_FILE_HOME JobName_inference
    task_type_value exn_str check_noop last_epoch wait create_data_embs data_embs_col
    upload_model s = (Ok r, s') →
  ∃ cde before inference url body res job_name link after,
    Finish.calls s' = Finish.calls s ++ before
      ++ [Finish.Upload last_epoch cde data_embs_col; Finish.UploadDqLogFile]
      ++ inference
      ++ [Finish.MakeRequestPost url body;
          Finish.Print ("Job " ++ job_name
                        ++ " successfully submitted. Results will be available "
                        ++ "soon at " ++ link)]
      ++ after ∧
    Forall (λ c, Finish.is_request_call c = false) (before ++ inference ++ after) ∧
    (create_data_embs = Some cde ∨
     (create_data_embs = None ∧ ∃ w w', respond Finish.GpuAvailable w = (Ok cde, w'))) ∧
    (∃ w w', respond (Finish.MakeRequestPost url body) w = (Ok res, w')) ∧
    res !! "job_name"%string = Some job_name ∧
    res !! "link"%string = Some link ∧
    r = Some link ∧
    ((inference = [] ∧ Finish.body_job_name body = None ∧
      Finish.body_non_inference_logged body = None) ∨
     (inference = [Finish.NonInferenceLogged] ∧
      Finish.body_job_name body = Some JobName_inference ∧
      is_Some (Finish.body_non_inference_logged body))).
Proof.
  intros Hruns H.
  destruct (finish_Ok_inv observe respond Route_jobs DQ_LOG_FILE_HOME JobName_inference
              task_type_value exn_str check_noop Hruns _ _ _ _ _ _ _ _ H)
    as (cde & logged & gpu & reset & inference & url & body & res & job_name & link
        & model & tail & Hcalls & Hgpu & Hlogged & Hreset & Hinference & Hrequest
        & Hjob & Hlink & Hr & Hmodel & Hnomodel & Htail).
  exists cde,
    ([Finish.LogFunction "dq/finish"] ++ gpu
     ++ [Finish.WaitForThreads; Finish.GetDataLogger; Finish.ValidateLabels;
         Finish.NonInferenceLogged] ++ reset ++ [Finish.LoggerConfigFinish]),
    inference, url, body, res, job_name, link,
    (model ++ tail
     ++ [Finish.CleanupDataLogger; Finish.GetModelLogger; Finish.CleanupModelLogger]).
  split_and!; try done.
  - rewrite Hcalls. by rewrite <- !app_assoc.
  - repeat apply Forall_app_2.
    + by repeat constructor.
    + by destruct Hgpu as [[_ ->]|(_ & -> & _)]; repeat constructor.
    + by repeat constructor.
    + destruct Hreset as [[_ ->]|(_ & ? & ? & ? & ? & ? & ? & ->)]; by repeat constructor.
    + by repeat constructor.
    + destruct Hinference as [(-> & _)|(-> & _)]; by repeat constructor.
    + eapply Forall_impl; [exact Hmodel |]. by intros [].
    + destruct Htail as [[-> _]|[[-> _]|(? & ? & ? & ? & ? & _ & ->)]];
        by repeat constructor.
    + by repeat constructor.
  - destruct Hgpu as [[? _]|(? & _ & ?)]; [by left | by right].
Qed.

Lemma finish_returns_the_link_of_the_job_witness :
  ∃ cde before inference url body res job_name link after,
    Finish.calls example_finished = Finish.calls example_start ++ before
      ++ [Finish.Upload None cde "text"; Finish.UploadDqLogFile]
      ++ inference
      ++ [Finish.MakeRequestPost url body;
          Finish.Print ("Job " ++ job_name
                        ++ " successfully submitted. Results will be available "
                        ++ "soon at " ++ link)]
      ++ after ∧
    Forall (λ c, Finish.is_request_call c = false) (before ++ inference ++ after) ∧
    (None = Some cde ∨
     (@None bool = None ∧
      ∃ w w', example_respond Finish.GpuAvailable w = (Ok cde, w'))) ∧
    (∃ w w', example_respond (Finish.MakeRequestPost url body) w = (Ok res, w')) ∧
    res !! "job_name"%string = Some job_name ∧
    res !! "link"%string = Some link ∧
    Some "https://console/run"%string = Some link ∧
    ((inference = [] ∧ Finish.body_job_name body = None ∧
      Finish.body_non_inference_logged body = None) ∨
     (inference = [Finish.NonInferenceLogged] ∧
      Finish.body_job_name body = Some "inference"%string ∧
      is_Some (Finish.body_non_inference_logged body))).
Proof.
  apply (finish_returns_the_link_of_the_job id example_respond "jobs" "/home/.galileo"
           "inference"%string id (λ _, "error"%string) example_check_noop None false None
           "text" true example_start example_finished (Some "https://console/run"%string)).
  - intros A c s. reflexivity.
  - vm_compute. reflexivity.
Defined.

(** X20. A [finish] that returns has reset the run exactly when the data
    logger said that non-inference data was logged, and then before it
    uploads anything: it asks the server to reset the run, fetches the data
    logger, renames the run's directory of logged data and its directory of
    standard logs, both from the run id that was reset, and writes the
    config file.  Nothing later in the run resets or renames. *)
Theorem finish_resets_before_upload {W Value JobName TaskType : Type}
    (observe : W → Finish.Snapshot (Value := Value) (TaskType := TaskType))
    (respond : ∀ c : Finish.call (Value := Value) (JobName := JobName)
                       (TaskType := TaskType), W → result (Finish.response c) * W)
    (Route_jobs DQ_LOG_FILE_HOME : string) (JobName_inference : JobName)
    (task_type_value : TaskType → Value) (exn_str : exn → string)
    (check_noop : ∀ A : Type, prog (@Finish.Run W Value JobName TaskType) A
                              → prog (@Finish.Run W Value JobName TaskType) (option A))
    (last_epoch : option Z) (wait : bool) (create_data_embs : option bool)
    (data_embs_col : string) (upload_model : bool)
    (s s' : @Finish.Run W Value JobName TaskType) (r : option string) :
  (∀ A (c : prog Finish.Run A) s, check_noop A c s = pbind c (λ a, pret (Some a)) s) →
  Finish.finish observe respond Route_jobs DQ_LOG_FILE_HOME JobName_inference
    task_type_value exn_str check_noop last_epoch wait create_data_embs data_embs_col
    upload_model s = (Ok r, s') →
  ∃ logged gpu reset after,
    Finish.calls s' = Finish.calls s
      ++ [Finish.LogFunction "dq/finish"] ++ gpu
      ++ [Finish.WaitForThreads; Finish.GetDataLogger; Finish.ValidateLabels;
          Finish.NonInferenceLogged]
      ++ reset ++ [Finish.LoggerConfigFinish] ++ after ∧
    (gpu = [] ∨ gpu = [Finish.GpuAvailable]) ∧
    (∃ w w', respond Finish.NonInferenceLogged w = (Ok logged, w')) ∧
    ((logged = false ∧ reset = []) ∨
     (logged = true ∧
      ∃ project_id run_id task_type project_dir new_run_id new_run_id',
        reset = [Finish.ApiResetRun project_id run_id task_type; Finish.GetDataLogger;
                 Finish.OsRename (project_dir ++ "/" ++ py_str run_id)
                                 (project_dir ++ "/" ++ py_str new_run_id);
                 Finish.OsRename (DQ_LOG_FILE_HOME ++ "/" ++ py_str run_id)
                                 (DQ_LOG_FILE_HOME ++ "/" ++ py_str new_run_id');
                 Finish.UpdateFileConfig])) ∧
    Forall (λ c, Finish.is_reset_call c = false) after.
Proof.
  intros Hruns H.
  destruct (finish_Ok_inv observe respond Route_jobs DQ_LOG_FILE_HOME JobName_inference
              task_type_value exn_str check_noop Hruns _ _ _ _ _ _ _ _ H)
    as (cde & logged & gpu & reset & inference & url & body & res & job_name & link
        & model & tail & Hcalls & Hgpu & Hlogged & Hreset & Hinference & Hrequest
        & Hjob & Hlink & Hr & Hmodel & Hnomodel & Htail).
  exists logged, gpu, reset,
    ([Finish.Upload last_epoch cde data_embs_col; Finish.UploadDqLogFile]
     ++ inference
     ++ [Finish.MakeRequestPost url body;
         Finish.Print ("Job " ++ job_name
                       ++ " successfully submitted. Results will be available "
                       ++ "soon at " ++ link)]
     ++ model ++ tail
     ++ [Finish.CleanupDataLogger; Finish.GetModelLogger; Finish.CleanupModelLogger]).
  split_and!; try done.
  - destruct Hgpu as [[_ ->]|(_ & -> & _)]; [by left | by right].
  - repeat apply Forall_app_2.
    + by repeat constructor.
    + destruct Hinference as [(-> & _)|(-> & _)]; by repeat constructor.
    + by repeat constructor.
    + eapply Forall_impl; [exact Hmodel |]. by intros [].
    + destruct Htail as [[-> _]|[[-> _]|(? & ? & ? & ? & ? & _ & ->)]];
        by repeat constructor.
    + by repeat constructor.
Qed.

Lemma finish_resets_before_upload_witness :
  ∃ logged gpu reset after,
    Finish.calls example_finished = Finish.calls example_start
      ++ [Finish.LogFunction "dq/finish"] ++ gpu
      ++ [Finish.WaitForThreads; Finish.GetDataLogger; Finish.ValidateLabels;
          Finish.NonInferenceLogged]
      ++ reset ++ [Finish.LoggerConfigFinish] ++ after ∧
    (gpu = [] ∨ gpu = [Finish.GpuAvailable]) ∧
    (∃ w w', example_respond Finish.NonInferenceLogged w = (Ok logged, w')) ∧
    ((logged = false ∧ reset = []) ∨
     (logged = true ∧
      ∃ project_id run_id task_type project_dir new_run_id new_run_id',
        reset = [Finish.ApiResetRun project_id run_id task_type; Finish.GetDataLogger;
                 Finish.OsRename (project_dir ++ "/" ++ py_str run_id)
                                 (project_dir ++ "/" ++ py_str new_run_id);
                 Finish.OsRename ("/home/.galileo" ++ "/" ++ py_str run_id)
                                 ("/home/.galileo" ++ "/" ++ py_str new_run_id');
                 Finish.UpdateFileConfig])) ∧
    Forall (λ c, Finish.is_reset_call c = false) after.
Proof.
  apply (finish_resets_before_upload id example_respond "jobs" "/home/.galileo"
           "inference"%string id (λ _, "error"%string) example_check_noop None false None
           "text" true example_start example_finished (Some "https://console/run"%string)).
  - intros A c s. reflexivity.
  - vm_compute. reflexivity.
Defined.


